(** * Frame effect compositor and export pipeline of [GUI/blur.py]

    A shallow embedding of the [VideoBlurApp] methods that decide what the
    preview and the exported video show: [apply_mask_effect],
    [create_face_mask], [rotate_frame], [process_frame],
    [show_current_frame], [get_video_writer], [process_video], and the
    gesture handlers [on_mouse_up] and [on_double_click] that author the
    shape list.

    Images are numpy arrays in the source; here a frame is a list of rows of
    BGR pixels and a mask a list of rows of [uint8] values.  The OpenCV
    kernels whose arithmetic is floating point (Gaussian blur, resize,
    affine warp, ellipse and polygon fill), the pose detector with its
    tracker, and whether drawing on the Tk canvas raises are parameters of
    the development; everything the Python code itself computes is written
    out.  The calls of OpenCV that assert something of their arguments
    return an [outcome]: they raise where OpenCV does. *)

From stdpp Require Import base numbers list strings gmap pretty.
From Stdlib Require Import QArith Ascii.

Local Open Scope Z_scope.

(** ** Exceptions

    Python exceptions are values: a computation either returns or raises. *)

Inductive exn : Type :=
  | ValueError   (* numpy broadcast failure, tuple unpacking *)
  | IndexError   (* sequence index out of range *)
  | CvError      (* cv2.error raised by an OpenCV assertion *)
  | DisplayError. (* raised while the preview is put on the canvas *)

Inductive outcome (A : Type) : Type :=
  | Ok (a : A)
  | Raise (e : exn).
Arguments Ok {A} a.
Arguments Raise {A} e.

Definition rbind {A B} (m : outcome A) (k : A → outcome B) : outcome B :=
  match m with
  | Ok a => k a
  | Raise e => Raise e
  end.

Notation "'do' x <- m ; k" := (rbind m (λ x, k))
  (at level 10, x pattern, m at level 100, k at level 200,
   format "'[v' 'do'  x  <-  m ; '/' k ']'").

(** ** Images *)

Module Img.

(** One BGR pixel; each channel is a [uint8] held in a [Z]. *)
Abbreviation pixel := (Z * Z * Z)%type.
Abbreviation Frame := (list (list pixel)).
Abbreviation Mask := (list (list Z)).

Definition black_px : pixel := (0, 0, 0).

(** [frame.shape[:2]]: number of rows, then number of columns. *)
Definition height {A} (a : list (list A)) : Z := Z.of_nat (length a).
Definition width {A} (a : list (list A)) : Z :=
  match a with
  | [] => 0
  | r :: _ => Z.of_nat (length r)
  end.

(** An ndarray is rectangular: [h] rows of [w] entries. *)
Definition has_shape {A} (h w : nat) (a : list (list A)) : Prop :=
  length a = h ∧ Forall (λ r, length r = w) a.

(** Storing a Python integer into a [uint8] array wraps modulo 256. *)
Definition to_uint8 (c : Z) : Z := c `mod` 256.

(** [np.zeros((height, width), dtype=np.uint8)] *)
Definition zeros (h w : Z) : Mask :=
  replicate (Z.to_nat h) (replicate (Z.to_nat w) 0).

(** [np.ones((height, width), dtype=np.uint8) * 255] *)
Definition full (h w : Z) : Mask :=
  replicate (Z.to_nat h) (replicate (Z.to_nat w) 255).

(** [np.zeros_like(frame)] followed by [colored_mask[:] = color]. *)
Definition filled_like (frame : Frame) (color : pixel) : Frame :=
  let '(c0, c1, c2) := color in
  map (map (λ _, (to_uint8 c0, to_uint8 c1, to_uint8 c2))) frame.

(** The element-wise choice of [np.where(mask[:, :, np.newaxis] == 255, x, y)].
    The mask entry decides for the three channels of a pixel at once. *)
Definition choose (m : Z) (x y : pixel) : pixel :=
  if m =? 255 then x else y.

Fixpoint where_row (m : list Z) (x y : list pixel) : outcome (list pixel) :=
  match m, x, y with
  | [], [], [] => Ok []
  | c :: m', a :: x', b :: y' =>
      do r <- where_row m' x' y'; Ok (choose c a b :: r)
  | _, _, _ => Raise ValueError
  end.

(** [np.where] over three arrays.  Operands whose shapes differ make numpy
    raise [ValueError] (operands could not be broadcast together); every
    mask of the program is allocated from the frame's own shape, so the
    stretching of length-one axes that numpy would also accept is left out. *)
Fixpoint np_where (m : Mask) (x y : Frame) : outcome Frame :=
  match m, x, y with
  | [], [], [] => Ok []
  | mr :: m', xr :: x', yr :: y' =>
      do r <- where_row mr xr yr;
      do rs <- np_where m' x' y';
      Ok (r :: rs)
  | _, _, _ => Raise ValueError
  end.

(** [np.where(mask[:, :, np.newaxis] == 255, 0, y)]: the scalar [0] is
    broadcast to every channel of every pixel. *)
Fixpoint where_row0 (m : list Z) (y : list pixel) : outcome (list pixel) :=
  match m, y with
  | [], [] => Ok []
  | c :: m', b :: y' =>
      do r <- where_row0 m' y'; Ok (choose c black_px b :: r)
  | _, _ => Raise ValueError
  end.

Fixpoint np_where0 (m : Mask) (y : Frame) : outcome Frame :=
  match m, y with
  | [], [] => Ok []
  | mr :: m', yr :: y' =>
      do r <- where_row0 mr yr;
      do rs <- np_where0 m' y';
      Ok (r :: rs)
  | _, _ => Raise ValueError
  end.

(** Pixel access, row first, as [a[i][j]]. *)
Definition at_ {A} (a : list (list A)) (i j : nat) : option A :=
  a !! i ≫= λ r, r !! j.

(** [cv2.rectangle(mask, pt1, pt2, value, -1)]: the filled, inclusive
    rectangle spanned by two opposite corners, clipped to the image. *)
Definition in_rect (p1 p2 : Z * Z) (i j : nat) : bool :=
  let x_lo := p1.1 `min` p2.1 in
  let x_hi := p1.1 `max` p2.1 in
  let y_lo := p1.2 `min` p2.2 in
  let y_hi := p1.2 `max` p2.2 in
  (x_lo <=? Z.of_nat j) && (Z.of_nat j <=? x_hi) &&
  (y_lo <=? Z.of_nat i) && (Z.of_nat i <=? y_hi).

Definition cv2_rectangle (m : Mask) (p1 p2 : Z * Z) (v : Z) : Mask :=
  imap (λ i row, imap (λ j old, if in_rect p1 p2 i j then v else old) row) m.

(** Python slice bounds: [a[lo:hi]] on an axis of length [n].  A negative
    bound counts from the end, and both bounds are clamped to the axis. *)
Definition slice_bound (n i : Z) : Z :=
  if i <? 0 then 0 `max` (i + n) else i `min` n.

Definition in_slice (n lo hi : Z) (k : nat) : bool :=
  (slice_bound n lo <=? Z.of_nat k) && (Z.of_nat k <? slice_bound n hi).

(** [a[lo:hi]] *)
Definition slice {A} (l : list A) (lo hi : Z) : list A :=
  let n := Z.of_nat (length l) in
  let s := slice_bound n lo in
  let e := slice_bound n hi in
  take (Z.to_nat (e - s)) (drop (Z.to_nat s) l).

(** [a[y:y+h, x:x+w]] *)
Definition slice2 {A} (a : list (list A)) (y h x w : Z) : list (list A) :=
  map (λ r, slice r x (x + w)) (slice a y (y + h)).

(** [mask[y:y+h, x:x+w] = v] *)
Definition assign_slice2 (m : Mask) (y h x w : Z) (v : Z) : Mask :=
  let nr := height m in
  imap (λ i row,
          let nc := Z.of_nat (length row) in
          imap (λ j old,
                  if in_slice nr y (y + h) i && in_slice nc x (x + w) j
                  then v else old) row) m.

End Img.

Import Img.

(** ** OpenCV kernels

    The kernels below do floating-point arithmetic inside OpenCV.  They are
    an interface here: the function each one computes on inputs it accepts,
    with the one law the compositor relies on, the shape of the output
    (OpenCV documents [dst] as having the size of [src], or [dsize]). *)

Class OpenCV : Type := {
  (** [cv2.GaussianBlur(src, (k, k), 0)] for a positive odd [k] *)
  gaussian : Frame → Z → Frame;
  (** [cv2.resize(src, (w, h), interpolation=cv2.INTER_LINEAR)] *)
  resize_linear : Frame → Z → Z → Frame;
  (** [cv2.resize(src, (w, h), interpolation=cv2.INTER_NEAREST)] *)
  resize_nearest : Frame → Z → Z → Frame;
  (** [cv2.warpAffine] of the rotation by [angle] degrees about
      [(width // 2, height // 2)], output canvas [(width, height)],
      linear interpolation, constant border *)
  warp_rotate : Frame → Z → Frame;
  (** [cv2.ellipse(mask, center, axes, 0, start, end, 255, -1)] for axes
      that are not negative *)
  ellipse : Mask → Z * Z → Z * Z → Z → Z → Mask;
  (** [cv2.fillPoly(mask, [points], 255)] for at least one point *)
  fill_poly : Mask → list (Z * Z) → Mask;
  (** [int(r * np.cos(np.radians(angle)))] and the same with [np.sin] *)
  int_cos : Z → Z → Z;
  int_sin : Z → Z → Z;
  (** [int(h * 0.6)], [int(w * 0.45)], [int(h * 0.5)] *)
  int_scale_06 : Z → Z;
  int_scale_045 : Z → Z;
  int_scale_05 : Z → Z;

  gaussian_shape h w f k :
    has_shape h w f → has_shape h w (gaussian f k);
  resize_linear_shape f w h :
    has_shape (Z.to_nat h) (Z.to_nat w) (resize_linear f w h);
  resize_nearest_shape f w h :
    has_shape (Z.to_nat h) (Z.to_nat w) (resize_nearest f w h);
  warp_rotate_shape h w f a :
    has_shape h w f → has_shape h w (warp_rotate f a);
  ellipse_shape h w m c ax s e :
    has_shape h w m → has_shape h w (ellipse m c ax s e);
  fill_poly_shape h w m ps :
    has_shape h w m → has_shape h w (fill_poly m ps)
}.

Section Effects.
Context `{cv : OpenCV}.

Definition nonempty (frame : Frame) : bool :=
  (0 <? height frame) && (0 <? width frame).

(** [cv2.GaussianBlur(frame, (k, k), 0)].  With sigma 0 OpenCV asserts that
    the kernel size is positive and odd, and that the source is not empty. *)
Definition cv2_GaussianBlur (frame : Frame) (k : Z) : outcome Frame :=
  if (0 <? k) && Z.odd k && nonempty frame
  then Ok (gaussian frame k) else Raise CvError.

(** [cv2.resize(src, (w, h), interpolation=...)].  OpenCV asserts a
    non-empty source and a non-empty destination size. *)
Definition cv2_resize (kernel : Frame → Z → Z → Frame)
    (src : Frame) (w h : Z) : outcome Frame :=
  if (0 <? w) && (0 <? h) && nonempty src
  then Ok (kernel src w h) else Raise CvError.

(** [cv2.ellipse(mask, center, axes, 0, start, end, 255, -1)].  OpenCV
    asserts that neither axis is negative. *)
Definition cv2_ellipse (mask : Mask) (center axes : Z * Z)
    (start_angle end_angle : Z) : outcome Mask :=
  if (0 <=? axes.1) && (0 <=? axes.2)
  then Ok (ellipse mask center axes start_angle end_angle)
  else Raise CvError.

(** [cv2.fillPoly(mask, [points], 255)].  OpenCV rejects an empty array of
    points. *)
Definition cv2_fillPoly (mask : Mask) (pts : list (Z * Z)) : outcome Mask :=
  match pts with
  | [] => Raise CvError
  | _ :: _ => Ok (fill_poly mask pts)
  end.

(** [apply_mask_effect(self, frame, mask, mask_type, blur_strength, color)] *)
Definition apply_mask_effect (frame : Frame) (mask : Mask)
    (mask_type : string) (blur_strength : Z) (color : pixel) : outcome Frame :=
  let result := frame in
  if String.eqb mask_type "blur" then
    let blur_strength :=
      if blur_strength `mod` 2 =? 0 then blur_strength + 1 else blur_strength in
    do blurred <- cv2_GaussianBlur frame blur_strength;
    np_where mask blurred result
  else if String.eqb mask_type "pixelate" then
    let scale := 1 `max` (blur_strength `div` 10) in
    do temp <- cv2_resize resize_linear frame
                 (width frame `div` scale) (height frame `div` scale);
    do pixelated <- cv2_resize resize_nearest temp (width frame) (height frame);
    np_where mask pixelated result
  else if String.eqb mask_type "solid" then
    let colored_mask := filled_like frame color in
    np_where mask colored_mask result
  else if String.eqb mask_type "black" then
    np_where0 mask result
  else Ok result.

(** [rotate_frame(self, frame, angle)] *)
Definition rotate_frame (frame : Frame) (angle : Z) : Frame :=
  if angle =? 0 then frame else warp_rotate frame angle.

End Effects.

(** ** Shapes, face tracks and the authoring state *)

(** A shape is the positional tuple
    [(shape_type, points, mask_type, strength, color, start, end)].  The first
    five fields are always present; [frame_fields] holds whatever follows
    them, so a tuple with a frame range has [frame_fields = [start; end]] and
    [len(shape)] is five plus the number of trailing fields. *)
Record Shape : Type := mkShape {
  shape_type : string;
  points : list (Z * Z);
  shape_mask_type : string;
  strength : Z;
  color : pixel;
  frame_fields : list Z
}.

Definition shape_len (s : Shape) : Z := 5 + Z.of_nat (length (frame_fields s)).

(** One entry of [self.tracked_faces]:
    [(face_id, (x, y, w, h), confidence, frame_index)].  DeepSort reports
    [None] as the confidence of a track with no detection in this frame. *)
Record FaceTrack : Type := mkFace {
  face_id : Z;
  bbox : Z * Z * Z * Z;
  confidence : option Q;
  seen_at : Z
}.

(** The attributes of [VideoBlurApp] read by the compositor and by the
    export run.  Neither assigns to any of them while frames are processed
    (the run resets [frame_index] to 0 once it is over).
    [detection_frequency] is set to 3 when the application starts and never
    assigned again. *)
Record Config : Type := mkConfig {
  input_video : option string;
  output_path : option string;
  shapes : list Shape;
  auto_detect_faces : bool;
  rtmpose_initialized : bool;
  has_deepsort : bool;
  detection_frequency : Z;
  frame_index : Z;
  total_frames : Z;
  blur_strength : Z;
  mask_type : string;
  mask_shape : string;
  mask_color : pixel;
  blur_entire_video : bool;
  start_frame : Z;
  end_frame : Z;
  crop_enabled : bool;
  crop_x : Z;
  crop_y : Z;
  crop_width : Z;
  crop_height : Z;
  crop_type : string;
  crop_mask_type : string;
  crop_all_frames : bool;
  crop_start_frame : Z;
  crop_end_frame : Z;
  rotation_angle : Z;
  rotation_enabled : bool;
  trim_enabled : bool;
  trim_start_frame : Z;
  trim_end_frame : Z
}.

Definition with_frame_index (cfg : Config) (i : Z) : Config :=
  mkConfig
    (input_video cfg) (output_path cfg) (shapes cfg) (auto_detect_faces cfg)
    (rtmpose_initialized cfg) (has_deepsort cfg) (detection_frequency cfg) i
    (total_frames cfg) (blur_strength cfg) (mask_type cfg) (mask_shape cfg)
    (mask_color cfg) (blur_entire_video cfg) (start_frame cfg)
    (end_frame cfg) (crop_enabled cfg) (crop_x cfg) (crop_y cfg)
    (crop_width cfg) (crop_height cfg) (crop_type cfg) (crop_mask_type cfg)
    (crop_all_frames cfg) (crop_start_frame cfg) (crop_end_frame cfg)
    (rotation_angle cfg) (rotation_enabled cfg) (trim_enabled cfg)
    (trim_start_frame cfg) (trim_end_frame cfg).

(** ** The face tracking adapter

    RTMPose and DeepSort keep state between calls.  [pose_and_track] is the
    body of [detect_faces] after its guard: a function of that state, of
    [self.frame_index] (stamped on each track) and of the frame.  It catches
    every exception itself and then returns the empty list, so it is total. *)
Class FaceTracker : Type := {
  det_state : Type;
  pose_and_track : det_state → Z → Frame → list FaceTrack * det_state;
  (** [self.pose_tracker.reset()] *)
  pose_reset : det_state → det_state;
  (** [self.deepsort_tracker.tracker.delete_all_tracks()] *)
  delete_all_tracks : det_state → det_state
}.

Section Compositor.
Context `{cv : OpenCV} `{ft : FaceTracker}.

(** [self.tracked_faces] together with the state of the detector and
    tracker: what one composited frame leaves behind for the next. *)
Record Session : Type := mkSession {
  tracked_faces : list FaceTrack;
  det : det_state
}.

(** [detect_faces(self, frame)] *)
Definition detect_faces (cfg : Config) (d : det_state) (frame : Frame)
    : list FaceTrack * det_state :=
  if negb (rtmpose_initialized cfg) then ([], d)
  else pose_and_track d (frame_index cfg) frame.

(** [range(lo, hi, 10)] for [lo <= hi] *)
Definition range10 (lo hi : Z) : list Z :=
  map (λ k, lo + 10 * k) (seqZ 0 ((hi - lo + 9) `div` 10)).

(** The 36-point outline of the [precise] mask shape. *)
Definition face_outline (x y w h : Z) : list (Z * Z) :=
  let center_x := x + w `div` 2 in
  let center_y := y + h `div` 2 in
  map (λ angle,
         let radius_x := w `div` 2 in
         let radius_y := int_scale_06 h in
         (center_x + int_cos radius_x angle, center_y - int_sin radius_y angle))
      (range10 0 180)
  ++
  map (λ angle,
         let radius_x := int_scale_045 w in
         let radius_y := int_scale_05 h in
         (center_x + int_cos radius_x angle, center_y - int_sin radius_y angle))
      (range10 180 360).

(** One iteration of the loop of [create_face_mask]. *)
Definition draw_face (shape : string) (mask : Mask) (f : FaceTrack)
    : outcome Mask :=
  let '(x, y, w, h) := bbox f in
  if String.eqb shape "rectangle" then
    Ok (cv2_rectangle mask (x, y) (x + w, y + h) 255)
  else if String.eqb shape "oval" then
    let center := (x + w `div` 2, y + h `div` 2) in
    let axes := (w `div` 2, h `div` 2) in
    do mask <- cv2_ellipse mask center axes 0 360;
    let forehead_center := (center.1, y + h `div` 4) in
    let forehead_size := (w `div` 2, h `div` 2) in
    cv2_ellipse mask forehead_center forehead_size 0 180
  else if String.eqb shape "precise" then
    cv2_fillPoly mask (face_outline x y w h)
  else Ok mask.

(** The loop [for ... in self.tracked_faces] of [create_face_mask]: the
    first face that makes OpenCV raise ends it. *)
Fixpoint draw_faces (shape : string) (mask : Mask) (tracked : list FaceTrack)
    : outcome Mask :=
  match tracked with
  | [] => Ok mask
  | f :: rest =>
      do mask <- draw_face shape mask f;
      draw_faces shape mask rest
  end.

(** [create_face_mask(self, frame)]: the frame is read for its shape only. *)
Definition create_face_mask (cfg : Config) (tracked : list FaceTrack)
    (frame : Frame) : outcome Mask :=
  draw_faces (mask_shape cfg) (zeros (height frame) (width frame)) tracked.

(** A shape with at least seven fields is skipped outside
    [shape[5] .. shape[6]]; a shorter one is never skipped. *)
Definition shape_skipped (idx : Z) (s : Shape) : bool :=
  if 7 <=? shape_len s then
    match frame_fields s with
    | lo :: hi :: _ => (idx <? lo) || (hi <? idx)
    | _ => false
    end
  else false.

(** The mask of one manual shape on a [h] by [w] canvas. *)
Definition shape_mask (h w : Z) (s : Shape) : outcome Mask :=
  let shape_mask := zeros h w in
  if String.eqb (shape_type s) "rectangle" then
    match points s with
    | (x1, y1) :: (x2, y2) :: _ =>
        let x_min := x1 `min` x2 in
        let x_max := x1 `max` x2 in
        let y_min := y1 `min` y2 in
        let y_max := y1 `max` y2 in
        Ok (cv2_rectangle shape_mask (x_min, y_min) (x_max, y_max) 255)
    | _ => Raise IndexError
    end
  else if String.eqb (shape_type s) "polygon"
          || String.eqb (shape_type s) "freehand" then
    cv2_fillPoly shape_mask (points s)
  else Ok shape_mask.

(** The loop [for shape in self.shapes] of both paths; [idx] is the frame
    index the loop tests ranges against, [h] and [w] size the masks. *)
Fixpoint apply_shapes (h w idx : Z) (l : list Shape) (result : Frame)
    : outcome Frame :=
  match l with
  | [] => Ok result
  | s :: rest =>
      if shape_skipped idx s then apply_shapes h w idx rest result
      else
        do m <- shape_mask h w s;
        do r <- apply_mask_effect result m (shape_mask_type s) (strength s) (color s);
        apply_shapes h w idx rest r
  end.

Definition crop_ready (cfg : Config) : bool :=
  crop_enabled cfg && (0 <? crop_width cfg) && (0 <? crop_height cfg).

(** When detection is due: [counter % self.detection_frequency == 0 or not
    self.tracked_faces]. *)
Definition detection_due (cfg : Config) (counter : Z) (s : Session) : bool :=
  (counter `mod` detection_frequency cfg =? 0)
  || bool_decide (tracked_faces s = []).

Definition refresh_faces (cfg : Config) (counter : Z) (s : Session)
    (frame : Frame) : Session :=
  if detection_due cfg counter s then
    let '(faces, d) := detect_faces cfg (det s) frame in
    mkSession faces d
  else s.

(** "Apply crop preview if enabled": the last stage of [process_frame].
    Only the mask crop is previewed, whatever the crop's frame range. *)
Definition preview_crop (cfg : Config) (frame result : Frame) : outcome Frame :=
  if crop_ready cfg then
    if String.eqb (crop_type cfg) "mask" then
      let crop_mask := full (height frame) (width frame) in
      let '(x, y) := (crop_x cfg, crop_y cfg) in
      let '(w, h) := (crop_width cfg, crop_height cfg) in
      let crop_mask := assign_slice2 crop_mask y h x w 0 in
      apply_mask_effect result crop_mask (crop_mask_type cfg)
        (blur_strength cfg) (mask_color cfg)
    else Ok result
  else Ok result.

(** [process_frame(self, frame)]: the preview path.  The first component is
    the session after the call (the assignment to [self.tracked_faces]
    happens before anything can raise), the second the returned frame. *)
Definition process_frame (cfg : Config) (s : Session) (frame : Frame)
    : Session * outcome Frame :=
  let result := frame in
  let result :=
    if rotation_enabled cfg && negb (rotation_angle cfg =? 0)
    then rotate_frame result (rotation_angle cfg) else result in
  let '(s, faced) :=
    if auto_detect_faces cfg && rtmpose_initialized cfg then
      let s := refresh_faces cfg (frame_index cfg) s frame in
      if bool_decide (tracked_faces s = []) then (s, Ok result)
      else
        (s,
         do face_mask <- create_face_mask cfg (tracked_faces s) frame;
         apply_mask_effect result face_mask (mask_type cfg)
           (blur_strength cfg) (mask_color cfg))
    else (s, Ok result) in
  (s,
   do result <- faced;
   do result <- apply_shapes (height frame) (width frame) (frame_index cfg)
                  (shapes cfg) result;
   preview_crop cfg frame result).

End Compositor.

(** The shapes counted as active in the status line of
    [show_current_frame]:
    [len(s) < 7 or (s[5] <= self.frame_index <= s[6])]. *)
Definition shape_counted (idx : Z) (s : Shape) : bool :=
  (shape_len s <? 7)
  || match frame_fields s with
     | lo :: hi :: _ => (lo <=? idx) && (idx <=? hi)
     | _ => false
     end.

Definition active_shapes (cfg : Config) : Z :=
  Z.of_nat (length (List.filter (shape_counted (frame_index cfg)) (shapes cfg))).

(** ** Paths

    [os.path] as on POSIX, over the byte strings of Rocq. *)

Module Path.

(** [p.rfind(c)], [-1] when [c] does not occur. *)
Fixpoint rfind_from (c : ascii) (l : list ascii) (i best : Z) : Z :=
  match l with
  | [] => best
  | a :: l' => rfind_from c l' (i + 1) (if Ascii.eqb a c then i else best)
  end.

Definition rfind (c : ascii) (l : list ascii) : Z := rfind_from c l 0 (-1).

Definition of_chars (l : list ascii) : string := String.string_of_list_ascii l.
Definition chars (s : string) : list ascii := String.list_ascii_of_string s.

(** [os.path.splitext(p)]: the extension starts at the last dot of the last
    component, unless only dots precede it there. *)
Definition splitext (p : string) : string * string :=
  let l := chars p in
  let sepIndex := rfind "/"%char l in
  let dotIndex := rfind "."%char l in
  if sepIndex <? dotIndex then
    let before := drop (Z.to_nat (sepIndex + 1)) (take (Z.to_nat dotIndex) l) in
    if existsb (λ c, negb (Ascii.eqb c "."%char)) before
    then (of_chars (take (Z.to_nat dotIndex) l), of_chars (drop (Z.to_nat dotIndex) l))
    else (p, EmptyString)
  else (p, EmptyString).

(** [os.path.basename(p)] *)
Definition basename (p : string) : string :=
  let l := chars p in
  of_chars (drop (Z.to_nat (rfind "/"%char l + 1)) l).

(** [os.path.join(a, b)] *)
Definition join (a b : string) : string :=
  match chars b with
  | "/"%char :: _ => b
  | _ =>
      match last (chars a) with
      | None | Some "/"%char => a +:+ b
      | Some _ => a +:+ String "/"%char b
      end
  end.

(** [s.lower()] on ASCII letters. *)
Definition lower_char (c : ascii) : ascii :=
  let n := N_of_ascii c in
  if ((65 <=? n) && (n <=? 90))%N then ascii_of_N (n + 32) else c.

Definition lower (s : string) : string := of_chars (map lower_char (chars s)).

End Path.

(** ** The encoder *)

(** What the run observes of [cv2.VideoWriter]: whether a writer constructed
    for a path, a FOURCC code and a frame size reports [isOpened()], and
    whether [write] raises on a frame.  The frame rate is a float handed
    through to OpenCV and plays no part here. *)
Class Encoder : Type := {
  opens : string → string → Z → Z → bool;
  write_raises : Frame → bool
}.

Record Writer : Type := mkWriter {
  fourcc : string;
  isOpened : bool
}.

(** ** The canvas *)

(** What the preview observes of the Tk canvas: whether putting a composited
    frame on it raises.  That step converts the frame to RGB, scales it to
    the canvas (a floating-point computation on the size of the canvas) and
    draws it, then the outlines of the shapes, of the tracked faces and of
    the crop region ([draw_overlays]) and the trim timeline. *)
Class Canvas : Type := {
  display_raises : Config → list FaceTrack → Frame → bool
}.

Section Exporting.
Context `{cv : OpenCV} `{ft : FaceTracker} `{enc : Encoder} `{cnv : Canvas}.

Definition VideoWriter (path codec : string) (w h : Z) : Writer :=
  mkWriter codec (opens path codec w h).

(** The [codec_map.get(ext, 'avc1')] of [get_video_writer]. *)
Definition codec_map (ext : string) : string :=
  if String.eqb ext ".mp4" then "avc1"
  else if String.eqb ext ".avi" then "XVID"
  else if String.eqb ext ".mov" then "avc1"
  else if String.eqb ext ".mkv" then "XVID"
  else if String.eqb ext ".wmv" then "WMV2"
  else "avc1".

Definition fallback_codecs : list string := ["mp4v"; "XVID"; "avc1"; "H264"].

(** The fallback loop.  [tried] lists, oldest first, the codecs a writer has
    been constructed for so far; [out] is the last writer constructed. *)
Fixpoint try_fallbacks (path : string) (w h : Z) (fourcc_str : string)
    (codecs tried : list string) (out : Writer) : list string * Writer :=
  match codecs with
  | [] => (tried, out)
  | codec :: rest =>
      if String.eqb codec fourcc_str
      then try_fallbacks path w h fourcc_str rest tried out
      else
        let out := VideoWriter path codec w h in
        if isOpened out then (tried ++ [codec], out)
        else try_fallbacks path w h fourcc_str rest (tried ++ [codec]) out
  end.

(** [get_video_writer(self, output_path, width, height, fps)]: the codecs a
    writer was constructed for, in order, and the writer returned. *)
Definition get_video_writer (output_path : string) (w h : Z)
    : list string * Writer :=
  let ext := Path.lower (Path.splitext output_path).2 in
  let fourcc_str := codec_map ext in
  let out := VideoWriter output_path fourcc_str w h in
  if negb (isOpened out)
  then try_fallbacks output_path w h fourcc_str fallback_codecs [fourcc_str] out
  else ([fourcc_str], out).

(** *** Face telemetry: the [face_tracking_data] dictionary *)

(** One entry of [frames[str(idx)]["faces"]]. *)
Record FaceData : Type := mkFaceData {
  fd_face_id : Z;
  fd_bbox : list Z;
  fd_confidence : Q
}.

(** One entry of [faces[str(face_id)]]. *)
Record FaceRecord : Type := mkFaceRecord {
  fr_frames : list Z;
  fr_bbox : list Z;
  fr_confidence : Q
}.

Record Telemetry : Type := mkTelemetry {
  video_file : string;
  tel_frames : gmap string (list FaceData);
  tel_faces : gmap string FaceRecord
}.

(** [float(confidence) if confidence is not None else 0.0] *)
Definition conf_float (c : option Q) : Q :=
  match c with
  | Some q => q
  | None => 0%Q
  end.

(** [str(n)] of a Python integer. *)
Definition str (n : Z) : string := pretty n.

(** The body of [for face_id, (x, y, w, h), confidence, _ in
    self.tracked_faces]: one more entry of [frame_faces] and the update of
    [face_tracking_data["faces"]]. *)
Definition record_face (current_frame_idx : Z)
    (acc : list FaceData * gmap string FaceRecord) (f : FaceTrack)
    : list FaceData * gmap string FaceRecord :=
  let '(frame_faces, faces) := acc in
  let '(x, y, w, h) := bbox f in
  let face_data := mkFaceData (face_id f) [x; y; w; h] (conf_float (confidence f)) in
  let frame_faces := frame_faces ++ [face_data] in
  match faces !! str (face_id f) with
  | None =>
      (frame_faces,
       <[str (face_id f) :=
           mkFaceRecord [current_frame_idx] [x; y; w; h]
             (conf_float (confidence f))]> faces)
  | Some r =>
      (frame_faces,
       <[str (face_id f) :=
           mkFaceRecord (fr_frames r ++ [current_frame_idx]) [x; y; w; h]
             (fr_confidence r)]> faces)
  end.

(** "Store tracking data": the loop over the tracked faces, then
    [face_tracking_data["frames"][str(current_frame_idx)] = {"faces": ...}]. *)
Definition store_tracking (current_frame_idx : Z) (tracked : list FaceTrack)
    (t : Telemetry) : Telemetry :=
  let '(frame_faces, faces) :=
    foldl (record_face current_frame_idx) ([], tel_faces t) tracked in
  mkTelemetry (video_file t)
    (<[str current_frame_idx := frame_faces]> (tel_frames t))
    faces.

(** "Apply crop if enabled": the last stage of an export iteration. *)
Definition export_crop (cfg : Config) (width height current_frame_idx : Z)
    (result_frame : Frame) : outcome Frame :=
  if crop_ready cfg then
    let frame_in_crop_range :=
      if negb (crop_all_frames cfg)
      then (crop_start_frame cfg <=? current_frame_idx)
           && (current_frame_idx <=? crop_end_frame cfg)
      else true in
    if frame_in_crop_range then
      if String.eqb (crop_type cfg) "traditional" then
        let '(x, y) := (crop_x cfg, crop_y cfg) in
        let '(w, h) := (crop_width cfg, crop_height cfg) in
        let x := 0 `max` (x `min` (width - 1)) in
        let y := 0 `max` (y `min` (height - 1)) in
        let w := w `min` (width - x) in
        let h := h `min` (height - y) in
        Ok (slice2 result_frame y h x w)
      else
        let crop_mask := full height width in
        let '(x, y) := (crop_x cfg, crop_y cfg) in
        let '(w, h) := (crop_width cfg, crop_height cfg) in
        let x := 0 `max` (x `min` (width - 1)) in
        let y := 0 `max` (y `min` (height - 1)) in
        let w := w `min` (width - x) in
        let h := h `min` (height - y) in
        let crop_mask := assign_slice2 crop_mask y h x w 0 in
        apply_mask_effect result_frame crop_mask (crop_mask_type cfg)
          (blur_strength cfg) (mask_color cfg)
    else Ok result_frame
  else Ok result_frame.

(** *** One iteration of the export loop, from "Process frame - apply all
    effects" down to the crop; [width] and [height] are the capture's. *)
Definition export_frame (cfg : Config) (width height : Z)
    (current_frame_idx frame_count : Z) (s : Session) (t : Telemetry)
    (frame : Frame) : Session * Telemetry * outcome Frame :=
  let result_frame :=
    if rotation_enabled cfg && negb (rotation_angle cfg =? 0)
    then rotate_frame frame (rotation_angle cfg) else frame in
  let '(s, t, faced) :=
    if auto_detect_faces cfg && rtmpose_initialized cfg then
      let s := refresh_faces cfg frame_count s frame in
      if bool_decide (tracked_faces s = []) then (s, t, Ok result_frame)
      else
        let t := store_tracking current_frame_idx (tracked_faces s) t in
        (s, t,
         do face_mask <- create_face_mask cfg (tracked_faces s) frame;
         apply_mask_effect result_frame face_mask (mask_type cfg)
           (blur_strength cfg) (mask_color cfg))
    else (s, t, Ok result_frame) in
  (s, t,
   do result_frame <- faced;
   do result_frame <- apply_shapes height width current_frame_idx
                        (shapes cfg) result_frame;
   export_crop cfg width height current_frame_idx result_frame).

(** *** The export run *)

(** The opened capture: its frame size and what [cap.read()] returns at each
    position ([None] when [ret] is false).  The run seeks to [start_frame]
    and every successful read advances the position by one, in step with
    [current_frame_idx]. *)
Record Capture : Type := mkCapture {
  cap_width : Z;
  cap_height : Z;
  cap_read : Z → option Frame
}.

(** The loop variables and what the loop mutates.  [written] lists, oldest
    first, the frames handed to [out.write] without an exception. *)
Record Run : Type := mkRun {
  current_frame_idx : Z;
  frame_count : Z;
  errors : Z;
  written : list Frame;
  session : Session;
  telemetry : Telemetry
}.

(** How the [while] loop was left. *)
Inductive LoopExit : Type :=
  | Finished            (* [current_frame_idx > end_frame] *)
  | ReadFailed          (* [if not ret: break] *)
  | Raised (e : exn)    (* an exception left the loop body *)
  | Unfinished.         (* the iteration bound of the model ran out *)

(** [while current_frame_idx <= end_frame: ...], at most [fuel] tests of the
    loop condition. *)
Fixpoint export_loop (fuel : nat) (cfg : Config) (cap : Capture)
    (end_frame : Z) (r : Run) : Run * LoopExit :=
  match fuel with
  | O => (r, Unfinished)
  | S fuel =>
      if current_frame_idx r <=? end_frame then
        match cap_read cap (current_frame_idx r) with
        | None => (r, ReadFailed)
        | Some frame =>
            let '(s, t, composed) :=
              export_frame cfg (cap_width cap) (cap_height cap)
                (current_frame_idx r) (frame_count r) (session r)
                (telemetry r) frame in
            match composed with
            | Raise e =>
                (mkRun (current_frame_idx r) (frame_count r) (errors r)
                   (written r) s t, Raised e)
            | Ok result_frame =>
                let '(written, errors) :=
                  if write_raises result_frame
                  then (written r, errors r + 1)
                  else (written r ++ [result_frame], errors r) in
                export_loop fuel cfg cap end_frame
                  (mkRun (current_frame_idx r + 1) (frame_count r + 1)
                     errors written s t)
            end
        end
      else (r, Finished)
  end.

(** "Reset trackers" *)
Definition reset_trackers (cfg : Config) (d : det_state) : det_state :=
  let d := if rtmpose_initialized cfg then pose_reset d else d in
  if has_deepsort cfg then delete_all_tracks d else d.

(** "Determine frame range" *)
Definition frame_range (cfg : Config) : Z * Z :=
  if trim_enabled cfg then (trim_start_frame cfg, trim_end_frame cfg)
  else if negb (blur_entire_video cfg) then (start_frame cfg, end_frame cfg)
  else (0, total_frames cfg - 1).

(** "Determine output dimensions" *)
Definition output_size (cfg : Config) (cap : Capture) : Z * Z :=
  if crop_ready cfg && String.eqb (crop_type cfg) "traditional"
  then (crop_width cfg, crop_height cfg)
  else (cap_width cap, cap_height cap).

(** "Determine output filename" *)
Definition output_file (input out_dir : string) : string :=
  let input_filename := Path.basename input in
  let '(base_name, ext) := Path.splitext input_filename in
  let output_filename := "processed_" +:+ base_name +:+ ext in
  Path.join out_dir output_filename.

(** The values [self.status_text] is set to by [process_video] and by the
    redraw of the preview; the elapsed time printed in the two completion
    messages is left out. *)
Inductive Status : Type :=
  | PleaseSelect              (* "Please select input video and output path" *)
  | FailedToCreateOutput      (* "Failed to create output video. ..." *)
  | FaceDataSaved (json_path : string)
  | ErrorDuringProcessing (e : exn)
  | CompletedWithErrors (errors : Z) (output_path : string)
  | Completed (output_path : string)
  | FailedToReadFrame         (* "Failed to read frame" *)
  | FrameStatus (number total active faces : Z).
      (* "Frame {number}/{total} | Active shapes: {active} | Faces: {faces}" *)

(** What a call of [show_current_frame] did: the session it leaves
    ([self.tracked_faces] and the detector), the frame it read and stored in
    [self.current_frame] ([None] when the read failed; the attribute then
    keeps its value), the values [status_text] took, and the exception that
    left it, if any. *)
Record Shown : Type := mkShown {
  shown_session : Session;
  shown_frame : option Frame;
  shown_statuses : list Status;
  shown_raised : option exn
}.

(** [show_current_frame(self)] on an opened capture: seek to
    [self.frame_index], read, composite with [process_frame], put the
    result on the canvas and set the status line. *)
Definition show_current_frame (cfg : Config) (cap : Capture) (s : Session)
    : Shown :=
  match cap_read cap (frame_index cfg) with
  | None => mkShown s None [FailedToReadFrame] None
  | Some frame =>
      let '(s, processed) := process_frame cfg s frame in
      match processed with
      | Raise e => mkShown s (Some frame) [] (Some e)
      | Ok processed =>
          if display_raises cfg (tracked_faces s) processed
          then mkShown s (Some frame) [] (Some DisplayError)
          else
            mkShown s (Some frame)
              [FrameStatus (frame_index cfg + 1) (total_frames cfg)
                 (active_shapes cfg)
                 (Z.of_nat (length (tracked_faces s)))]
              None
      end
  end.

(** What a call of [process_video] did: the values [status_text] took, in
    order; the codecs a writer was constructed for; the loop state when the
    loop was left and how it was left; the JSON file written, if any;
    whether [out.release()] ran; and the redraw of the preview that ends the
    call, if the call got that far. *)
Record Report : Type := mkReport {
  statuses : list Status;
  codecs_tried : list string;
  final : option (Run * LoopExit);
  json_file : option (string * Telemetry);
  released : bool;
  redraw : option Shown
}.

(** [process_video(self)].  The progress window and the ETA arithmetic touch
    nothing else and are left out; writing the JSON file is taken to
    succeed.  The [finally] block ends with [self.frame_index = 0] and a
    redraw of the preview at that frame, on the tracks the loop left; an
    exception of the redraw leaves the call. *)
Definition process_video (cfg : Config) (cap : Capture) (s : Session) : Report :=
  match input_video cfg, output_path cfg with
  | Some input, Some out_dir =>
      let base_name := (Path.splitext (Path.basename input)).1 in
      let output_path := output_file input out_dir in
      let '(output_width, output_height) := output_size cfg cap in
      let '(tried, out) := get_video_writer output_path output_width output_height in
      if negb (isOpened out) then
        mkReport [FailedToCreateOutput] tried None None false None
      else
        let '(start_frame, end_frame) := frame_range cfg in
        let face_tracking_data := mkTelemetry input ∅ ∅ in
        let s := mkSession (tracked_faces s) (reset_trackers cfg (det s)) in
        let total_frames := end_frame - start_frame + 1 in
        let '(r, exit) :=
          export_loop (S (Z.to_nat total_frames)) cfg cap end_frame
            (mkRun start_frame 0 0 [] s face_tracking_data) in
        let '(saved, json) :=
          match exit with
          | Raised e => ([ErrorDuringProcessing e], None)
          | _ =>
              if auto_detect_faces cfg && rtmpose_initialized cfg
                 && negb (bool_decide (tel_faces (telemetry r) = ∅))
              then
                let json_path := Path.join out_dir (base_name +:+ "_faces.json") in
                ([FaceDataSaved json_path], Some (json_path, telemetry r))
              else ([], None)
          end in
        let done :=
          if 0 <? errors r then CompletedWithErrors (errors r) output_path
          else Completed output_path in
        let shown :=
          show_current_frame (with_frame_index cfg 0) cap (session r) in
        mkReport (saved ++ [done] ++ shown_statuses shown) tried
          (Some (r, exit)) json true (Some shown)
  | _, _ => mkReport [PleaseSelect] [] None None false None
  end.

End Exporting.

(** ** Authoring gestures *)

(** The drawing variables of the session. *)
Record Gesture : Type := mkGesture {
  drawing : bool;
  drawing_crop : bool;
  current_shape : list (Z * Z);
  current_shape_type : string;
  mask_type_var : string
}.

Definition with_shapes (cfg : Config) (l : list Shape) : Config :=
  mkConfig (input_video cfg) (output_path cfg) l (auto_detect_faces cfg)
    (rtmpose_initialized cfg) (has_deepsort cfg) (detection_frequency cfg)
    (frame_index cfg)
    (total_frames cfg) (blur_strength cfg) (mask_type cfg) (mask_shape cfg)
    (mask_color cfg) (blur_entire_video cfg) (start_frame cfg) (end_frame cfg)
    (crop_enabled cfg) (crop_x cfg) (crop_y cfg) (crop_width cfg)
    (crop_height cfg) (crop_type cfg) (crop_mask_type cfg)
    (crop_all_frames cfg) (crop_start_frame cfg) (crop_end_frame cfg)
    (rotation_angle cfg) (rotation_enabled cfg) (trim_enabled cfg)
    (trim_start_frame cfg) (trim_end_frame cfg).

Definition with_crop (cfg : Config) (enabled : bool) (x y w h : Z) : Config :=
  mkConfig (input_video cfg) (output_path cfg) (shapes cfg)
    (auto_detect_faces cfg) (rtmpose_initialized cfg) (has_deepsort cfg)
    (detection_frequency cfg) (frame_index cfg) (total_frames cfg) (blur_strength cfg) (mask_type cfg)
    (mask_shape cfg) (mask_color cfg) (blur_entire_video cfg) (start_frame cfg)
    (end_frame cfg) enabled x y w h (crop_type cfg) (crop_mask_type cfg)
    (crop_all_frames cfg) (crop_start_frame cfg) (crop_end_frame cfg)
    (rotation_angle cfg) (rotation_enabled cfg) (trim_enabled cfg)
    (trim_start_frame cfg) (trim_end_frame cfg).

(** The tuple appended by the gesture handlers:
    [(kind, self.current_shape, self.mask_type_var.get(), self.blur_strength,
      self.mask_color, self.frame_index, self.total_frames - 1)]. *)
Definition new_shape (cfg : Config) (g : Gesture) (kind : string)
    (pts : list (Z * Z)) : Shape :=
  mkShape kind pts (mask_type_var g) (blur_strength cfg) (mask_color cfg)
    [frame_index cfg; total_frames cfg - 1].

(** [on_mouse_up(self, event)].  [(px, py)] is the pointer position in image
    coordinates, what [canvas_to_img(event.x, event.y)] returns, and [img_h],
    [img_w] are [self.current_frame.shape[:2]].  The redraw of the list box
    and of the preview is not part of the state kept here. *)
Definition on_mouse_up (cfg : Config) (g : Gesture) (img_h img_w px py : Z)
    : Config * Gesture :=
  if negb (drawing g) && negb (drawing_crop g) then (cfg, g)
  else
    let x := 0 `max` (px `min` (img_w - 1)) in
    let y := 0 `max` (py `min` (img_h - 1)) in
    if drawing_crop g then
      let width := Z.abs (x - crop_x cfg) in
      let height := Z.abs (y - crop_y cfg) in
      let cx := if x <? crop_x cfg then x else crop_x cfg in
      let cy := if y <? crop_y cfg then y else crop_y cfg in
      (with_crop cfg true cx cy width height,
       mkGesture (drawing g) false (current_shape g) (current_shape_type g)
         (mask_type_var g))
    else if String.eqb (current_shape_type g) "rectangle" then
      let pts := current_shape g ++ [(x, y)] in
      (with_shapes cfg (shapes cfg ++ [new_shape cfg g "rectangle" pts]),
       mkGesture false (drawing_crop g) [] (current_shape_type g)
         (mask_type_var g))
    else if String.eqb (current_shape_type g) "freehand" then
      if 2 <? Z.of_nat (length (current_shape g)) then
        (with_shapes cfg
           (shapes cfg ++ [new_shape cfg g "freehand" (current_shape g)]),
         mkGesture false (drawing_crop g) [] (current_shape_type g)
           (mask_type_var g))
      else
        (cfg,
         mkGesture false (drawing_crop g) (current_shape g)
           (current_shape_type g) (mask_type_var g))
    else (cfg, g).

(** [on_double_click(self, event)] *)
Definition on_double_click (cfg : Config) (g : Gesture) : Config * Gesture :=
  if String.eqb (current_shape_type g) "polygon" && drawing g then
    if 3 <=? Z.of_nat (length (current_shape g)) then
      (with_shapes cfg
         (shapes cfg ++ [new_shape cfg g "polygon" (current_shape g)]),
       mkGesture false (drawing_crop g) [] (current_shape_type g)
         (mask_type_var g))
    else
      (cfg,
       mkGesture false (drawing_crop g) (current_shape g)
         (current_shape_type g) (mask_type_var g))
  else (cfg, g).

(** ** The other handlers of the authoring state

    As for the gestures, the redraw a handler ends with (the preview, the
    list box, the trim timeline) and the items it draws on the canvas are
    not part of the state kept here. *)

Definition with_blur_strength (cfg : Config) (v : Z) : Config :=
  mkConfig
    (input_video cfg) (output_path cfg) (shapes cfg) (auto_detect_faces cfg)
    (rtmpose_initialized cfg) (has_deepsort cfg) (detection_frequency cfg)
    (frame_index cfg) (total_frames cfg) v (mask_type cfg) (mask_shape cfg)
    (mask_color cfg) (blur_entire_video cfg) (start_frame cfg)
    (end_frame cfg) (crop_enabled cfg) (crop_x cfg) (crop_y cfg)
    (crop_width cfg) (crop_height cfg) (crop_type cfg) (crop_mask_type cfg)
    (crop_all_frames cfg) (crop_start_frame cfg) (crop_end_frame cfg)
    (rotation_angle cfg) (rotation_enabled cfg) (trim_enabled cfg)
    (trim_start_frame cfg) (trim_end_frame cfg).

Definition with_rotation (cfg : Config) (angle : Z) (enabled : bool) : Config :=
  mkConfig
    (input_video cfg) (output_path cfg) (shapes cfg) (auto_detect_faces cfg)
    (rtmpose_initialized cfg) (has_deepsort cfg) (detection_frequency cfg)
    (frame_index cfg) (total_frames cfg) (blur_strength cfg) (mask_type cfg)
    (mask_shape cfg) (mask_color cfg) (blur_entire_video cfg)
    (start_frame cfg) (end_frame cfg) (crop_enabled cfg) (crop_x cfg)
    (crop_y cfg) (crop_width cfg) (crop_height cfg) (crop_type cfg)
    (crop_mask_type cfg) (crop_all_frames cfg) (crop_start_frame cfg)
    (crop_end_frame cfg) angle enabled (trim_enabled cfg)
    (trim_start_frame cfg) (trim_end_frame cfg).

Definition with_trim (cfg : Config) (enabled : bool) (t0 t1 : Z) : Config :=
  mkConfig
    (input_video cfg) (output_path cfg) (shapes cfg) (auto_detect_faces cfg)
    (rtmpose_initialized cfg) (has_deepsort cfg) (detection_frequency cfg)
    (frame_index cfg) (total_frames cfg) (blur_strength cfg) (mask_type cfg)
    (mask_shape cfg) (mask_color cfg) (blur_entire_video cfg)
    (start_frame cfg) (end_frame cfg) (crop_enabled cfg) (crop_x cfg)
    (crop_y cfg) (crop_width cfg) (crop_height cfg) (crop_type cfg)
    (crop_mask_type cfg) (crop_all_frames cfg) (crop_start_frame cfg)
    (crop_end_frame cfg) (rotation_angle cfg) (rotation_enabled cfg) enabled
    t0 t1.

Definition with_auto_detect (cfg : Config) (b : bool) : Config :=
  mkConfig
    (input_video cfg) (output_path cfg) (shapes cfg) b
    (rtmpose_initialized cfg) (has_deepsort cfg) (detection_frequency cfg)
    (frame_index cfg) (total_frames cfg) (blur_strength cfg) (mask_type cfg)
    (mask_shape cfg) (mask_color cfg) (blur_entire_video cfg)
    (start_frame cfg) (end_frame cfg) (crop_enabled cfg) (crop_x cfg)
    (crop_y cfg) (crop_width cfg) (crop_height cfg) (crop_type cfg)
    (crop_mask_type cfg) (crop_all_frames cfg) (crop_start_frame cfg)
    (crop_end_frame cfg) (rotation_angle cfg) (rotation_enabled cfg)
    (trim_enabled cfg) (trim_start_frame cfg) (trim_end_frame cfg).

(** [toggle_face_detection(self)]; [checked] is [self.face_detect_var.get()].
    The second component is the variable of the check box after the call. *)
Definition toggle_face_detection (cfg : Config) (checked : bool)
    : Config * bool :=
  let cfg := with_auto_detect cfg checked in
  if auto_detect_faces cfg && negb (rtmpose_initialized cfg)
  then (with_auto_detect cfg false, false)
  else (cfg, checked).

(** [toggle_crop(self)].  [crop_enabled] is the variable of the check box,
    already switched when the handler runs. *)
Definition toggle_crop (cfg : Config) : Config :=
  if crop_enabled cfg then
    if (crop_width cfg <=? 0) || (crop_height cfg <=? 0)
    then with_crop cfg false (crop_x cfg) (crop_y cfg) (crop_width cfg)
           (crop_height cfg)
    else cfg
  else cfg.

(** [update_blur_strength(self)]; [value] is [self.blur_strength_var.get()].
    The second component is the variable after the call. *)
Definition update_blur_strength (cfg : Config) (value : Z) : Config * Z :=
  let value := if value `mod` 2 =? 0 then value + 1 else value in
  (with_blur_strength cfg value, value).

(** [set_rotation(self, angle)] *)
Definition set_rotation (cfg : Config) (angle : Z) : Config :=
  let current := rotation_angle cfg in
  let new_angle :=
    if bool_decide (angle ∈ [-90; 90]) then (current + angle) `mod` 360
    else angle in
  with_rotation cfg new_angle (negb (new_angle =? 0)).

(** The "Apply" button beside the angle entry:
    [self.set_rotation(self.rotation_angle.get())].  The entry edits
    [self.rotation_angle] itself (it is its [textvariable]), so the variable
    already holds the number [typed] when the handler reads it. *)
Definition apply_rotation (cfg : Config) (typed : Z) : Config :=
  set_rotation (with_rotation cfg typed (rotation_enabled cfg)) typed.

(** [toggle_trim(self)].  [trim_enabled] is the variable of the check box,
    already switched when the handler runs; [opened] is
    [self.cap is not None]. *)
Definition toggle_trim (cfg : Config) (opened : bool) : Config :=
  if trim_enabled cfg then
    if negb opened
    then with_trim cfg false (trim_start_frame cfg) (trim_end_frame cfg)
    else with_trim cfg true 0 (total_frames cfg - 1)
  else cfg.

(** Which handle of the trim timeline is held. *)
Record TrimHandles : Type := mkTrimHandles {
  dragging_start : bool;
  dragging_end : bool
}.

(** [on_trim_drag(self, event)].  [pos] is
    [int((event.x / width) * self.total_frames)], computed in floating point
    from the pointer position and the width of the timeline. *)
Definition on_trim_drag (cfg : Config) (d : TrimHandles) (pos : Z) : Config :=
  if negb (trim_enabled cfg) || negb (dragging_start d || dragging_end d)
  then cfg
  else
    let frame_pos := 0 `max` (pos `min` (total_frames cfg - 1)) in
    if dragging_start d then
      let frame_pos := frame_pos `min` (trim_end_frame cfg - 1) in
      with_trim cfg (trim_enabled cfg) frame_pos (trim_end_frame cfg)
    else if dragging_end d then
      let frame_pos := frame_pos `max` (trim_start_frame cfg + 1) in
      with_trim cfg (trim_enabled cfg) (trim_start_frame cfg) frame_pos
    else cfg.

(** [on_slider_change(self, event)] outside a redraw ([updating_slider] is
    false); [frame_num] is [int(float(self.frame_slider.get()))] and
    [opened] is [self.cap is not None]. *)
Definition on_slider_change (cfg : Config) (opened : bool) (frame_num : Z)
    : Config :=
  if negb opened then cfg
  else if negb (frame_num =? frame_index cfg)
  then with_frame_index cfg (0 `max` (frame_num `min` (total_frames cfg - 1)))
  else cfg.

(** [next_frame(self)] *)
Definition next_frame (cfg : Config) (opened : bool) : Config :=
  if negb opened then cfg
  else if frame_index cfg <? total_frames cfg - 1
  then with_frame_index cfg (frame_index cfg + 1)
  else cfg.

(** [prev_frame(self)] *)
Definition prev_frame (cfg : Config) (opened : bool) : Config :=
  if negb opened then cfg
  else if 0 <? frame_index cfg
  then with_frame_index cfg (frame_index cfg - 1)
  else cfg.

(** [jump_frames(self, offset)] *)
Definition jump_frames (cfg : Config) (opened : bool) (offset : Z) : Config :=
  if negb opened then cfg
  else
    let new_frame :=
      0 `max` ((frame_index cfg + offset) `min` (total_frames cfg - 1)) in
    if negb (new_frame =? frame_index cfg)
    then with_frame_index cfg new_frame
    else cfg.

(** [on_shape_selected(self, event)]: the numbers written into the two
    frame range entries, if any.  [selection] is
    [self.shapes_listbox.curselection()]. *)
Definition on_shape_selected (cfg : Config) (selection : list nat)
    : option (Z * Z) :=
  match selection with
  | [] => None
  | idx :: _ =>
      match shapes cfg !! idx with
      | None => None
      | Some shape =>
          Some (if 7 <=? shape_len shape then
                  match frame_fields shape with
                  | lo :: hi :: _ => (lo, hi)
                  | _ => (0, total_frames cfg - 1)
                  end
                else (0, total_frames cfg - 1))
      end
  end.

(** The values [self.status_text] is set to by [set_shape_frame_range]. *)
Inductive RangeStatus : Type :=
  | NoShapeSelected             (* "No shape selected" *)
  | InvalidFrameNumbers         (* "Invalid frame numbers" *)
  | ShapeRangeSet (number first_frame last_frame : Z).

(** [set_shape_frame_range(self)].  An entry is given by what [int] makes of
    its text: [None] when [int] raises [ValueError]. *)
Definition set_shape_frame_range (cfg : Config) (selection : list nat)
    (start_entry end_entry : option Z) : Config * option RangeStatus :=
  match selection with
  | [] => (cfg, Some NoShapeSelected)
  | idx :: _ =>
      match shapes cfg !! idx with
      | None => (cfg, None)
      | Some shape =>
          match start_entry, end_entry with
          | Some start, Some end_ =>
              let start := 0 `max` (start `min` (total_frames cfg - 1)) in
              let end_ := start `max` (end_ `min` (total_frames cfg - 1)) in
              let shape_list := frame_fields shape in
              let shape_list :=
                if shape_len shape <? 7
                then shape_list ++ [0; total_frames cfg - 1]
                else shape_list in
              let shape_list := <[0%nat := start]> shape_list in
              let shape_list := <[1%nat := end_]> shape_list in
              let shape :=
                mkShape (shape_type shape) (points shape)
                  (shape_mask_type shape) (strength shape) (color shape)
                  shape_list in
              (with_shapes cfg (<[idx := shape]> (shapes cfg)),
               Some (ShapeRangeSet (Z.of_nat idx + 1) start end_))
          | _, _ => (cfg, Some InvalidFrameNumbers)
          end
      end
  end.

(** [delete_selected_shape(self)] *)
Definition delete_selected_shape (cfg : Config) (selection : list nat)
    : Config :=
  match selection with
  | [] => cfg
  | idx :: _ =>
      if bool_decide (idx < length (shapes cfg))%nat
      then with_shapes cfg (delete idx (shapes cfg))
      else cfg
  end.

(** [clear_shapes(self)] *)
Definition clear_shapes (cfg : Config) : Config := with_shapes cfg [].

(** [set_drawing_mode(self, mode)] *)
Definition set_drawing_mode (g : Gesture) (mode : string) : Gesture :=
  mkGesture (drawing g) (drawing_crop g) (current_shape g) mode
    (mask_type_var g).

(** [start_crop_drawing(self)]; [loaded] is
    [self.current_frame is not None]. *)
Definition start_crop_drawing (cfg : Config) (g : Gesture) (loaded : bool)
    : Config * Gesture :=
  if negb loaded then (cfg, g)
  else
    (with_crop cfg (crop_enabled cfg) 0 0 0 0,
     mkGesture (drawing g) true (current_shape g) (current_shape_type g)
       (mask_type_var g)).

(** [reset_crop(self)] *)
Definition reset_crop (cfg : Config) : Config := with_crop cfg false 0 0 0 0.

(** [on_mouse_down(self, event)].  [current_frame] is the shape
    [(img_h, img_w)] of [self.current_frame], [None] when no frame is loaded;
    [(px, py)] is what [canvas_to_img(event.x, event.y)] returns.  The third
    component tells whether reading [self.current_shape[-2]] raised. *)
Definition on_mouse_down (cfg : Config) (g : Gesture)
    (current_frame : option (Z * Z)) (px py : Z)
    : Config * Gesture * outcome unit :=
  match current_frame with
  | None => (cfg, g, Ok tt)
  | Some (img_h, img_w) =>
      let '(x, y) := (px, py) in
      if (x <? 0) || (img_w <=? x) || (y <? 0) || (img_h <=? y)
      then (cfg, g, Ok tt)
      else if drawing_crop g then
        (with_crop cfg (crop_enabled cfg) x y (crop_width cfg) (crop_height cfg),
         g, Ok tt)
      else if String.eqb (current_shape_type g) "rectangle" then
        (cfg,
         mkGesture true (drawing_crop g) [(x, y)] (current_shape_type g)
           (mask_type_var g),
         Ok tt)
      else if String.eqb (current_shape_type g) "polygon" then
        if negb (drawing g) then
          (cfg,
           mkGesture true (drawing_crop g) [(x, y)] (current_shape_type g)
             (mask_type_var g),
           Ok tt)
        else
          let pts := current_shape g ++ [(x, y)] in
          (cfg,
           mkGesture (drawing g) (drawing_crop g) pts (current_shape_type g)
             (mask_type_var g),
           if 2 <=? Z.of_nat (length pts) then Ok tt else Raise IndexError)
      else if String.eqb (current_shape_type g) "freehand" then
        (cfg,
         mkGesture true (drawing_crop g) [(x, y)] (current_shape_type g)
           (mask_type_var g),
         Ok tt)
      else (cfg, g, Ok tt)
  end.

(** [on_mouse_move(self, event)], with [img_h], [img_w], [px], [py] as for
    [on_mouse_up].  The second component tells whether reading
    [self.current_shape[0]] or [self.current_shape[-2]] raised. *)
Definition on_mouse_move (g : Gesture) (img_h img_w px py : Z)
    : Gesture * outcome unit :=
  if negb (drawing g) && negb (drawing_crop g) then (g, Ok tt)
  else
    let x := 0 `max` (px `min` (img_w - 1)) in
    let y := 0 `max` (py `min` (img_h - 1)) in
    if drawing_crop g then (g, Ok tt)
    else if String.eqb (current_shape_type g) "rectangle" then
      (g,
       match current_shape g with
       | [] => Raise IndexError
       | _ :: _ => Ok tt
       end)
    else if String.eqb (current_shape_type g) "freehand" then
      let pts := current_shape g ++ [(x, y)] in
      (mkGesture (drawing g) (drawing_crop g) pts (current_shape_type g)
         (mask_type_var g),
       if 2 <=? Z.of_nat (length pts) then Ok tt else Raise IndexError)
    else (g, Ok tt).

Section FaceHandlers.
Context `{cv : OpenCV} `{ft : FaceTracker} `{cnv : Canvas}.

(** The 36 points of the polygon [detect_faces_current_frame] appends for
    the mask shape [oval]. *)
Definition oval_points (x y w h : Z) : list (Z * Z) :=
  let '(center_x, center_y) := (x + w `div` 2, y + h `div` 2) in
  let '(rx, ry) := (w `div` 2, h `div` 2) in
  map (λ angle, (center_x + int_cos rx angle, center_y + int_sin ry angle))
      (range10 0 360).

(** One iteration of the loop of [detect_faces_current_frame]. *)
Definition add_face_shape (g : Gesture) (cfg : Config) (f : FaceTrack)
    : Config :=
  let '(x, y, w, h) := bbox f in
  if String.eqb (mask_shape cfg) "rectangle" then
    with_shapes cfg
      (shapes cfg ++ [new_shape cfg g "rectangle" [(x, y); (x + w, y + h)]])
  else if String.eqb (mask_shape cfg) "oval" then
    with_shapes cfg
      (shapes cfg ++ [new_shape cfg g "polygon" (oval_points x y w h)])
  else if String.eqb (mask_shape cfg) "precise" then
    with_shapes cfg
      (shapes cfg ++ [new_shape cfg g "polygon" (face_outline x y w h)])
  else cfg.

(** [detect_faces_current_frame(self)], redraw included: the authoring
    state after the call, what the redraw of the preview did (the session it
    leaves is the session after the call), and the number of faces reported
    in the last status, "Added ... detected faces as shapes", which is set
    when the redraw has returned.  [current_frame] is [self.current_frame];
    the handler itself does not assign [self.tracked_faces], the redraw
    does when face detection is switched on. *)
Definition detect_faces_current_frame (cfg : Config) (g : Gesture)
    (s : Session) (cap : Capture) (current_frame : option Frame)
    : Config * Shown * option Z :=
  match current_frame with
  | None => (cfg, mkShown s None [] None, None)
  | Some frame =>
      let '(faces, d) := detect_faces cfg (det s) frame in
      let cfg := foldl (add_face_shape g) cfg faces in
      let shown := show_current_frame cfg cap (mkSession (tracked_faces s) d) in
      (cfg, shown,
       match shown_raised shown with
       | Some _ => None
       | None => Some (Z.of_nat (length faces))
       end)
  end.

(** [open_video(self)], redraw included.  [video_path] is what the file
    dialog returned (the empty string when it was cancelled); [capture] is
    the capture [cv2.VideoCapture(video_path)] with its
    [int(cap.get(cv2.CAP_PROP_FRAME_COUNT))], [None] when it did not open.
    The second component is what the redraw of the first frame did; the
    session it leaves is the session after the call.  The statuses "Failed
    to open video file" and "Opened video: ..." are not kept. *)
Definition open_video (cfg : Config) (s : Session) (video_path : string)
    (capture : option (Capture * Z)) : Config * Shown :=
  if String.eqb video_path "" then (cfg, mkShown s None [] None)
  else
    match capture with
    | None => (cfg, mkShown s None [] None)
    | Some (cap, n) =>
      let cfg' :=
        mkConfig
        (Some video_path) (output_path cfg) [] (auto_detect_faces cfg)
        (rtmpose_initialized cfg) (has_deepsort cfg)
        (detection_frequency cfg) 0 n (blur_strength cfg) (mask_type cfg)
        (mask_shape cfg) (mask_color cfg) (blur_entire_video cfg) 0 (n - 1)
        false 0 0 0 0 (crop_type cfg) (crop_mask_type cfg)
        (crop_all_frames cfg) 0 (n - 1) 0 false false 0 (n - 1) in
      (cfg',
       show_current_frame cfg' cap (mkSession [] (reset_trackers cfg (det s))))
    end.

End FaceHandlers.

(** One entry of the [faces] dictionary of [export_face_data]. *)
Record FaceSnapshot : Type := mkFaceSnapshot {
  snap_bbox : list Z;
  snap_confidence : Q;
  snap_frame : Z
}.

Definition snapshot (f : FaceTrack) : FaceSnapshot :=
  let '(x, y, w, h) := bbox f in
  mkFaceSnapshot [x; y; w; h] (conf_float (confidence f)) (seen_at f).

(** [export_face_data(self)] on [self.tracked_faces = tracked]: the path of
    the JSON file and what is dumped into it ([video_file] and [faces]),
    [None] when the status is "No faces to export". *)
Definition export_face_data (cfg : Config) (tracked : list FaceTrack)
    : option (string * (string * gmap string FaceSnapshot)) :=
  match tracked, input_video cfg with
  | [], _ | _, None => None
  | _ :: _, Some input =>
      let input_filename := Path.basename input in
      let base_name := (Path.splitext input_filename).1 in
      let faces :=
        foldl (λ faces f, <[str (face_id f) := snapshot f]> faces)
              ∅ tracked in
      let json_path :=
        match output_path cfg with
        | Some out_dir =>
            if String.eqb out_dir "" then base_name +:+ "_faces.json"
            else Path.join out_dir (base_name +:+ "_faces.json")
        | None => base_name +:+ "_faces.json"
        end in
      Some (json_path, (input, faces))
  end.

(** * Preconditions and observations

    The conditions under which the theorems below are stated, and what they
    read off a run. *)

(** What OpenCV asks of the arguments [apply_mask_effect] hands it on a
    [h] by [w] frame: a positive kernel for [blur] (the code makes it odd),
    a non-empty down-sampled size for [pixelate]. *)
Definition effect_ready (h w : Z) (mask_type : string) (strength : Z) : bool :=
  if String.eqb mask_type "blur" then
    (0 <? (if strength `mod` 2 =? 0 then strength + 1 else strength))
    && (0 <? h) && (0 <? w)
  else if String.eqb mask_type "pixelate" then
    (0 <? w `div` (1 `max` (strength `div` 10)))
    && (0 <? h `div` (1 `max` (strength `div` 10)))
  else true.

(** A rectangle needs its two corners, a polygon or freehand outline at
    least one point, and every effect arguments OpenCV accepts on the frame
    size of the capture. *)
Definition shape_ready (h w : Z) (s : Shape) : bool :=
  (negb (String.eqb (shape_type s) "rectangle")
   || (2 <=? Z.of_nat (length (points s))))
  && (negb (String.eqb (shape_type s) "polygon"
            || String.eqb (shape_type s) "freehand")
      || (1 <=? Z.of_nat (length (points s))))
  && effect_ready h w (shape_mask_type s) (strength s).

(** What [cv2.ellipse] asks of a track drawn with the mask shape [oval]:
    the two axes [w // 2] and [h // 2] are not negative.  The other mask
    shapes draw every track. *)
Definition face_ready (shape : string) (f : FaceTrack) : bool :=
  negb (String.eqb shape "oval")
  || (let '(x, y, w, h) := bbox f in (0 <=? w `div` 2) && (0 <=? h `div` 2)).

Definition config_ready (h w : Z) (cfg : Config) : bool :=
  forallb (shape_ready h w) (shapes cfg)
  && (negb (auto_detect_faces cfg && rtmpose_initialized cfg)
      || effect_ready h w (mask_type cfg) (blur_strength cfg))
  && (negb (crop_ready cfg)
      || effect_ready h w (crop_mask_type cfg) (blur_strength cfg)).

(** The same state with the rotation switch off. *)
Definition rotation_off (cfg : Config) : Config :=
  with_rotation cfg (rotation_angle cfg) false.

(** A status that reports a failure. *)
Definition is_failure_notice (st : Status) : bool :=
  match st with
  | PleaseSelect | FailedToCreateOutput | ErrorDuringProcessing _
  | FailedToReadFrame => true
  | FaceDataSaved _ | CompletedWithErrors _ _ | Completed _
  | FrameStatus _ _ _ _ => false
  end.

(** When the crop stages of the two paths do the same to the frame at
    [self.frame_index]: no crop region in effect; or a mask crop whose
    activation range holds the frame and whose origin lies inside the frame;
    or any other crop type with the frame outside the activation range. *)
Definition crop_stage_agrees (cfg : Config) (frame : Frame) : bool :=
  negb (crop_ready cfg)
  || (let in_range :=
        crop_all_frames cfg
        || ((crop_start_frame cfg <=? frame_index cfg)
            && (frame_index cfg <=? crop_end_frame cfg)) in
      if String.eqb (crop_type cfg) "mask" then
        in_range
        && (0 <=? crop_x cfg) && (crop_x cfg <? width frame)
        && (0 <=? crop_y cfg) && (crop_y cfg <? height frame)
      else negb in_range).

(** What a handler may do to the shape list: nothing, or append the 7-field
    tuple ranging from the current frame to the last frame of the video. *)
Definition appends_ranged_shape (cfg cfg' : Config) : Prop :=
  shapes cfg' = shapes cfg
  ∨ ∃ kind pts mt,
      shapes cfg'
      = shapes cfg
        ++ [mkShape kind pts mt (blur_strength cfg) (mask_color cfg)
              [frame_index cfg; total_frames cfg - 1]].

(** Whether pixel [(i, j)] lies in the box of a track, corners included, as
    [cv2.rectangle(mask, (x, y), (x+w, y+h), 255, -1)] fills it. *)
Definition in_face_box (f : FaceTrack) (i j : nat) : bool :=
  let '(x, y, w, h) := bbox f in in_rect (x, y) (x + w, y + h) i j.

(** The [face_data] dictionary the export run builds for one track. *)
Definition face_data (f : FaceTrack) : FaceData :=
  let '(x, y, w, h) := bbox f in
  mkFaceData (face_id f) [x; y; w; h] (conf_float (confidence f)).

(** The crop origin after the export run has clamped it into a frame of
    [n] columns (or rows). *)
Definition clamped_origin (n : Z) (x : Z) : Z := 0 `max` (x `min` (n - 1)).

(** A point of an image of [img_h] rows and [img_w] columns. *)
Definition in_image (img_h img_w : Z) (p : Z * Z) : Prop :=
  0 ≤ p.1 < img_w ∧ 0 ≤ p.2 < img_h.

(** A shape the compositor can draw: its points lie in the image, a
    rectangle has its two corners, a polygon or freehand outline at least
    three points. *)
Definition well_drawn (img_h img_w : Z) (s : Shape) : Prop :=
  Forall (in_image img_h img_w) (points s)
  ∧ (shape_type s = "rectangle" → (2 ≤ length (points s))%nat)
  ∧ (shape_type s = "polygon" ∨ shape_type s = "freehand" →
     (3 ≤ length (points s))%nat).

(** The crop region lies in the image, short of its last row and column. *)
Definition crop_region_inside (img_h img_w : Z) (cfg : Config) : Prop :=
  (0 ≤ crop_x cfg ∧ 0 ≤ crop_width cfg
   ∧ crop_x cfg + crop_width cfg ≤ img_w - 1)
  ∧ (0 ≤ crop_y cfg ∧ 0 ≤ crop_height cfg
     ∧ crop_y cfg + crop_height cfg ≤ img_h - 1).

(** The states the drawing handlers keep to: a shape in progress has a
    first point and lies in the image, the shapes drawn so far are well
    drawn, the crop region is inside the image and empty while a new one is
    being drawn.  The state of a session that has just loaded a frame is
    one of them. *)
Definition authoring_ok (img_h img_w : Z) (cfg : Config) (g : Gesture) : Prop :=
  Forall (in_image img_h img_w) (current_shape g)
  ∧ (drawing g = true → current_shape g ≠ [])
  ∧ Forall (well_drawn img_h img_w) (shapes cfg)
  ∧ crop_region_inside img_h img_w cfg
  ∧ (drawing_crop g = true → crop_width cfg = 0 ∧ crop_height cfg = 0).

(** The events of the drawing canvas and of the buttons beside it. *)
Inductive Event : Type :=
  | MouseDown (px py : Z)
  | MouseMove (px py : Z)
  | MouseUp (px py : Z)
  | DoubleClick
  | SetDrawingMode (mode : string)
  | SelectMaskType (m : string)     (* the combo box of [mask_type_var] *)
  | StartCropDrawing
  | ResetCrop.

(** The handler bound to an event, on a loaded frame of [img_h] rows and
    [img_w] columns. *)
Definition handle (img_h img_w : Z) (st : Config * Gesture) (ev : Event)
    : Config * Gesture * outcome unit :=
  let '(cfg, g) := st in
  match ev with
  | MouseDown px py => on_mouse_down cfg g (Some (img_h, img_w)) px py
  | MouseMove px py =>
      let '(g, o) := on_mouse_move g img_h img_w px py in (cfg, g, o)
  | MouseUp px py => (on_mouse_up cfg g img_h img_w px py, Ok tt)
  | DoubleClick => (on_double_click cfg g, Ok tt)
  | SetDrawingMode mode => (cfg, set_drawing_mode g mode, Ok tt)
  | SelectMaskType m =>
      (cfg,
       mkGesture (drawing g) (drawing_crop g) (current_shape g)
         (current_shape_type g) m,
       Ok tt)
  | StartCropDrawing => (start_crop_drawing cfg g true, Ok tt)
  | ResetCrop => (reset_crop cfg, g, Ok tt)
  end.

(** A sequence of events; Tk reports the exception of a handler and goes on
    with the next event.  The last component lists the exceptions raised. *)
Fixpoint handle_all (img_h img_w : Z) (st : Config * Gesture)
    (evs : list Event) : Config * Gesture * list exn :=
  match evs with
  | [] => (st, [])
  | ev :: evs =>
      let '(st, o) := handle img_h img_w st ev in
      let '(st, raised) := handle_all img_h img_w st evs in
      (st, match o with Raise e => e :: raised | Ok _ => raised end)
  end.

(** The settings of the automatic face stage are those of [cfg]. *)
Definition same_face_settings (cfg cfg' : Config) : Prop :=
  mask_shape cfg' = mask_shape cfg ∧ mask_type cfg' = mask_type cfg.

(** The trim range is a range of at least two frames of the video. *)
Definition trim_ordered (cfg : Config) : Prop :=
  0 ≤ trim_start_frame cfg
  ∧ trim_start_frame cfg < trim_end_frame cfg
  ∧ trim_end_frame cfg ≤ total_frames cfg - 1.

(** The frame navigation controls, on an opened video. *)
Inductive Navigation : Type :=
  | GoNext
  | GoPrev
  | Jump (offset : Z)
  | Slide (frame_num : Z).

Definition navigate (cfg : Config) (nav : Navigation) : Config :=
  match nav with
  | GoNext => next_frame cfg true
  | GoPrev => prev_frame cfg true
  | Jump offset => jump_frames cfg true offset
  | Slide frame_num => on_slider_change cfg true frame_num
  end.

Section Started.
Context `{cv : OpenCV} `{ft : FaceTracker} `{enc : Encoder} `{cnv : Canvas}.

(** When face detection is switched on, the detector reports only tracks
    the face stage can draw. *)
Definition detector_ready (cfg : Config) : Prop :=
  auto_detect_faces cfg && rtmpose_initialized cfg = true →
  ∀ d idx frame,
    forallb (face_ready (mask_shape cfg)) (pose_and_track d idx frame).1 = true.

(** The redraw that ends a run of [process_video] left at [r]. *)
Definition final_redraw (cfg : Config) (cap : Capture) (r : Run) : Shown :=
  show_current_frame (with_frame_index cfg 0) cap (session r).

(** The loop as [process_video] starts it. *)
Definition started_loop (cfg : Config) (cap : Capture) (s : Session)
    (input : string) : Run * LoopExit :=
  let '(start_frame, end_frame) := frame_range cfg in
  export_loop (S (Z.to_nat (end_frame - start_frame + 1))) cfg cap end_frame
    (mkRun start_frame 0 0 []
       (mkSession (tracked_faces s) (reset_trackers cfg (det s)))
       (mkTelemetry input ∅ ∅)).

(** The completion status of the [finally] block. *)
Definition completion (r : Run) (output_path : string) : Status :=
  if 0 <? errors r then CompletedWithErrors (errors r) output_path
  else Completed output_path.

End Started.

(** * Concrete runs

    Stand-ins for the kernels, the detector and the encoder, to run the
    model on small inputs.  They satisfy the laws of the interfaces and are
    not a description of OpenCV, RTMPose or DeepSort. *)

Module Demo.

(** A stand-in blur: every channel halved.  The stand-in ellipse below
    fills the box around the ellipse, whatever the angles; the stand-in
    polygon fill draws nothing. *)
Definition halve (p : pixel) : pixel :=
  (p.1.1 `div` 2, p.1.2 `div` 2, p.2 `div` 2).

(** A stand-in resize: the top-left pixel everywhere. *)
Definition corner (f : Frame) : pixel := default black_px (at_ f 0 0).

Definition flat (f : Frame) (w h : Z) : Frame :=
  replicate (Z.to_nat h) (replicate (Z.to_nat w) (corner f)).

#[local] Obligation Tactic := idtac.

Program Definition cv : OpenCV := {|
  gaussian := λ f _, map (map halve) f;
  resize_linear := flat;
  resize_nearest := flat;
  warp_rotate := λ f _, map reverse f;
  ellipse := λ m c a _ _,
    cv2_rectangle m (c.1 - a.1, c.2 - a.2) (c.1 + a.1, c.2 + a.2) 255;
  fill_poly := λ m _, m;
  int_cos := λ _ _, 0;
  int_sin := λ _ _, 0;
  int_scale_06 := λ x, x;
  int_scale_045 := λ x, x;
  int_scale_05 := λ x, x
|}.
Next Obligation.
  intros h w f k [Hh Hw]. split; [by rewrite length_map|].
  apply Forall_fmap. eapply Forall_impl; [exact Hw|].
  intros r Hr. simpl. by rewrite length_map.
Qed.
Next Obligation.
  intros f w h. split; [apply length_replicate|].
  apply Forall_replicate, length_replicate.
Qed.
Next Obligation.
  intros f w h. split; [apply length_replicate|].
  apply Forall_replicate, length_replicate.
Qed.
Next Obligation.
  intros h w f a [Hh Hw]. split; [by rewrite length_map|].
  apply Forall_fmap. eapply Forall_impl; [exact Hw|].
  intros r Hr. simpl. by rewrite length_reverse.
Qed.
Next Obligation.
  intros h w m c a s e [Hh Hw]. unfold cv2_rectangle.
  split; [by rewrite length_imap|].
  apply Forall_forall. intros r Hr.
  apply list_elem_of_lookup in Hr as [i Hi].
  rewrite list_lookup_imap in Hi.
  destruct (m !! i) as [row|] eqn:Hrow; simpl in Hi; [|done].
  injection Hi as <-. rewrite length_imap.
  eapply (proj1 (Forall_forall _ _) Hw), list_elem_of_lookup_2, Hrow.
Qed.
Next Obligation. intros; assumption. Qed.

(** A stand-in detector.  Its state lists, oldest first, the frames it ran
    on, each frame named by the blue channel of its top-left pixel.  It
    always reports face 7, in a box that starts at the frame's name, with
    confidence 0.9 on its first run and 0.5 afterwards. *)
Definition tracker : FaceTracker := {|
  det_state := list Z;
  pose_and_track := λ d idx frame,
    let name := (corner frame).1.1 in
    ([mkFace 7 (name, 0, 1, 1)
        (Some (if bool_decide (d = []) then 9 # 10 else 1 # 2)%Q) idx],
     d ++ [name]);
  pose_reset := λ _, [];
  delete_all_tracks := λ d, d
|}.

(** A second stand-in detector: it reports face 1 at the single pixel of
    row 0 whose column is the blue channel of the top-left pixel of the
    frame it is handed. *)
Definition spotter : FaceTracker := {|
  det_state := list Z;
  pose_and_track := λ d idx frame,
    let name := (corner frame).1.1 in
    ([mkFace 1 (name, 0, 0, 0) (Some 1%Q) idx], d ++ [name]);
  pose_reset := λ _, [];
  delete_all_tracks := λ d, d
|}.

(** A canvas on which every frame can be shown. *)
Definition canvas : Canvas := {| display_raises := λ _ _ _, false |}.

(** Encoders: every codec opens; no codec opens; only [XVID] opens. *)
Definition enc_any : Encoder :=
  {| opens := λ _ _ _ _, true; write_raises := λ _, false |}.
Definition enc_none : Encoder :=
  {| opens := λ _ _ _ _, false; write_raises := λ _, false |}.
Definition enc_xvid : Encoder :=
  {| opens := λ _ codec _ _, String.eqb codec "XVID";
     write_raises := λ _, false |}.

(** The 2 by 2 frame number [i]: its blue channel is [i] throughout. *)
Definition frame_no (i : Z) : Frame :=
  [[(i, 10, 20); (i, 30, 40)]; [(i, 50, 60); (i, 70, 80)]].

(** A 100-frame capture, and one whose frame 1 cannot be read. *)
Definition video : Capture :=
  mkCapture 2 2 (λ i, if (0 <=? i) && (i <? 100) then Some (frame_no i) else None).
Definition damaged : Capture :=
  mkCapture 2 2
    (λ i, if (0 <=? i) && (i <? 100) && negb (i =? 1)
          then Some (frame_no i) else None).

(** An authoring state on [in/clip.mp4], output directory [out], preview at
    frame [at_frame], with the given shapes, face detection switch, crop
    switch and type (region [(0, 0, 1, 1)], all frames), rotation angle, and
    trim switch and range; the explicit process range is [30 .. 40] and
    "entire video" is [entire]. *)
Definition state (at_frame : Z) (l : list Shape) (auto crop : bool)
    (ctype : string) (angle : Z) (entire trim : bool) (t0 t1 : Z) : Config :=
  mkConfig (Some "in/clip.mp4") (Some "out") l auto true true 3 at_frame 100
    21 "black" "rectangle" (0, 0, 0) entire 30 40
    crop 0 0 1 1 ctype "black" true 0 0
    angle (negb (angle =? 0)) trim t0 t1.

(** The same state with the mask shape [oval], the one the program sets. *)
Definition oval_state (at_frame : Z) (l : list Shape) (auto crop : bool)
    (ctype : string) (angle : Z) (entire trim : bool) (t0 t1 : Z) : Config :=
  mkConfig (Some "in/clip.mp4") (Some "out") l auto true true 3 at_frame 100
    21 "black" "oval" (0, 0, 0) entire 30 40
    crop 0 0 1 1 ctype "black" true 0 0
    angle (negb (angle =? 0)) trim t0 t1.

Definition fresh : Session (ft := tracker) :=
  mkSession (ft := tracker) [] ([] : list Z).
Definition tracking : Session (ft := tracker) :=
  mkSession (ft := tracker) [mkFace 4 (1, 1, 1, 1) (Some 1%Q) 0] ([] : list Z).

Definition no_telemetry : Telemetry := mkTelemetry "in/clip.mp4" ∅ ∅.

(** A session of the second detector, before its first run. *)
Definition watching : Session (ft := spotter) :=
  mkSession (ft := spotter) [] ([] : list Z).

(** A 2 by 2 frame whose columns differ in the blue channel, so that a
    horizontal flip changes its top-left pixel. *)
Definition striped : Frame :=
  [[(0, 10, 20); (1, 30, 40)]; [(0, 50, 60); (1, 70, 80)]].

End Demo.

(** * Properties *)

(** ** The exception monad *)

Lemma rbind_ok {A B} (m : outcome A) (k : A → outcome B) (b : B) :
  rbind m k = Ok b → ∃ a, m = Ok a ∧ k a = Ok b.
Proof. destruct m as [a|e]; simpl; [eauto | discriminate]. Qed.

Ltac inv_ok :=
  repeat match goal with
  | H : rbind _ _ = Ok _ |- _ =>
      let a := fresh "a" in
      let Ha := fresh "Ha" in
      apply rbind_ok in H as (a & Ha & H)
  | H : Ok _ = Ok _ |- _ => injection H as H
  | H : Raise _ = Ok _ |- _ => discriminate H
  end.

(** ** Element-wise selection *)

Section Selection.

Lemma where_row_lookup m x y r :
  where_row m x y = Ok r →
  length r = length y ∧
  ∀ j c, m !! j = Some c →
    ∃ a b, x !! j = Some a ∧ y !! j = Some b ∧ r !! j = Some (choose c a b).
Proof.
  revert x y r. induction m as [|c0 m IH]; intros [|a0 x] [|b0 y] r H;
    simpl in H; try discriminate.
  - inv_ok. subst r. split; [done|]. intros j c Hj. by destruct j.
  - inv_ok. subst r. destruct (IH _ _ _ Ha) as [Hlen Hlk]. split.
    + simpl. by rewrite Hlen.
    + intros [|j] c Hj; simpl in *.
      * injection Hj as <-. eauto.
      * eauto.
Qed.

Lemma np_where_lookup m x y r :
  np_where m x y = Ok r →
  length r = length y ∧
  ∀ i mr, m !! i = Some mr →
    ∃ xr yr rr, x !! i = Some xr ∧ y !! i = Some yr ∧ r !! i = Some rr
                ∧ where_row mr xr yr = Ok rr.
Proof.
  revert x y r. induction m as [|mr0 m IH]; intros [|xr0 x] [|yr0 y] r H;
    simpl in H; try discriminate.
  - inv_ok. subst r. split; [done|]. intros i mr Hi. by destruct i.
  - inv_ok. subst r. destruct (IH _ _ _ Ha0) as [Hlen Hlk]. split.
    + simpl. by rewrite Hlen.
    + intros [|i] mr Hi; simpl in *.
      * injection Hi as <-. eauto 8.
      * eauto.
Qed.

Lemma where_row0_lookup m y r :
  where_row0 m y = Ok r →
  length r = length y ∧
  ∀ j c, m !! j = Some c →
    ∃ b, y !! j = Some b ∧ r !! j = Some (choose c black_px b).
Proof.
  revert y r. induction m as [|c0 m IH]; intros [|b0 y] r H;
    simpl in H; try discriminate.
  - inv_ok. subst r. split; [done|]. intros j c Hj. by destruct j.
  - inv_ok. subst r. destruct (IH _ _ Ha) as [Hlen Hlk]. split.
    + simpl. by rewrite Hlen.
    + intros [|j] c Hj; simpl in *.
      * injection Hj as <-. eauto.
      * eauto.
Qed.

Lemma np_where0_lookup m y r :
  np_where0 m y = Ok r →
  length r = length y ∧
  ∀ i mr, m !! i = Some mr →
    ∃ yr rr, y !! i = Some yr ∧ r !! i = Some rr ∧ where_row0 mr yr = Ok rr.
Proof.
  revert y r. induction m as [|mr0 m IH]; intros [|yr0 y] r H;
    simpl in H; try discriminate.
  - inv_ok. subst r. split; [done|]. intros i mr Hi. by destruct i.
  - inv_ok. subst r. destruct (IH _ _ Ha0) as [Hlen Hlk]. split.
    + simpl. by rewrite Hlen.
    + intros [|i] mr Hi; simpl in *.
      * injection Hi as <-. eauto 8.
      * eauto.
Qed.

Lemma choose_unselected c a b : c ≠ 255 → choose c a b = b.
Proof. intros Hc. unfold choose. by destruct (Z.eqb_spec c 255). Qed.

(** Where the mask is not 255, [np.where] returns the third operand. *)
Lemma np_where_unselected m x y r i j c :
  np_where m x y = Ok r → at_ m i j = Some c → c ≠ 255 →
  at_ r i j = at_ y i j.
Proof.
  intros H Hm Hc. unfold at_ in *.
  destruct (m !! i) as [mr|] eqn:Hi; simpl in Hm; try discriminate.
  destruct (np_where_lookup _ _ _ _ H) as [_ Hrow].
  destruct (Hrow _ _ Hi) as (xr & yr & rr & _ & Hy & Hr & Hw).
  rewrite Hy, Hr. simpl.
  destruct (where_row_lookup _ _ _ _ Hw) as [_ Hcol].
  destruct (Hcol _ _ Hm) as (a & b & _ & Hb & Hrj).
  by rewrite Hb, Hrj, choose_unselected.
Qed.

Lemma np_where0_unselected m y r i j c :
  np_where0 m y = Ok r → at_ m i j = Some c → c ≠ 255 →
  at_ r i j = at_ y i j.
Proof.
  intros H Hm Hc. unfold at_ in *.
  destruct (m !! i) as [mr|] eqn:Hi; simpl in Hm; try discriminate.
  destruct (np_where0_lookup _ _ _ H) as [_ Hrow].
  destruct (Hrow _ _ Hi) as (yr & rr & Hy & Hr & Hw).
  rewrite Hy, Hr. simpl.
  destruct (where_row0_lookup _ _ _ Hw) as [_ Hcol].
  destruct (Hcol _ _ Hm) as (b & Hb & Hrj).
  by rewrite Hb, Hrj, choose_unselected.
Qed.

End Selection.

(** ** Shapes of arrays *)

Section Shapes.

Lemma has_shape_height {A} h w (a : list (list A)) :
  has_shape h w a → height a = Z.of_nat h.
Proof. intros [<- _]. done. Qed.

Lemma has_shape_width {A} h w (a : list (list A)) :
  has_shape h w a → (0 < h)%nat → width a = Z.of_nat w.
Proof.
  intros [Hh Hw] Hpos. destruct a as [|r a]; simpl in *; [lia|].
  by apply Forall_cons in Hw as [-> _].
Qed.

Lemma has_shape_cons {A} h w (r : list A) (a : list (list A)) :
  has_shape (S h) w (r :: a) ↔ length r = w ∧ has_shape h w a.
Proof.
  unfold has_shape. simpl. rewrite Forall_cons. intuition lia.
Qed.

Lemma has_shape_nil_inv {A} w (a : list (list A)) :
  has_shape 0 w a → a = [].
Proof. intros [H _]. by destruct a. Qed.

Lemma where_row_total m x y :
  length m = length y → length x = length y →
  ∃ r, where_row m x y = Ok r.
Proof.
  revert m x. induction y as [|b y IH]; intros [|c m] [|a x] Hm Hx;
    simpl in *; try lia; [eauto|].
  destruct (IH m x) as [r ->]; [lia..|]. simpl. eauto.
Qed.

Lemma where_row0_total m y :
  length m = length y → ∃ r, where_row0 m y = Ok r.
Proof.
  revert m. induction y as [|b y IH]; intros [|c m] Hm;
    simpl in *; try lia; [eauto|].
  destruct (IH m) as [r ->]; [lia|]. simpl. eauto.
Qed.

Lemma np_where_total h w m x y :
  has_shape h w m → has_shape h w x → has_shape h w y →
  ∃ r, np_where m x y = Ok r ∧ has_shape h w r.
Proof.
  revert m x y. induction h as [|h IH]; intros m x y Hm Hx Hy.
  - apply has_shape_nil_inv in Hm, Hx, Hy. subst. exists []. by split.
  - destruct m as [|mr m]; [by destruct Hm|].
    destruct x as [|xr x]; [by destruct Hx|].
    destruct y as [|yr y]; [by destruct Hy|].
    apply has_shape_cons in Hm as [Hmr Hm], Hx as [Hxr Hx], Hy as [Hyr Hy].
    destruct (where_row_total mr xr yr) as [r Hr]; [congruence..|].
    destruct (IH _ _ _ Hm Hx Hy) as (rs & Hrs & Hsh).
    exists (r :: rs). simpl. rewrite Hr, Hrs. simpl. split; [done|].
    apply has_shape_cons. split; [|done].
    apply where_row_lookup in Hr as [-> _]. done.
Qed.

Lemma np_where0_total h w m y :
  has_shape h w m → has_shape h w y →
  ∃ r, np_where0 m y = Ok r ∧ has_shape h w r.
Proof.
  revert m y. induction h as [|h IH]; intros m y Hm Hy.
  - apply has_shape_nil_inv in Hm, Hy. subst. exists []. by split.
  - destruct m as [|mr m]; [by destruct Hm|].
    destruct y as [|yr y]; [by destruct Hy|].
    apply has_shape_cons in Hm as [Hmr Hm], Hy as [Hyr Hy].
    destruct (where_row0_total mr yr) as [r Hr]; [congruence|].
    destruct (IH _ _ Hm Hy) as (rs & Hrs & Hsh).
    exists (r :: rs). simpl. rewrite Hr, Hrs. simpl. split; [done|].
    apply has_shape_cons. split; [|done].
    apply where_row0_lookup in Hr as [-> _]. done.
Qed.

Lemma filled_like_shape h w frame color :
  has_shape h w frame → has_shape h w (filled_like frame color).
Proof.
  intros [Hh Hw]. destruct color as [[c0 c1] c2]. unfold filled_like. split.
  - by rewrite length_map.
  - apply Forall_fmap. eapply Forall_impl; [exact Hw|].
    intros r Hr. simpl. by rewrite length_map.
Qed.

Lemma replicate2_shape {A} h w (v : A) :
  has_shape h w (replicate h (replicate w v)).
Proof.
  split; [apply length_replicate|].
  apply Forall_replicate. apply length_replicate.
Qed.

Lemma imap2_shape {A} h w (f : nat → nat → A → A) (a : list (list A)) :
  has_shape h w a → has_shape h w (imap (λ i row, imap (f i) row) a).
Proof.
  intros [Hh Hw]. split; [by rewrite length_imap|].
  apply Forall_forall. intros r Hr.
  apply list_elem_of_lookup in Hr as [i Hi].
  rewrite list_lookup_imap in Hi.
  destruct (a !! i) as [row|] eqn:Hrow; simpl in Hi; [|done].
  injection Hi as <-. rewrite length_imap.
  eapply (proj1 (Forall_forall _ _) Hw), list_elem_of_lookup_2, Hrow.
Qed.

Lemma zeros_shape h w : has_shape (Z.to_nat h) (Z.to_nat w) (zeros h w).
Proof. apply replicate2_shape. Qed.

Lemma full_shape h w : has_shape (Z.to_nat h) (Z.to_nat w) (full h w).
Proof. apply replicate2_shape. Qed.

Lemma cv2_rectangle_shape h w m p1 p2 v :
  has_shape h w m → has_shape h w (cv2_rectangle m p1 p2 v).
Proof.
  intros H. unfold cv2_rectangle.
  by apply (imap2_shape h w (λ i j old, if in_rect p1 p2 i j then v else old)).
Qed.

Lemma assign_slice2_shape h w m y hh x ww v :
  has_shape h w m → has_shape h w (assign_slice2 m y hh x ww v).
Proof.
  intros [Hh Hw]. unfold assign_slice2. split; [by rewrite length_imap|].
  apply Forall_forall. intros r Hr.
  apply list_elem_of_lookup in Hr as [i Hi].
  rewrite list_lookup_imap in Hi.
  destruct (m !! i) as [row|] eqn:Hrow; simpl in Hi; [|done].
  injection Hi as <-. rewrite length_imap.
  eapply (proj1 (Forall_forall _ _) Hw), list_elem_of_lookup_2, Hrow.
Qed.

End Shapes.

(** ** The effect applicator *)

Section EffectProps.
Context `{cv : OpenCV}.

Lemma odd_after_normalising s :
  Z.odd (if s `mod` 2 =? 0 then s + 1 else s) = true.
Proof.
  destruct (Z.eqb_spec (s `mod` 2) 0) as [H|H].
  - rewrite Z.odd_add. rewrite (Zmod_odd s) in H.
    destruct (Z.odd s); [discriminate|done].
  - rewrite (Zmod_odd s) in H. destruct (Z.odd s); [done|congruence].
Qed.

Lemma nonempty_of_shape h w (f : Frame) :
  has_shape h w f → (0 < h)%nat → (0 < w)%nat → nonempty f = true.
Proof.
  intros Hf Hh Hw. unfold nonempty.
  rewrite (has_shape_height _ _ _ Hf), (has_shape_width _ _ _ Hf Hh).
  apply andb_true_intro. split; apply Z.ltb_lt; lia.
Qed.

(** Outside the mask the output is the input, for any effect, known or not. *)
Lemma apply_mask_effect_unselected frame mask mask_type s color r i j c :
  apply_mask_effect frame mask mask_type s color = Ok r →
  at_ mask i j = Some c → c ≠ 255 →
  at_ r i j = at_ frame i j.
Proof.
  unfold apply_mask_effect. intros H Hm Hc.
  destruct (String.eqb mask_type "blur").
  { inv_ok. eauto using np_where_unselected. }
  destruct (String.eqb mask_type "pixelate").
  { inv_ok. eauto using np_where_unselected. }
  destruct (String.eqb mask_type "solid").
  { eauto using np_where_unselected. }
  destruct (String.eqb mask_type "black").
  { eauto using np_where0_unselected. }
  by inv_ok; subst.
Qed.

(** On a frame and a mask of one shape, with arguments OpenCV accepts, the
    effect returns a frame of that shape. *)
Lemma apply_mask_effect_total h w frame mask mask_type s color :
  has_shape h w frame → has_shape h w mask →
  effect_ready (Z.of_nat h) (Z.of_nat w) mask_type s = true →
  ∃ r, apply_mask_effect frame mask mask_type s color = Ok r ∧ has_shape h w r.
Proof.
  intros Hf Hm Hready. unfold apply_mask_effect, effect_ready in *.
  destruct (String.eqb mask_type "blur").
  { apply andb_prop in Hready as [Hready Hw]. apply andb_prop in Hready as [Hk Hh].
    apply Z.ltb_lt in Hw, Hh.
    unfold cv2_GaussianBlur.
    rewrite Hk, odd_after_normalising, (nonempty_of_shape h w) by (done || lia).
    simpl. apply np_where_total; [done| |done]. by apply gaussian_shape. }
  destruct (String.eqb mask_type "pixelate").
  { apply andb_prop in Hready as [Hw Hh].
    assert (0 < h)%nat as Hh0.
    { destruct h; [|lia]. apply Z.ltb_lt in Hh.
      rewrite Z.div_0_l in Hh; lia. }
    assert (0 < w)%nat as Hw0.
    { destruct w; [|lia]. apply Z.ltb_lt in Hw.
      rewrite Z.div_0_l in Hw; lia. }
    rewrite (has_shape_height _ _ _ Hf), (has_shape_width _ _ _ Hf Hh0).
    unfold cv2_resize at 1.
    rewrite Hw, Hh, (nonempty_of_shape h w) by done. simpl.
    unfold cv2_resize.
    set (temp := resize_linear _ _ _).
    assert (nonempty temp = true) as ->.
    { apply Z.ltb_lt in Hw, Hh.
      eapply nonempty_of_shape; [apply resize_linear_shape|lia..]. }
    replace (0 <? Z.of_nat w) with true by (symmetry; apply Z.ltb_lt; lia).
    replace (0 <? Z.of_nat h) with true by (symmetry; apply Z.ltb_lt; lia).
    simpl. apply np_where_total; [done| |done].
    pose proof (resize_nearest_shape temp (Z.of_nat w) (Z.of_nat h)) as Hs.
    by rewrite !Nat2Z.id in Hs. }
  destruct (String.eqb mask_type "solid").
  { apply np_where_total; [done| |done]. by apply filled_like_shape. }
  destruct (String.eqb mask_type "black").
  { by apply np_where0_total. }
  eauto.
Qed.

(** C7. For every frame, every mask and every effect kind, with any
    strength and color: in the frame [apply_mask_effect] returns, every
    pixel whose mask value is 0 is the pixel of the input frame, so no effect
    changes a pixel outside the mask; and it does return a frame, of the
    input's shape, whenever the mask has the frame's shape and OpenCV accepts
    the arguments the effect hands it. *)
Theorem apply_mask_effect_outside_mask frame mask mask_type s color :
  (∀ r i j,
     apply_mask_effect frame mask mask_type s color = Ok r →
     at_ mask i j = Some 0 → at_ r i j = at_ frame i j)
  ∧ (∀ h w,
       has_shape h w frame → has_shape h w mask →
       effect_ready (Z.of_nat h) (Z.of_nat w) mask_type s = true →
       ∃ r, apply_mask_effect frame mask mask_type s color = Ok r
            ∧ has_shape h w r).
Proof.
  split.
  - intros r i j Hr Hz. by eapply apply_mask_effect_unselected.
  - intros h w. apply apply_mask_effect_total.
Qed.

(** Re-selecting with the same mask changes nothing when the selected
    pixels are a constant. *)
Lemma where_row0_again m y r :
  where_row0 m y = Ok r → where_row0 m r = Ok r.
Proof.
  revert y r. induction m as [|c m IH]; intros [|b y] r H;
    simpl in H; try discriminate.
  - by inv_ok; subst.
  - inv_ok. subst r. simpl. rewrite (IH _ _ Ha). simpl.
    do 2 f_equal. unfold choose. by destruct (c =? 255).
Qed.

Lemma np_where0_again m y r :
  np_where0 m y = Ok r → np_where0 m r = Ok r.
Proof.
  revert y r. induction m as [|mr m IH]; intros [|yr y] r H;
    simpl in H; try discriminate.
  - by inv_ok; subst.
  - inv_ok. subst r. simpl.
    by rewrite (where_row0_again _ _ _ Ha), (IH _ _ Ha0).
Qed.

Lemma where_row_const_again (px : pixel) m (y r : list pixel) :
  where_row m (map (λ _, px) y) y = Ok r →
  where_row m (map (λ _, px) r) r = Ok r.
Proof.
  revert y r. induction m as [|c m IH]; intros [|b y] r H;
    simpl in H; try discriminate.
  - by inv_ok; subst.
  - inv_ok. subst r. simpl. rewrite (IH _ _ Ha). simpl.
    do 2 f_equal. unfold choose. by destruct (c =? 255).
Qed.

Lemma np_where_filled_again color m (y r : Frame) :
  np_where m (filled_like y color) y = Ok r →
  np_where m (filled_like r color) r = Ok r.
Proof.
  destruct color as [[c0 c1] c2]. unfold filled_like.
  revert y r. induction m as [|mr m IH]; intros [|yr y] r H;
    simpl in H; try discriminate.
  - by inv_ok; subst.
  - inv_ok. subst r. simpl.
    by rewrite (where_row_const_again _ _ _ _ Ha), (IH _ _ Ha0).
Qed.

(** C8. For every frame, mask, strength and color, applying
    [apply_mask_effect] with effect ["black"] (respectively ["solid"]) to its
    own output, with the same mask and color, returns that output again:
    applying twice equals applying once, also when the first application
    raises. *)
Theorem black_and_solid_idempotent frame mask s color :
  rbind (apply_mask_effect frame mask "black" s color)
        (λ once, apply_mask_effect once mask "black" s color)
  = apply_mask_effect frame mask "black" s color
  ∧
  rbind (apply_mask_effect frame mask "solid" s color)
        (λ once, apply_mask_effect once mask "solid" s color)
  = apply_mask_effect frame mask "solid" s color.
Proof.
  unfold apply_mask_effect. simpl. split.
  - destruct (np_where0 mask frame) as [r|e] eqn:H; [|done].
    simpl. by apply np_where0_again in H.
  - destruct (np_where mask (filled_like frame color) frame) as [r|e] eqn:H;
      [|done].
    simpl. by apply np_where_filled_again in H.
Qed.

End EffectProps.

(** ** Codec fallback *)

Section Codec.
Context `{cv : OpenCV} `{ft : FaceTracker} `{enc : Encoder} `{cnv : Canvas}.

(** A writer that does not open ends the run before it starts. *)
Lemma process_video_writer_closed cfg cap s input out_dir :
  input_video cfg = Some input → output_path cfg = Some out_dir →
  isOpened (get_video_writer (output_file input out_dir)
              (output_size cfg cap).1 (output_size cfg cap).2).2 = false →
  process_video cfg cap s =
    mkReport [FailedToCreateOutput]
      (get_video_writer (output_file input out_dir)
         (output_size cfg cap).1 (output_size cfg cap).2).1
      None None false None.
Proof.
  intros Hi Ho Hclosed. unfold process_video. rewrite Hi, Ho.
  destruct (output_size cfg cap) as [w h]. simpl in *.
  destruct (get_video_writer _ w h) as [tried out]. simpl in *.
  by rewrite Hclosed.
Qed.

(** C3, as the code has it. For a [.mp4] output path whose preferred codec
    [avc1] does not open, [get_video_writer] constructs writers for [mp4v],
    then [XVID], then [H264], and returns the first that opens; [avc1] is
    not constructed a second time.  When none opens it returns the last
    writer, not opened, and [process_video] then reports that the output
    video could not be created and does nothing else. *)
Theorem mp4_fallback_order path w h :
  Path.lower (Path.splitext path).2 = ".mp4" →
  opens path "avc1" w h = false →
  get_video_writer path w h =
    (if opens path "mp4v" w h then
       (["avc1"; "mp4v"], mkWriter "mp4v" true)
     else if opens path "XVID" w h then
       (["avc1"; "mp4v"; "XVID"], mkWriter "XVID" true)
     else if opens path "H264" w h then
       (["avc1"; "mp4v"; "XVID"; "H264"], mkWriter "H264" true)
     else
       (["avc1"; "mp4v"; "XVID"; "H264"], mkWriter "H264" false))
  ∧ ∀ cfg cap s input out_dir,
      opens path "mp4v" w h || opens path "XVID" w h
        || opens path "H264" w h = false →
      input_video cfg = Some input → output_path cfg = Some out_dir →
      output_file input out_dir = path → output_size cfg cap = (w, h) →
      process_video cfg cap s =
        mkReport [FailedToCreateOutput] ["avc1"; "mp4v"; "XVID"; "H264"]
          None None false None.
Proof.
  intros Hext Havc.
  assert (get_video_writer path w h =
    (if opens path "mp4v" w h then
       (["avc1"; "mp4v"], mkWriter "mp4v" true)
     else if opens path "XVID" w h then
       (["avc1"; "mp4v"; "XVID"], mkWriter "XVID" true)
     else if opens path "H264" w h then
       (["avc1"; "mp4v"; "XVID"; "H264"], mkWriter "H264" true)
     else
       (["avc1"; "mp4v"; "XVID"; "H264"], mkWriter "H264" false))) as Hgw.
  { unfold get_video_writer. rewrite Hext.
    change (codec_map ".mp4") with "avc1".
    unfold VideoWriter, fallback_codecs. simpl. rewrite Havc. simpl.
    destruct (opens path "mp4v" w h) eqn:H1; simpl;
      [unfold VideoWriter; by rewrite H1|].
    destruct (opens path "XVID" w h) eqn:H2; simpl;
      [unfold VideoWriter; by rewrite H2|].
    destruct (opens path "H264" w h) eqn:H3; simpl;
      unfold VideoWriter; by rewrite H3. }
  split; [exact Hgw|].
  intros cfg cap s input out_dir Hnone Hi Ho Hpath Hsize.
  apply orb_false_elim in Hnone as [Hnone H3].
  apply orb_false_elim in Hnone as [H1 H2].
  rewrite H1, H2, H3 in Hgw.
  rewrite (process_video_writer_closed cfg cap s input out_dir Hi Ho);
    rewrite Hpath, Hsize; simpl; by rewrite Hgw.
Qed.

End Codec.

(** ** The compositor never raises on a well-formed session *)

Section Safety.
Context `{cv : OpenCV} `{ft : FaceTracker} `{enc : Encoder} `{cnv : Canvas}.

Lemma zeros_like_shape {A} h w (a : list (list A)) :
  has_shape h w a → has_shape h w (zeros (height a) (width a)).
Proof.
  intros Ha. destruct h as [|h].
  - apply has_shape_nil_inv in Ha as ->. by split.
  - rewrite (has_shape_height _ _ _ Ha), (has_shape_width _ _ _ Ha) by lia.
    pose proof (zeros_shape (Z.of_nat (S h)) (Z.of_nat w)) as Hz.
    by rewrite !Nat2Z.id in Hz.
Qed.

Lemma zeros_of_nat_shape h w :
  has_shape h w (zeros (Z.of_nat h) (Z.of_nat w)).
Proof. pose proof (zeros_shape (Z.of_nat h) (Z.of_nat w)) as Hz.
  by rewrite !Nat2Z.id in Hz. Qed.

Lemma full_of_nat_shape h w :
  has_shape h w (full (Z.of_nat h) (Z.of_nat w)).
Proof. pose proof (full_shape (Z.of_nat h) (Z.of_nat w)) as Hz.
  by rewrite !Nat2Z.id in Hz. Qed.

Lemma rotate_frame_shape h w frame angle :
  has_shape h w frame → has_shape h w (rotate_frame frame angle).
Proof.
  intros Hf. unfold rotate_frame. destruct (angle =? 0); [done|].
  by apply warp_rotate_shape.
Qed.

Lemma face_outline_points x y w h : ∃ p ps, face_outline x y w h = p :: ps.
Proof. unfold face_outline. by eexists _, _. Qed.

Lemma draw_face_total h w shape mask f :
  has_shape h w mask → face_ready shape f = true →
  ∃ m, draw_face shape mask f = Ok m ∧ has_shape h w m.
Proof.
  intros Hm Hready. unfold draw_face, face_ready in *.
  destruct (bbox f) as [[[x y] bw] bh].
  destruct (String.eqb shape "rectangle").
  { eexists. split; [done|]. by apply cv2_rectangle_shape. }
  destruct (String.eqb shape "oval"); simpl in Hready.
  { unfold cv2_ellipse. cbn [fst snd rbind]. rewrite Hready.
    cbn [rbind]. eexists. split; [done|]. by do 2 apply ellipse_shape. }
  destruct (String.eqb shape "precise"); [|by eexists].
  destruct (face_outline_points x y bw bh) as (p & ps & ->). simpl.
  eexists. split; [done|]. by apply fill_poly_shape.
Qed.

Lemma draw_faces_total h w shape tracked : ∀ mask,
  has_shape h w mask → forallb (face_ready shape) tracked = true →
  ∃ m, draw_faces shape mask tracked = Ok m ∧ has_shape h w m.
Proof.
  induction tracked as [|f tracked IH]; intros mask Hm Hall; simpl.
  { by eexists. }
  simpl in Hall. apply andb_prop in Hall as [Hf Hall].
  destruct (draw_face_total h w shape mask f Hm Hf) as (m & -> & Hm').
  simpl. by apply IH.
Qed.

Lemma create_face_mask_total h w cfg tracked frame :
  has_shape h w frame →
  forallb (face_ready (mask_shape cfg)) tracked = true →
  ∃ m, create_face_mask cfg tracked frame = Ok m ∧ has_shape h w m.
Proof.
  intros Hf Hall. unfold create_face_mask.
  apply draw_faces_total; [by apply zeros_like_shape|done].
Qed.

Lemma shape_mask_total h w s :
  shape_ready (Z.of_nat h) (Z.of_nat w) s = true →
  ∃ m, shape_mask (Z.of_nat h) (Z.of_nat w) s = Ok m ∧ has_shape h w m.
Proof.
  intros Hready. unfold shape_ready in Hready.
  apply andb_prop in Hready as [Hready _].
  apply andb_prop in Hready as [Hpts Hpoly]. unfold shape_mask.
  destruct (String.eqb (shape_type s) "rectangle"); simpl in Hpts.
  - apply Z.leb_le in Hpts.
    destruct (points s) as [|[x1 y1] [|[x2 y2] ps]]; simpl in Hpts; try lia.
    eexists. split; [done|]. apply cv2_rectangle_shape, zeros_of_nat_shape.
  - destruct (String.eqb (shape_type s) "polygon"
              || String.eqb (shape_type s) "freehand"); simpl in Hpoly.
    + apply Z.leb_le in Hpoly.
      destruct (points s) as [|p ps]; simpl in Hpoly; [lia|]. simpl.
      eexists. split; [done|]. apply fill_poly_shape, zeros_of_nat_shape.
    + eexists. split; [done|]. apply zeros_of_nat_shape.
Qed.

Lemma apply_shapes_total h w idx l frame :
  forallb (shape_ready (Z.of_nat h) (Z.of_nat w)) l = true →
  has_shape h w frame →
  ∃ r, apply_shapes (Z.of_nat h) (Z.of_nat w) idx l frame = Ok r
       ∧ has_shape h w r.
Proof.
  revert frame. induction l as [|s l IH]; intros frame Hall Hf; simpl.
  { eauto. }
  simpl in Hall. apply andb_prop in Hall as [Hs Hall].
  destruct (shape_skipped idx s); [by apply IH|].
  destruct (shape_mask_total h w s Hs) as (m & -> & Hm). simpl.
  unfold shape_ready in Hs. apply andb_prop in Hs as [_ He].
  destruct (apply_mask_effect_total h w frame m (shape_mask_type s)
              (strength s) (color s) Hf Hm He) as (r & -> & Hr).
  simpl. by apply IH.
Qed.

Lemma export_crop_total h w cfg idx frame :
  negb (crop_ready cfg)
  || effect_ready (Z.of_nat h) (Z.of_nat w) (crop_mask_type cfg)
       (blur_strength cfg) = true →
  has_shape h w frame →
  ∃ r, export_crop cfg (Z.of_nat w) (Z.of_nat h) idx frame = Ok r.
Proof.
  intros Hready Hf. unfold export_crop.
  destruct (crop_ready cfg); simpl in Hready; [|eauto].
  destruct (if negb (crop_all_frames cfg) then _ else _); [|eauto].
  destruct (String.eqb (crop_type cfg) "traditional"); [eauto|].
  edestruct apply_mask_effect_total as (r & Hr & _); [exact Hf| |exact Hready|].
  { apply assign_slice2_shape, full_of_nat_shape. }
  eauto.
Qed.

Lemma full_like_shape {A} h w (a : list (list A)) :
  has_shape h w a → has_shape h w (full (height a) (width a)).
Proof.
  intros Ha. destruct h as [|h].
  - apply has_shape_nil_inv in Ha as ->. by split.
  - rewrite (has_shape_height _ _ _ Ha), (has_shape_width _ _ _ Ha) by lia.
    apply full_of_nat_shape.
Qed.

(** Detection is always due on the first frame of a run. *)
Lemma detection_due_first cfg s : detection_due cfg 0 s = true.
Proof. unfold detection_due. by rewrite Zmod_0_l. Qed.

(** A refresh of the tracks leaves tracks the face stage can draw, when the
    detector reports only such tracks and the tracks kept were such. *)
Lemma refresh_faces_ready cfg counter s frame :
  auto_detect_faces cfg && rtmpose_initialized cfg = true →
  detector_ready cfg →
  detection_due cfg counter s = true
  ∨ forallb (face_ready (mask_shape cfg)) (tracked_faces s) = true →
  forallb (face_ready (mask_shape cfg))
    (tracked_faces (refresh_faces cfg counter s frame)) = true.
Proof.
  intros Hauto Hdet Hkept. unfold refresh_faces, detect_faces.
  apply andb_prop in Hauto as Hboth. destruct Hboth as [_ Hinit].
  rewrite Hinit. simpl.
  destruct (detection_due cfg counter s) eqn:Hdue.
  - specialize (Hdet Hauto (det s) (frame_index cfg) frame).
    by destruct (pose_and_track (det s) (frame_index cfg) frame).
  - by destruct Hkept.
Qed.

(** The face stage of either path returns a frame. *)
Lemma face_stage_total h w cfg (s : Session) frame result :
  has_shape h w frame → has_shape h w result →
  effect_ready (Z.of_nat h) (Z.of_nat w) (mask_type cfg) (blur_strength cfg)
  = true →
  forallb (face_ready (mask_shape cfg)) (tracked_faces s) = true →
  ∃ r, (do face_mask <- create_face_mask cfg (tracked_faces s) frame;
        apply_mask_effect result face_mask (mask_type cfg) (blur_strength cfg)
          (mask_color cfg)) = Ok r
       ∧ has_shape h w r.
Proof.
  intros Hf Hr Heff Hfaces.
  destruct (create_face_mask_total h w cfg (tracked_faces s) frame Hf Hfaces)
    as (m & -> & Hm). simpl.
  by apply apply_mask_effect_total.
Qed.

(** One export iteration returns a frame, and leaves tracks the face stage
    can draw. *)
Lemma export_frame_total h w cfg idx count s t frame :
  config_ready (Z.of_nat h) (Z.of_nat w) cfg = true →
  detector_ready cfg →
  (auto_detect_faces cfg && rtmpose_initialized cfg = true →
   detection_due cfg count s = true
   ∨ forallb (face_ready (mask_shape cfg)) (tracked_faces s) = true) →
  has_shape h w frame →
  (∃ r, (export_frame cfg (Z.of_nat w) (Z.of_nat h) idx count s t frame).2
        = Ok r)
  ∧ (auto_detect_faces cfg && rtmpose_initialized cfg = true →
     forallb (face_ready (mask_shape cfg))
       (tracked_faces
          (export_frame cfg (Z.of_nat w) (Z.of_nat h) idx count s t frame).1.1)
     = true).
Proof.
  intros Hready Hdet Hkept Hf. unfold config_ready in Hready.
  apply andb_prop in Hready as [Hready Hcrop].
  apply andb_prop in Hready as [Hshapes Hface].
  unfold export_frame.
  set (rotated := if rotation_enabled cfg && negb (rotation_angle cfg =? 0)
                  then rotate_frame frame (rotation_angle cfg) else frame).
  assert (has_shape h w rotated) as Hrot.
  { unfold rotated. destruct (rotation_enabled cfg && _); [|done].
    by apply rotate_frame_shape. }
  assert (∀ faced : Session * Telemetry * outcome Frame,
            (∃ r, faced.2 = Ok r ∧ has_shape h w r) →
            ∃ r, (let '(s, t, faced) := faced in
                  (s, t,
                   do result_frame <- faced;
                   do result_frame <- apply_shapes (Z.of_nat h) (Z.of_nat w)
                                        idx (shapes cfg) result_frame;
                   export_crop cfg (Z.of_nat w) (Z.of_nat h) idx
                     result_frame)).2 = Ok r) as Hrest.
  { intros [[s' t'] faced] (r & Hfaced & Hr). simpl in *. subst faced. simpl.
    destruct (apply_shapes_total h w idx (shapes cfg) r Hshapes Hr)
      as (r' & -> & Hr'). simpl.
    by apply export_crop_total. }
  destruct (auto_detect_faces cfg && rtmpose_initialized cfg) eqn:Hauto;
    simpl in Hface.
  2:{ split; [|done]. apply (Hrest (s, t, Ok rotated)). simpl. eauto. }
  pose proof (refresh_faces_ready cfg count s frame Hauto Hdet (Hkept eq_refl))
    as Hfaces.
  destruct (bool_decide (tracked_faces (refresh_faces cfg count s frame) = []));
    (split; [apply (Hrest (_, _, _)); simpl|by intros _]).
  - eauto.
  - by apply face_stage_total.
Qed.

Lemma preview_crop_total h w cfg frame result :
  negb (crop_ready cfg)
  || effect_ready (Z.of_nat h) (Z.of_nat w) (crop_mask_type cfg)
       (blur_strength cfg) = true →
  has_shape h w frame → has_shape h w result →
  ∃ r, preview_crop cfg frame result = Ok r.
Proof.
  intros Hready Hf Hr. unfold preview_crop.
  destruct (crop_ready cfg); simpl in Hready; [|eauto].
  destruct (String.eqb (crop_type cfg) "mask"); [|eauto].
  edestruct apply_mask_effect_total as (r & Hrun & _);
    [exact Hr| |exact Hready|].
  { apply assign_slice2_shape, (full_like_shape h w frame Hf). }
  eauto.
Qed.

(** One preview of a frame returns a frame. *)
Lemma process_frame_total h w cfg s frame :
  (0 < h)%nat →
  config_ready (Z.of_nat h) (Z.of_nat w) cfg = true →
  detector_ready cfg →
  (auto_detect_faces cfg && rtmpose_initialized cfg = true →
   detection_due cfg (frame_index cfg) s = true
   ∨ forallb (face_ready (mask_shape cfg)) (tracked_faces s) = true) →
  has_shape h w frame →
  ∃ r, (process_frame cfg s frame).2 = Ok r.
Proof.
  intros Hpos Hready Hdet Hkept Hf. unfold config_ready in Hready.
  apply andb_prop in Hready as [Hready Hcrop].
  apply andb_prop in Hready as [Hshapes Hface].
  unfold process_frame.
  set (rotated := if rotation_enabled cfg && negb (rotation_angle cfg =? 0)
                  then rotate_frame frame (rotation_angle cfg) else frame).
  assert (has_shape h w rotated) as Hrot.
  { unfold rotated. destruct (rotation_enabled cfg && _); [|done].
    by apply rotate_frame_shape. }
  rewrite (has_shape_height _ _ _ Hf), (has_shape_width _ _ _ Hf) by done.
  assert (∀ faced : Session * outcome Frame,
            (∃ r, faced.2 = Ok r ∧ has_shape h w r) →
            ∃ r, (let '(s, faced) := faced in
                  (s,
                   do result <- faced;
                   do result <- apply_shapes (Z.of_nat h) (Z.of_nat w)
                                  (frame_index cfg) (shapes cfg) result;
                   preview_crop cfg frame result)).2 = Ok r) as Hrest.
  { intros [s' faced] (r & Hfaced & Hr). simpl in *. subst faced. simpl.
    destruct (apply_shapes_total h w (frame_index cfg) (shapes cfg) r
                Hshapes Hr) as (r' & -> & Hr'). simpl.
    by apply (preview_crop_total h w). }
  destruct (auto_detect_faces cfg && rtmpose_initialized cfg) eqn:Hauto;
    simpl in Hface.
  2:{ apply (Hrest (s, Ok rotated)). simpl. eauto. }
  pose proof (refresh_faces_ready cfg (frame_index cfg) s frame Hauto Hdet
                (Hkept eq_refl)) as Hfaces.
  destruct (bool_decide
              (tracked_faces (refresh_faces cfg (frame_index cfg) s frame)
               = []));
    apply (Hrest (_, _)); simpl.
  - eauto.
  - by apply face_stage_total.
Qed.

End Safety.

(** ** The export loop *)

Section Loop.
Context `{cv : OpenCV} `{ft : FaceTracker} `{enc : Encoder}.

Variables (cfg : Config) (cap : Capture) (h w : nat).
Hypothesis cap_w : cap_width cap = Z.of_nat w.
Hypothesis cap_h : cap_height cap = Z.of_nat h.
Hypothesis ready : config_ready (Z.of_nat h) (Z.of_nat w) cfg = true.
Hypothesis detector : detector_ready cfg.

(** [n] iterations over readable frames of the capture's size all complete:
    the loop continues from a state [n] frames further on.  The tracks the
    loop starts with are never drawn: the first iteration detects anew. *)
Lemma export_loop_advance end_frame (n : nat) : ∀ fuel r,
  (∀ i, current_frame_idx r ≤ i < current_frame_idx r + Z.of_nat n →
        ∃ f, cap_read cap i = Some f ∧ has_shape h w f) →
  current_frame_idx r + Z.of_nat n ≤ end_frame + 1 →
  (auto_detect_faces cfg && rtmpose_initialized cfg = true →
   frame_count r = 0
   ∨ forallb (face_ready (mask_shape cfg)) (tracked_faces (session r))
     = true) →
  ∃ r', export_loop (n + fuel) cfg cap end_frame r
          = export_loop fuel cfg cap end_frame r'
        ∧ current_frame_idx r' = current_frame_idx r + Z.of_nat n
        ∧ frame_count r' = frame_count r + Z.of_nat n
        ∧ Z.of_nat (length (written r')) + errors r'
          = Z.of_nat (length (written r)) + errors r + Z.of_nat n
        ∧ errors r ≤ errors r'
        ∧ ((∀ f, write_raises f = false) → errors r' = errors r).
Proof.
  induction n as [|n IH]; intros fuel r Hread Hend Hkept.
  { exists r. simpl. split_and!; (done || lia). }
  change (S n + fuel)%nat with (S (n + fuel)). simpl export_loop.
  replace (current_frame_idx r <=? end_frame) with true
    by (symmetry; apply Z.leb_le; lia).
  destruct (Hread (current_frame_idx r)) as (f & -> & Hf); [lia|].
  destruct (export_frame_total h w cfg (current_frame_idx r) (frame_count r)
              (session r) (telemetry r) f ready detector) as ((rf & Hrf) & Hfaces);
    [|done|].
  { intros Hauto. destruct (Hkept Hauto) as [-> | Hfaces]; [left|by right].
    apply detection_due_first. }
  rewrite cap_w, cap_h.
  destruct (export_frame cfg _ _ _ _ _ _ f) as [[s' t'] composed].
  simpl in Hrf, Hfaces. subst composed.
  set (upd := if write_raises rf then (written r, errors r + 1)
              else (written r ++ [rf], errors r)).
  destruct upd as [written' errors'] eqn:Hupd.
  assert (Z.of_nat (length written') + errors'
          = Z.of_nat (length (written r)) + errors r + 1
          ∧ errors r ≤ errors'
          ∧ (write_raises rf = false → errors' = errors r)) as (Hsum & Hle & Hno).
  { unfold upd in Hupd. destruct (write_raises rf); injection Hupd as <- <-.
    - split_and!; (done || lia).
    - rewrite length_app. simpl. split_and!; (done || lia). }
  destruct (IH fuel (mkRun (current_frame_idx r + 1) (frame_count r + 1)
                       errors' written' s' t'))
    as (r' & Hloop & Hidx & Hcount & Hwritten & Herr & Hquiet); simpl.
  { intros i Hi. apply Hread. lia. }
  { lia. }
  { intros Hauto. right. by apply Hfaces. }
  exists r'. simpl in *. split_and!; try (done || lia).
  intros Hnever. rewrite Hquiet, Hno; auto.
Qed.

End Loop.

Section Run.
Context `{cv : OpenCV} `{ft : FaceTracker} `{enc : Encoder} `{cnv : Canvas}.


Lemma export_loop_read_fails cfg cap end_frame r :
  current_frame_idx r ≤ end_frame →
  cap_read cap (current_frame_idx r) = None →
  ∀ fuel, export_loop (S fuel) cfg cap end_frame r = (r, ReadFailed).
Proof.
  intros Hle Hnone fuel. simpl.
  replace (current_frame_idx r <=? end_frame) with true
    by (symmetry; apply Z.leb_le; lia).
  by rewrite Hnone.
Qed.

Lemma process_video_opened cfg cap s input out_dir :
  input_video cfg = Some input → output_path cfg = Some out_dir →
  isOpened (get_video_writer (output_file input out_dir)
              (output_size cfg cap).1 (output_size cfg cap).2).2 = true →
  final (process_video cfg cap s) = Some (started_loop cfg cap s input)
  ∧ released (process_video cfg cap s) = true
  ∧ redraw (process_video cfg cap s)
    = Some (final_redraw cfg cap (started_loop cfg cap s input).1)
  ∧ ∃ saved,
      statuses (process_video cfg cap s)
      = saved ++ [completion (started_loop cfg cap s input).1
                    (output_file input out_dir)]
          ++ shown_statuses
               (final_redraw cfg cap (started_loop cfg cap s input).1)
      ∧ (saved = []
         ∨ (∃ p, saved = [FaceDataSaved p])
         ∨ (∃ e, saved = [ErrorDuringProcessing e]
                 ∧ (started_loop cfg cap s input).2 = Raised e)).
Proof.
  intros Hi Ho Hopen. unfold process_video, started_loop, final_redraw.
  rewrite Hi, Ho.
  destruct (output_size cfg cap) as [ow oh]. simpl in Hopen.
  destruct (get_video_writer _ ow oh) as [tried out]. simpl in Hopen.
  rewrite Hopen. simpl negb. cbv iota.
  destruct (frame_range cfg) as [start_frame end_frame].
  match goal with
  | |- context [export_loop ?n cfg cap end_frame ?r0] =>
      destruct (export_loop n cfg cap end_frame r0) as [r exit]
  end. cbn [fst snd].
  destruct exit as [| |e|];
    try (destruct (_ && negb (bool_decide (tel_faces (telemetry r) = ∅))));
    cbn [statuses final released redraw];
    (split_and!; [done|done|done|]);
    first [ by exists []; split; [|left]
          | by eexists [FaceDataSaved _]; split; [|right; left; eauto]
          | by eexists [ErrorDuringProcessing _]; split; [|right; right; eauto] ].
Qed.

Lemma process_video_raised cfg cap s input out_dir e :
  input_video cfg = Some input → output_path cfg = Some out_dir →
  isOpened (get_video_writer (output_file input out_dir)
              (output_size cfg cap).1 (output_size cfg cap).2).2 = true →
  (started_loop cfg cap s input).2 = Raised e →
  statuses (process_video cfg cap s)
  = [ErrorDuringProcessing e]
      ++ [completion (started_loop cfg cap s input).1
            (output_file input out_dir)]
      ++ shown_statuses
           (final_redraw cfg cap (started_loop cfg cap s input).1)
  ∧ json_file (process_video cfg cap s) = None.
Proof.
  intros Hi Ho Hopen. unfold process_video, started_loop, final_redraw.
  rewrite Hi, Ho.
  destruct (output_size cfg cap) as [ow oh]. simpl in Hopen.
  destruct (get_video_writer _ ow oh) as [tried out]. simpl in Hopen.
  rewrite Hopen. simpl negb. cbv iota.
  destruct (frame_range cfg) as [start_frame end_frame].
  match goal with
  | |- context [export_loop ?n cfg cap end_frame ?r0] =>
      destruct (export_loop n cfg cap end_frame r0) as [r exit]
  end. cbn [fst snd]. by intros ->.
Qed.

(** The redraw of the preview sets one status when the frame cannot be read
    or when nothing raises, and none when it raises. *)
Lemma show_current_frame_statuses cfg cap s :
  match cap_read cap (frame_index cfg) with
  | None => shown_statuses (show_current_frame cfg cap s) = [FailedToReadFrame]
  | Some frame =>
      (shown_raised (show_current_frame cfg cap s) = None
       ∧ shown_statuses (show_current_frame cfg cap s)
         = [FrameStatus (frame_index cfg + 1) (total_frames cfg)
              (active_shapes cfg)
              (Z.of_nat (length (tracked_faces
                                   (shown_session
                                      (show_current_frame cfg cap s)))))])
      ∨ ((∃ e, shown_raised (show_current_frame cfg cap s) = Some e)
         ∧ shown_statuses (show_current_frame cfg cap s) = [])
  end.
Proof.
  unfold show_current_frame.
  destruct (cap_read cap (frame_index cfg)) as [frame|]; [|done].
  destruct (process_frame cfg s frame) as [s' [processed|e]]; simpl.
  - destruct (display_raises cfg (tracked_faces s') processed); simpl.
    + right. eauto.
    + by left.
  - right. eauto.
Qed.

(** The session the redraw leaves: the one [process_frame] leaves, whether
    or not anything raised after the tracks were assigned. *)
Lemma show_current_frame_session cfg cap s :
  shown_session (show_current_frame cfg cap s)
  = match cap_read cap (frame_index cfg) with
    | None => s
    | Some frame => (process_frame cfg s frame).1
    end.
Proof.
  unfold show_current_frame.
  destruct (cap_read cap (frame_index cfg)) as [frame|]; [|done].
  destruct (process_frame cfg s frame) as [s' [processed|e]]; simpl; [|done].
  by destruct (display_raises cfg (tracked_faces s') processed).
Qed.

Lemma show_current_frame_failure cfg cap s :
  existsb is_failure_notice (shown_statuses (show_current_frame cfg cap s))
  = bool_decide (cap_read cap (frame_index cfg) = None).
Proof.
  pose proof (show_current_frame_statuses cfg cap s) as Hs.
  destruct (cap_read cap (frame_index cfg)) as [frame|].
  - by destruct Hs as [[_ ->] | [_ ->]].
  - by rewrite Hs.
Qed.

(** The loop of the model always leaves through one of the exits of the
    source: the bound on the tests of its condition is never what stops it. *)
Lemma export_loop_terminates cfg cap end_frame (fuel : nat) : ∀ r,
  (0 < fuel)%nat →
  end_frame + 1 - current_frame_idx r < Z.of_nat fuel →
  (export_loop fuel cfg cap end_frame r).2 ≠ Unfinished.
Proof.
  induction fuel as [|fuel IH]; intros r Hpos Hfuel; simpl; [lia|].
  destruct (Z.leb_spec (current_frame_idx r) end_frame); [|done].
  destruct (cap_read cap (current_frame_idx r)) as [f|]; [|done].
  destruct (export_frame _ _ _ _ _ _ _ f) as [[s' t'] [rf|e]]; [|done].
  destruct (write_raises rf); apply IH; simpl; lia.
Qed.

Lemma started_loop_terminates cfg cap s input :
  (started_loop cfg cap s input).2 ≠ Unfinished.
Proof.
  unfold started_loop. destruct (frame_range cfg) as [a b].
  apply export_loop_terminates; [lia|]. simpl current_frame_idx. lia.
Qed.

End Run.

Section RunProps.
Context `{cv : OpenCV} `{ft : FaceTracker} `{enc : Encoder} `{cnv : Canvas}.

(** The started loop over a readable prefix of the range. *)
Lemma started_loop_advance cfg cap s input (h w : nat) (k : Z) :
  cap_width cap = Z.of_nat w → cap_height cap = Z.of_nat h →
  config_ready (Z.of_nat h) (Z.of_nat w) cfg = true →
  detector_ready cfg →
  (frame_range cfg).1 ≤ k ≤ (frame_range cfg).2 + 1 →
  (∀ i, (frame_range cfg).1 ≤ i < k →
        ∃ f, cap_read cap i = Some f ∧ has_shape h w f) →
  ∃ fuel r,
    started_loop cfg cap s input
      = export_loop (S fuel) cfg cap (frame_range cfg).2 r
    ∧ current_frame_idx r = k
    ∧ frame_count r = k - (frame_range cfg).1
    ∧ Z.of_nat (length (written r)) + errors r = k - (frame_range cfg).1
    ∧ ((∀ f, write_raises f = false) → errors r = 0).
Proof.
  intros Hw Hh Hready Hdet Hk Hread. unfold started_loop.
  destruct (frame_range cfg) as [a b]. cbn [fst snd] in *.
  set (r0 := mkRun a 0 0 [] _ _).
  set (n := Z.to_nat (k - a)).
  set (m := (Z.to_nat (b - a + 1) - n)%nat).
  replace (S (Z.to_nat (b - a + 1))) with (n + S m)%nat by (unfold m, n; lia).
  destruct (export_loop_advance cfg cap h w Hw Hh Hready Hdet b n (S m) r0)
    as (r & Hloop & Hidx & Hcount & Hsum & _ & Hquiet).
  { intros i Hi. apply Hread. unfold r0, n in Hi. simpl in Hi. lia. }
  { unfold r0, n. simpl. lia. }
  { intros _. by left. }
  exists m, r. subst r0.
  cbn [current_frame_idx frame_count errors written length]
    in Hidx, Hcount, Hsum, Hquiet.
  split_and!; [done|lia..|].
  intros Hnever. by rewrite Hquiet.
Qed.


(** C5, as the code has it. If a frame read fails at an index of the
    resolved range, the loop is left at once: the frames before that index
    have been composited and handed to the writer, the writer is released,
    and the run sets the completion status exactly as a run over the whole
    range does.  Up to there no status reports a failure or the number of
    frames written.  The call then ends with a redraw of the preview at
    frame 0, which sets the last status: [Failed to read frame] when frame 0
    cannot be read, and that is the only failure notice a run can show;
    the frame, shape and face counts when the redraw completes; nothing
    when the redraw raises. *)
Theorem read_failure_reported_as_completion cfg cap s (h w : nat)
    input out_dir k :
  input_video cfg = Some input → output_path cfg = Some out_dir →
  isOpened (get_video_writer (output_file input out_dir)
              (output_size cfg cap).1 (output_size cfg cap).2).2 = true →
  cap_width cap = Z.of_nat w → cap_height cap = Z.of_nat h →
  config_ready (Z.of_nat h) (Z.of_nat w) cfg = true →
  detector_ready cfg →
  (frame_range cfg).1 ≤ k ≤ (frame_range cfg).2 →
  (∀ i, (frame_range cfg).1 ≤ i < k →
        ∃ f, cap_read cap i = Some f ∧ has_shape h w f) →
  cap_read cap k = None →
  ∃ r saved,
    final (process_video cfg cap s) = Some (r, ReadFailed)
    ∧ current_frame_idx r = k
    ∧ frame_count r = k - (frame_range cfg).1
    ∧ Z.of_nat (length (written r)) + errors r = k - (frame_range cfg).1
    ∧ released (process_video cfg cap s) = true
    ∧ redraw (process_video cfg cap s) = Some (final_redraw cfg cap r)
    ∧ statuses (process_video cfg cap s)
      = saved ++ [completion r (output_file input out_dir)]
          ++ shown_statuses (final_redraw cfg cap r)
    ∧ existsb is_failure_notice
        (saved ++ [completion r (output_file input out_dir)]) = false
    ∧ existsb is_failure_notice (statuses (process_video cfg cap s))
      = bool_decide (cap_read cap 0 = None)
    ∧ last (statuses (process_video cfg cap s))
      = match cap_read cap 0 with
        | None => Some FailedToReadFrame
        | Some _ =>
            match shown_raised (final_redraw cfg cap r) with
            | Some _ => Some (completion r (output_file input out_dir))
            | None =>
                Some (FrameStatus 1 (total_frames cfg)
                        (active_shapes (with_frame_index cfg 0))
                        (Z.of_nat
                           (length (tracked_faces
                                      (shown_session
                                         (final_redraw cfg cap r))))))
            end
        end.
Proof.
  intros Hi Ho Hopen Hw Hh Hready Hdet Hk Hread Hfail.
  destruct (process_video_opened cfg cap s input out_dir Hi Ho Hopen)
    as (Hfinal & Hreleased & Hredraw & saved & Hstatuses & Hsaved).
  destruct (started_loop_advance cfg cap s input h w k Hw Hh Hready Hdet)
    as (fuel & r & Hloop & Hidx & Hcount & Hsum & _); [lia|done|].
  rewrite (export_loop_read_fails cfg cap _ r) in Hloop
    by (rewrite ?Hidx; (done || lia)).
  exists r, saved. rewrite Hfinal, Hredraw, Hstatuses, Hloop in *.
  cbn [fst snd] in *.
  assert (existsb is_failure_notice
            (saved ++ [completion r (output_file input out_dir)]) = false)
    as Hquiet.
  { rewrite existsb_app. simpl.
    assert (is_failure_notice (completion r (output_file input out_dir)) = false)
      as -> by (unfold completion; by destruct (0 <? errors r)).
    destruct Hsaved as [-> | [[p ->] | (e & _ & Hraised)]]; [done..|].
    discriminate Hraised. }
  pose proof (show_current_frame_statuses (with_frame_index cfg 0) cap
                (session r)) as Hshown.
  pose proof (show_current_frame_failure (with_frame_index cfg 0) cap
                (session r)) as Hnotice.
  fold (final_redraw cfg cap r) in Hshown, Hnotice.
  change (frame_index (with_frame_index cfg 0)) with 0 in Hshown, Hnotice.
  split_and!; try done.
  - by rewrite app_assoc, existsb_app, Hquiet, Hnotice.
  - destruct (cap_read cap 0) as [f0|].
    + destruct Hshown as [[-> ->] | [[e ->] ->]].
      * by rewrite app_assoc, last_snoc.
      * by rewrite app_nil_r, last_snoc.
    + by rewrite Hshown, app_assoc, last_snoc.
Qed.

End RunProps.

(** ** Preview against export *)

Section PreviewExport.
Context `{cv : OpenCV} `{ft : FaceTracker}.

Lemma rbind_ext {A B} (m : outcome A) (k k' : A → outcome B) :
  (∀ a, k a = k' a) → rbind m k = rbind m k'.
Proof. intros H. destruct m; simpl; auto. Qed.

Lemma slice_bound_clamp n lo d :
  0 ≤ n → slice_bound n (lo + d `min` (n - lo)) = slice_bound n (lo + d).
Proof.
  intros Hn. unfold slice_bound.
  destruct (Z.ltb_spec (lo + d `min` (n - lo)) 0),
           (Z.ltb_spec (lo + d) 0); lia.
Qed.

Lemma in_slice_clamp n lo d k :
  0 ≤ n → in_slice n lo (lo + d `min` (n - lo)) k = in_slice n lo (lo + d) k.
Proof. intros Hn. unfold in_slice. by rewrite slice_bound_clamp. Qed.

(** Clamping the extent of the kept region to the canvas, as the export
    path does, clears the same entries as the bare slice of the preview. *)
Lemma crop_mask_clamp (H W y h x w : Z) :
  0 ≤ H → 0 ≤ W →
  assign_slice2 (full H W) y (h `min` (H - y)) x (w `min` (W - x)) 0
  = assign_slice2 (full H W) y h x w 0.
Proof.
  intros HH HW. unfold assign_slice2.
  assert (height (full H W) = H) as ->.
  { unfold height, full. rewrite length_replicate. lia. }
  apply imap_ext. intros i row Hrow.
  apply lookup_replicate in Hrow as [-> _]. rewrite length_replicate.
  rewrite Z2Nat.id by done.
  apply imap_ext. intros j old _. simpl.
  by rewrite !in_slice_clamp.
Qed.

Lemma crop_stages_agree cfg frame result :
  crop_stage_agrees cfg frame = true →
  preview_crop cfg frame result
  = export_crop cfg (width frame) (height frame) (frame_index cfg) result.
Proof.
  unfold crop_stage_agrees, preview_crop, export_crop. intros Hagree.
  destruct (crop_ready cfg); simpl in Hagree; [|done].
  replace (if negb (crop_all_frames cfg)
           then (crop_start_frame cfg <=? frame_index cfg)
                && (frame_index cfg <=? crop_end_frame cfg)
           else true)
    with (crop_all_frames cfg
          || ((crop_start_frame cfg <=? frame_index cfg)
              && (frame_index cfg <=? crop_end_frame cfg)))
    by by destruct (crop_all_frames cfg).
  destruct (String.eqb (crop_type cfg) "mask") eqn:Hmask.
  - apply String.eqb_eq in Hmask. rewrite Hmask. simpl String.eqb. cbv iota.
    repeat (apply andb_prop in Hagree as [Hagree ?]).
    rewrite Hagree.
    assert (0 ≤ crop_x cfg < width frame) as Hx
      by (split; [by apply Z.leb_le|by apply Z.ltb_lt]).
    assert (0 ≤ crop_y cfg < height frame) as Hy
      by (split; [by apply Z.leb_le|by apply Z.ltb_lt]).
    replace (0 `max` (crop_x cfg `min` (width frame - 1)))
      with (crop_x cfg) by lia.
    replace (0 `max` (crop_y cfg `min` (height frame - 1)))
      with (crop_y cfg) by lia.
    rewrite crop_mask_clamp by lia. done.
  - apply negb_true_iff in Hagree. by rewrite Hagree.
Qed.

(** C1, as the code has it. For every frame and every authoring state, the
    frame returned by [process_frame] and the session it leaves are those of
    the export iteration for the same frame index, provided the crop stages
    agree there ([crop_stage_agrees]) and, when face detection is active,
    the two paths take the same decision on refreshing the tracks. *)
Theorem preview_matches_export_when_stages_agree cfg s t frame count :
  crop_stage_agrees cfg frame = true →
  (auto_detect_faces cfg && rtmpose_initialized cfg = true →
   detection_due cfg count s = detection_due cfg (frame_index cfg) s) →
  process_frame cfg s frame
  = ((export_frame cfg (width frame) (height frame) (frame_index cfg) count
        s t frame).1.1,
     (export_frame cfg (width frame) (height frame) (frame_index cfg) count
        s t frame).2).
Proof.
  intros Hcrop Hdue. unfold process_frame, export_frame.
  set (rotated := if rotation_enabled cfg && negb (rotation_angle cfg =? 0)
                  then rotate_frame frame (rotation_angle cfg) else frame).
  assert (∀ (s' : Session) (t' : Telemetry) (faced : outcome Frame),
    (s',
     do result <- faced;
     do result <- apply_shapes (height frame) (width frame) (frame_index cfg)
                    (shapes cfg) result;
     preview_crop cfg frame result)
    = ((s', t',
        do result_frame <- faced;
        do result_frame <- apply_shapes (height frame) (width frame)
                             (frame_index cfg) (shapes cfg) result_frame;
        export_crop cfg (width frame) (height frame) (frame_index cfg)
          result_frame).1.1,
       (s', t',
        do result_frame <- faced;
        do result_frame <- apply_shapes (height frame) (width frame)
                             (frame_index cfg) (shapes cfg) result_frame;
        export_crop cfg (width frame) (height frame) (frame_index cfg)
          result_frame).2)) as Hrest.
  { intros s' t' faced. simpl. f_equal.
    apply rbind_ext. intros a. apply rbind_ext. intros b.
    by apply crop_stages_agree. }
  destruct (auto_detect_faces cfg && rtmpose_initialized cfg); [|apply Hrest].
  assert (refresh_faces cfg (frame_index cfg) s frame
          = refresh_faces cfg count s frame) as ->.
  { unfold refresh_faces. by rewrite Hdue. }
  destruct (bool_decide (tracked_faces (refresh_faces cfg count s frame) = []));
    apply Hrest.
Qed.

End PreviewExport.

(** ** Face detection: cadence and coordinate space *)

Section Faces.
Context `{cv : OpenCV} `{ft : FaceTracker} `{enc : Encoder}.

(** The session one preview call leaves behind. *)
Lemma process_frame_session cfg s frame :
  (process_frame cfg s frame).1
  = if auto_detect_faces cfg && rtmpose_initialized cfg
    then refresh_faces cfg (frame_index cfg) s frame else s.
Proof.
  unfold process_frame.
  destruct (auto_detect_faces cfg && rtmpose_initialized cfg); [|done].
  by destruct (bool_decide _).
Qed.

(** The session one export iteration leaves behind. *)
Lemma export_frame_session cfg width height idx count s t frame :
  (export_frame cfg width height idx count s t frame).1.1
  = if auto_detect_faces cfg && rtmpose_initialized cfg
    then refresh_faces cfg count s frame else s.
Proof.
  unfold export_frame.
  destruct (auto_detect_faces cfg && rtmpose_initialized cfg); [|done].
  by destruct (bool_decide _).
Qed.

(** After [n] completed iterations the loop counters have both advanced by
    [n]: a loop cut off after [n] tests of its condition stands at the
    [n]-th iteration. *)
Lemma export_loop_counters cfg cap end_frame (n : nat) : ∀ r r',
  export_loop n cfg cap end_frame r = (r', Unfinished) →
  current_frame_idx r' = current_frame_idx r + Z.of_nat n
  ∧ frame_count r' = frame_count r + Z.of_nat n.
Proof.
  induction n as [|n IH]; intros r r' H; simpl in H.
  { injection H as <-. lia. }
  destruct (current_frame_idx r <=? end_frame); [|discriminate].
  destruct (cap_read cap (current_frame_idx r)) as [f|]; [|discriminate].
  destruct (export_frame _ _ _ _ _ _ _ f) as [[s' t'] [rf|e]]; [|discriminate].
  destruct (write_raises rf); apply IH in H; simpl in H; lia.
Qed.

(** C6, as the code has it. With auto face detection enabled, the preview
    path refreshes [tracked_faces] by running detection exactly when
    [frame_index mod detection_frequency == 0] or no tracks exist, and keeps
    the session unchanged otherwise.  The export path tests [frame_count],
    the number of frames the run has processed so far, in place of the frame
    index; at every iteration [frame_count] is [current_frame_idx] minus the
    first frame of the run. *)
Theorem detection_cadence cfg :
  auto_detect_faces cfg = true → rtmpose_initialized cfg = true →
  (∀ s frame,
     (process_frame cfg s frame).1
     = if (frame_index cfg `mod` detection_frequency cfg =? 0)
          || bool_decide (tracked_faces s = [])
       then mkSession (pose_and_track (det s) (frame_index cfg) frame).1
                      (pose_and_track (det s) (frame_index cfg) frame).2
       else s)
  ∧ (∀ width height idx count s t frame,
       (export_frame cfg width height idx count s t frame).1.1
       = if (count `mod` detection_frequency cfg =? 0)
            || bool_decide (tracked_faces s = [])
         then mkSession (pose_and_track (det s) (frame_index cfg) frame).1
                        (pose_and_track (det s) (frame_index cfg) frame).2
         else s)
  ∧ (∀ cap end_frame start s t n r,
       export_loop n cfg cap end_frame (mkRun start 0 0 [] s t)
       = (r, Unfinished) →
       current_frame_idx r = start + Z.of_nat n
       ∧ frame_count r = current_frame_idx r - start).
Proof.
  intros Hauto Hinit.
  assert (∀ counter s frame,
    refresh_faces cfg counter s frame
    = if (counter `mod` detection_frequency cfg =? 0)
         || bool_decide (tracked_faces s = [])
      then mkSession (pose_and_track (det s) (frame_index cfg) frame).1
                     (pose_and_track (det s) (frame_index cfg) frame).2
      else s) as Hrefresh.
  { intros counter s frame. unfold refresh_faces, detection_due, detect_faces.
    rewrite Hinit. simpl. destruct (_ || _); [|done].
    by destruct (pose_and_track _ _ _). }
  split_and!.
  - intros s frame. rewrite process_frame_session, Hauto, Hinit. apply Hrefresh.
  - intros width height idx count s t frame.
    rewrite export_frame_session, Hauto, Hinit. apply Hrefresh.
  - intros cap end_frame start s t n r Hloop.
    apply export_loop_counters in Hloop. simpl in Hloop. lia.
Qed.

End Faces.

(** ** Authored shapes *)

Section Authoring.

Lemma on_mouse_up_appends cfg g img_h img_w px py :
  appends_ranged_shape cfg (on_mouse_up cfg g img_h img_w px py).1.
Proof.
  unfold on_mouse_up, appends_ranged_shape, new_shape.
  repeat match goal with
         | |- context [if ?b then _ else _] => destruct b
         end; simpl; eauto 6.
Qed.

Lemma on_double_click_appends cfg g :
  appends_ranged_shape cfg (on_double_click cfg g).1.
Proof.
  unfold on_double_click, appends_ranged_shape, new_shape.
  repeat match goal with
         | |- context [if ?b then _ else _] => destruct b
         end; simpl; eauto 6.
Qed.

(** C10. Every shape appended by [on_mouse_up] (rectangle and freehand) or
    by [on_double_click] (polygon) is a 7-field tuple whose last two fields
    are the frame index at creation and [total_frames - 1]; a completed
    gesture does append it; the compositor skips such a shape exactly
    outside that range; and the shapes it never skips, whatever the frame
    index, are exactly those with fewer than 7 fields. *)
Theorem gesture_shapes_carry_frame_range cfg g img_h img_w px py :
  let ranged (s : Shape) :=
    shape_len s = 7
    ∧ frame_fields s = [frame_index cfg; total_frames cfg - 1]
    ∧ ∀ idx, shape_skipped idx s
             = negb ((frame_index cfg <=? idx) && (idx <=? total_frames cfg - 1)) in
  let grown (cfg' : Config) :=
    ∃ s, shapes cfg' = shapes cfg ++ [s] ∧ ranged s in
  (shapes (on_mouse_up cfg g img_h img_w px py).1 = shapes cfg
   ∨ grown (on_mouse_up cfg g img_h img_w px py).1)
  ∧ (shapes (on_double_click cfg g).1 = shapes cfg
     ∨ grown (on_double_click cfg g).1)
  ∧ (drawing g = true → drawing_crop g = false →
     current_shape_type g = "rectangle" →
     grown (on_mouse_up cfg g img_h img_w px py).1)
  ∧ (drawing g = true → drawing_crop g = false →
     current_shape_type g = "freehand" →
     (2 < length (current_shape g))%nat →
     grown (on_mouse_up cfg g img_h img_w px py).1)
  ∧ (drawing g = true → current_shape_type g = "polygon" →
     (3 ≤ length (current_shape g))%nat →
     grown (on_double_click cfg g).1)
  ∧ ∀ s, shape_len s < 7 ↔ ∀ idx, shape_skipped idx s = false.
Proof.
  intros ranged grown.
  assert (∀ kind pts mt,
    ranged (mkShape kind pts mt (blur_strength cfg) (mask_color cfg)
              [frame_index cfg; total_frames cfg - 1])) as Hranged.
  { intros kind pts mt. unfold ranged, shape_len, shape_skipped. simpl.
    split_and!; [done..|]. intros idx.
    destruct (Z.ltb_spec idx (frame_index cfg)),
             (Z.ltb_spec (total_frames cfg - 1) idx),
             (Z.leb_spec (frame_index cfg) idx),
             (Z.leb_spec idx (total_frames cfg - 1)); simpl; (done || lia). }
  assert (∀ cfg', appends_ranged_shape cfg cfg' →
    shapes cfg' = shapes cfg ∨ grown cfg') as Hcases.
  { intros cfg' [Hsame|(kind & pts & mt & Happ)]; [by left|right].
    eexists. split; [exact Happ|apply Hranged]. }
  split_and!.
  - apply Hcases, on_mouse_up_appends.
  - apply Hcases, on_double_click_appends.
  - intros Hd Hc Ht. unfold on_mouse_up. rewrite Hd, Hc, Ht. simpl.
    eexists. split; [reflexivity|apply Hranged].
  - intros Hd Hc Ht Hlen. unfold on_mouse_up. rewrite Hd, Hc, Ht. simpl.
    replace (2 <? Z.of_nat (length (current_shape g))) with true
      by (symmetry; apply Z.ltb_lt; lia).
    eexists. split; [reflexivity|apply Hranged].
  - intros Hd Ht Hlen. unfold on_double_click. rewrite Hd, Ht. simpl.
    replace (3 <=? Z.of_nat (length (current_shape g))) with true
      by (symmetry; apply Z.leb_le; lia).
    eexists. split; [reflexivity|apply Hranged].
  - intros s. unfold shape_skipped, shape_len. split.
    + intros Hlt idx.
      by replace (7 <=? 5 + Z.of_nat (length (frame_fields s))) with false
        by (symmetry; apply Z.leb_gt; lia).
    + intros Hnever.
      destruct (Z.leb_spec 7 (5 + Z.of_nat (length (frame_fields s))))
        as [Hge|Hlt]; [|lia].
      destruct (frame_fields s) as [|lo [|hi rest]]; simpl in Hge; try lia.
      specialize (Hnever (hi + 1)). apply orb_false_elim in Hnever as [_ Hhi].
      apply Z.ltb_ge in Hhi. lia.
Qed.

End Authoring.



(** ** Telemetry *)

Section TelemetryProps.

(** A face seen again gets the new frame appended and the new box stored;
    the confidence recorded at its first appearance stays. *)
Lemma record_face_seen_again idx frame_faces faces f r :
  faces !! str (face_id f) = Some r →
  (record_face idx (frame_faces, faces) f).2 !! str (face_id f)
  = Some (mkFaceRecord (fr_frames r ++ [idx])
            [(bbox f).1.1.1; (bbox f).1.1.2; (bbox f).1.2; (bbox f).2]
            (fr_confidence r)).
Proof.
  intros Hseen. unfold record_face.
  destruct (bbox f) as [[[x y] w] h]. rewrite Hseen. simpl.
  by rewrite lookup_insert_eq.
Qed.

Lemma record_face_first_seen idx frame_faces faces f :
  faces !! str (face_id f) = None →
  (record_face idx (frame_faces, faces) f).2 !! str (face_id f)
  = Some (mkFaceRecord [idx]
            [(bbox f).1.1.1; (bbox f).1.1.2; (bbox f).1.2; (bbox f).2]
            (conf_float (confidence f))).
Proof.
  intros Hnew. unfold record_face.
  destruct (bbox f) as [[[x y] w] h]. rewrite Hnew. simpl.
  by rewrite lookup_insert_eq.
Qed.

End TelemetryProps.

(** ** The concrete capture *)

Lemma frame_no_shape i : has_shape 2 2 (Demo.frame_no i).
Proof. split; [done|]. by repeat constructor. Qed.


(** * The claims on concrete runs *)

Section Concrete.
Import Demo.

(** C4, the code at a failing input. Exporting frames 0 to 3 with face
    detection active, face 7 is detected with confidence 0.9 on frame 0 and
    with confidence 0.5 on frame 3.  After the run the record of face 7
    lists the four frames and holds the box of frame 3, but its confidence
    is still 0.9, while the tracks of the last frame carry 0.5. *)
Theorem telemetry_confidence_stays_at_first_seen :
  let run :=
    process_video (cv := Demo.cv) (ft := tracker) (enc := enc_any)
      (cnv := canvas)
      (state 0 [] true false "traditional" 0 true true 0 3) video fresh in
  (final run ≫= λ p, tel_faces (telemetry p.1) !! "7")
  = Some (mkFaceRecord [0; 1; 2; 3] [3; 0; 1; 1] (9 # 10)%Q)
  ∧ (tracked_faces ∘ session ∘ fst <$> final run)
    = Some [mkFace 7 (3, 0, 1, 1) (Some (1 # 2)%Q) 0]
  ∧ (final run ≫= λ p, tel_frames (telemetry p.1) !! "3")
    = Some [mkFaceData 7 [3; 0; 1; 1] (1 # 2)%Q].
Proof. vm_compute. done. Qed.

(** C1, counterexample. With a traditional crop of region [(0, 0, 1, 1)] in
    effect and nothing else, the preview returns the 2 by 2 frame unchanged
    and the export iteration for the same frame returns its 1 by 1 corner.
    And with face detection on and a track present, the preview of frame 10
    blacks out the old track's box, while the export iteration for frame 10
    that opens a run detects anew and blacks out nothing of this frame. *)
Lemma preview_differs_from_export :
  process_frame (cv := Demo.cv) (ft := tracker)
    (state 0 [] false true "traditional" 0 true false 0 0) fresh (frame_no 5)
  = (fresh, Ok (frame_no 5))
  ∧ (export_frame (cv := Demo.cv) (ft := tracker)
       (state 0 [] false true "traditional" 0 true false 0 0) 2 2 0 0
       fresh no_telemetry (frame_no 5)).2
    = Ok [[(5, 10, 20)]]
  ∧ process_frame (cv := Demo.cv) (ft := tracker)
      (state 10 [] true false "traditional" 0 true false 0 0) tracking
      (frame_no 10)
    = (tracking, Ok [[(10, 10, 20); (10, 30, 40)]; [(10, 50, 60); (0, 0, 0)]])
  ∧ (export_frame (cv := Demo.cv) (ft := tracker)
       (state 10 [] true false "traditional" 0 true false 0 0) 2 2 10 0
       tracking no_telemetry (frame_no 10)).2
    = Ok (frame_no 10).
Proof. vm_compute. done. Qed.

(** C3, counterexample. When no codec opens for a [.mp4] path, writers are
    constructed for [avc1], [mp4v], [XVID] and [H264]: after the preferred
    codec three candidates are attempted, and [avc1] is not among them. *)
Lemma avc1_is_not_attempted_again :
  (get_video_writer (enc := enc_none) "out/processed_clip.mp4" 2 2).1
  = ["avc1"; "mp4v"; "XVID"; "H264"]
  ∧ bool_decide
      ((get_video_writer (enc := enc_none) "out/processed_clip.mp4" 2 2).1
       = "avc1" :: fallback_codecs) = false.
Proof. vm_compute. done. Qed.

(** C5, counterexample. Exporting frames 0 to 2 of a capture whose frame 1
    cannot be read: the loop is left by the failed read after one frame, the
    run sets the completion message of a full run, and the redraw of frame 0
    that ends the call replaces it with the frame counts.  No status reports
    a failure. *)
Lemma failed_read_is_reported_as_completed :
  let run :=
    process_video (cv := Demo.cv) (ft := tracker) (enc := enc_any)
      (cnv := canvas)
      (oval_state 0 [] false false "traditional" 0 true true 0 2) damaged
      fresh in
  cap_read damaged 1 = None
  ∧ ((λ p, (p.2, frame_count p.1, length (written p.1))) <$> final run)
    = Some (ReadFailed, 1, 1%nat)
  ∧ statuses run
    = [Completed "out/processed_clip.mp4"; FrameStatus 1 100 0 0]
  ∧ existsb is_failure_notice (statuses run) = false.
Proof. vm_compute. done. Qed.

(** C6, counterexample. Exporting frames 10 to 12 with tracks already
    present and a detection frequency of 3: detection runs once, on frame
    10, the first frame of the run, although 10 mod 3 is 1; it does not run
    on frame 12, where the frame index is a multiple of 3. *)
Lemma export_detects_on_first_frame_of_run :
  let run :=
    process_video (cv := Demo.cv) (ft := tracker) (enc := enc_any)
      (cnv := canvas)
      (state 0 [] true false "traditional" 0 true true 10 12) video tracking in
  length (tracked_faces tracking) = 1%nat
  ∧ 10 `mod` 3 = 1
  ∧ 12 `mod` 3 = 0
  ∧ (det ∘ session ∘ fst <$> final run) = Some [10].
Proof. vm_compute. done. Qed.

End Concrete.

(** * Witnesses: the theorems at concrete inputs *)

Section Witnesses.
Import Demo.

(** C7 at a 2 by 2 frame, a diagonal mask and the blur effect: the two
    pixels off the diagonal, where the mask is 0, are those of the input. *)
Lemma apply_mask_effect_outside_mask_witness :
  ∃ r, apply_mask_effect (cv := Demo.cv) (frame_no 7) [[255; 0]; [0; 255]]
         "blur" 21 (0, 0, 0) = Ok r
       ∧ has_shape 2 2 r
       ∧ at_ r 0 1 = Some (7, 30, 40)
       ∧ at_ r 1 0 = Some (7, 50, 60).
Proof.
  destruct (apply_mask_effect_outside_mask (cv := Demo.cv) (frame_no 7)
              [[255; 0]; [0; 255]] "blur" 21 (0, 0, 0))
    as (Hout & Hreturns).
  destruct (Hreturns 2 2)%nat as (r & Hr & Hshape).
  - apply frame_no_shape.
  - split; [reflexivity|]. repeat constructor.
  - reflexivity.
  - exists r. split_and!; [done..| |].
    + by rewrite (Hout r 0 1 Hr)%nat.
    + by rewrite (Hout r 1 0 Hr)%nat.
Defined.


(** C5 at a capture whose frame 1 cannot be read, exporting frames 0 to 2
    with face detection on. *)
Lemma read_failure_reported_as_completion_witness :
  let cfg := oval_state 0 [] true false "traditional" 0 true true 0 2 in
  let run := process_video (cv := Demo.cv) (ft := tracker) (enc := enc_any)
               (cnv := canvas) cfg damaged fresh in
  let shown := final_redraw (cv := Demo.cv) (cnv := canvas) cfg damaged in
  ∃ r saved,
    final run = Some (r, ReadFailed)
    ∧ current_frame_idx r = 1
    ∧ frame_count r = 1 - (frame_range cfg).1
    ∧ Z.of_nat (length (written r)) + errors r = 1 - (frame_range cfg).1
    ∧ released run = true
    ∧ redraw run = Some (shown r)
    ∧ statuses run
      = saved ++ [completion r (output_file "in/clip.mp4" "out")]
          ++ shown_statuses (shown r)
    ∧ existsb is_failure_notice
        (saved ++ [completion r (output_file "in/clip.mp4" "out")]) = false
    ∧ existsb is_failure_notice (statuses run) = false
    ∧ last (statuses run)
      = match shown_raised (shown r) with
        | Some _ => Some (completion r (output_file "in/clip.mp4" "out"))
        | None =>
            Some (FrameStatus 1 100 0
                    (Z.of_nat
                       (length (tracked_faces (shown_session (shown r))))))
        end.
Proof.
  apply (read_failure_reported_as_completion (cv := Demo.cv) (ft := tracker)
           (enc := enc_any) (cnv := canvas)
           (oval_state 0 [] true false "traditional" 0 true true 0 2)
           damaged fresh 2 2 "in/clip.mp4" "out" 1);
    try (vm_compute; reflexivity).
  - simpl. lia.
  - simpl. intros i Hi. assert (i = 0) as -> by lia.
    exists (frame_no 0). split; [reflexivity|apply frame_no_shape].
Defined.

(** C3 at an encoder for which only [XVID] opens, and at one for which
    nothing opens. *)
Lemma mp4_fallback_order_witness :
  get_video_writer (enc := enc_xvid) "out/processed_clip.mp4" 2 2
  = (["avc1"; "mp4v"; "XVID"], mkWriter "XVID" true)
  ∧ get_video_writer (enc := enc_none) "out/processed_clip.mp4" 2 2
    = (["avc1"; "mp4v"; "XVID"; "H264"], mkWriter "H264" false)
  ∧ process_video (cv := Demo.cv) (ft := tracker) (enc := enc_none)
      (cnv := canvas)
      (state 0 [] false false "traditional" 0 true false 0 0) video fresh
    = mkReport [FailedToCreateOutput] ["avc1"; "mp4v"; "XVID"; "H264"]
        None None false None.
Proof.
  split_and!.
  - apply (mp4_fallback_order (cv := Demo.cv) (ft := tracker) (enc := enc_xvid)
             (cnv := canvas) "out/processed_clip.mp4" 2 2); reflexivity.
  - apply (mp4_fallback_order (cv := Demo.cv) (ft := tracker) (enc := enc_none)
             (cnv := canvas) "out/processed_clip.mp4" 2 2); reflexivity.
  - apply (proj2 (mp4_fallback_order (cv := Demo.cv) (ft := tracker)
                    (enc := enc_none) (cnv := canvas)
                    "out/processed_clip.mp4" 2 2
                    eq_refl eq_refl)
             _ _ _ "in/clip.mp4" "out"); reflexivity.
Defined.

(** C6 at a session with detection enabled and tracks present: previewing
    frame 4 reuses the tracks; the first iteration of an export that starts
    at frame 10 runs detection; and two iterations into that export the
    counters stand at frame 12 and 2. *)
Lemma detection_cadence_witness :
  let cfg := state 4 [] true false "traditional" 0 true true 10 20 in
  (process_frame (cv := Demo.cv) (ft := tracker) cfg tracking (frame_no 4)).1
  = tracking
  ∧ (export_frame (cv := Demo.cv) (ft := tracker) cfg 2 2 10 0 tracking
       no_telemetry (frame_no 10)).1.1
    = mkSession (ft := tracker)
        [mkFace 7 (10, 0, 1, 1) (Some (9 # 10)%Q) 4] [10]
  ∧ ∃ r, export_loop (cv := Demo.cv) (ft := tracker) (enc := enc_any) 2 cfg
           video 20 (mkRun 10 0 0 [] tracking no_telemetry)
         = (r, Unfinished)
         ∧ current_frame_idx r = 10 + Z.of_nat 2
         ∧ frame_count r = current_frame_idx r - 10.
Proof.
  destruct (detection_cadence (cv := Demo.cv) (ft := tracker) (enc := enc_any)
              (state 4 [] true false "traditional" 0 true true 10 20)
              eq_refl eq_refl) as (Hpreview & Hexport & Hloop).
  split_and!.
  - by rewrite Hpreview.
  - by rewrite Hexport.
  - destruct (export_loop (cv := Demo.cv) (ft := tracker) (enc := enc_any) 2
                (state 4 [] true false "traditional" 0 true true 10 20)
                video 20 (mkRun 10 0 0 [] tracking no_telemetry))
      as [r exit] eqn:Hrun.
    assert (exit = Unfinished) as ->.
    { apply (f_equal snd) in Hrun. vm_compute in Hrun. by subst exit. }
    exists r. split; [done|]. by apply (Hloop video 20 10 tracking no_telemetry).
Defined.

(** C1 at a session with a black rectangle, a mask crop and detection due
    in both paths (frame 3 in the preview, first frame of the run in the
    export). *)
Lemma preview_matches_export_when_stages_agree_witness :
  let cfg :=
    state 3 [mkShape "rectangle" [(0, 0); (0, 1)] "black" 21 (0, 0, 0) [0; 99]]
      true true "mask" 0 true false 0 0 in
  process_frame (cv := Demo.cv) (ft := tracker) cfg tracking (frame_no 3)
  = ((export_frame (cv := Demo.cv) cfg (Img.width (frame_no 3))
        (Img.height (frame_no 3)) (frame_index cfg) 0 tracking no_telemetry
        (frame_no 3)).1.1,
     (export_frame (cv := Demo.cv) cfg (Img.width (frame_no 3))
        (Img.height (frame_no 3)) (frame_index cfg) 0 tracking no_telemetry
        (frame_no 3)).2).
Proof.
  apply (preview_matches_export_when_stages_agree (cv := Demo.cv)
           (ft := tracker)
           (state 3 [mkShape "rectangle" [(0, 0); (0, 1)] "black" 21 (0, 0, 0)
                       [0; 99]]
              true true "mask" 0 true false 0 0)
           tracking no_telemetry (frame_no 3) 0).
  - reflexivity.
  - intros _. reflexivity.
Defined.

(** C10 at a rectangle finished at frame 5 of a 100-frame video: the shape
    appended ranges over frames 5 to 99. *)
Lemma gesture_shapes_carry_frame_range_witness :
  ∃ s, shapes (on_mouse_up (state 5 [] false false "traditional" 0 true false 0 0)
                 (mkGesture true false [(1, 1)] "rectangle" "blur") 2 2 1 0).1
       = [s]
       ∧ shape_len s = 7
       ∧ frame_fields s = [5; 99]
       ∧ shape_skipped 4 s = true
       ∧ shape_skipped 5 s = false
       ∧ shape_skipped 99 s = false
       ∧ shape_skipped 100 s = true.
Proof.
  destruct (gesture_shapes_carry_frame_range
              (state 5 [] false false "traditional" 0 true false 0 0)
              (mkGesture true false [(1, 1)] "rectangle" "blur") 2 2 1 0)
    as (_ & _ & Hrect & _).
  destruct (Hrect eq_refl eq_refl eq_refl)
    as (s & Hshapes & Hlen & Hfields & Hskip).
  exists s. split_and!; [done..| | | |]; by rewrite Hskip.
Defined.

End Witnesses.

(** * Further properties of the compositor *)

(** ** Reading pixels of constructed arrays *)

Section Pixels.

Lemma at_imap2 {A} (f : nat → nat → A → A) (a : list (list A)) i j :
  at_ (imap (λ i row, imap (f i) row) a) i j = f i j <$> at_ a i j.
Proof.
  unfold at_. rewrite list_lookup_imap.
  destruct (a !! i) as [row|]; simpl; [|done].
  by rewrite list_lookup_imap.
Qed.

Lemma at_replicate2 {A} (h w : nat) (v : A) i j :
  at_ (replicate h (replicate w v)) i j
  = if bool_decide (i < h ∧ j < w)%nat then Some v else None.
Proof.
  unfold at_. destruct (decide (i < h)%nat) as [Hi|Hi].
  - rewrite lookup_replicate_2 by done. simpl.
    destruct (decide (j < w)%nat) as [Hj|Hj].
    + rewrite lookup_replicate_2 by done.
      by rewrite bool_decide_eq_true_2.
    + rewrite bool_decide_eq_false_2 by tauto.
      apply lookup_replicate_None. lia.
  - rewrite bool_decide_eq_false_2 by tauto.
    replace (replicate h (replicate w v) !! i) with (@None (list A)); [done|].
    symmetry. apply lookup_replicate_None. lia.
Qed.

Lemma at_cv2_rectangle m p1 p2 v i j :
  at_ (cv2_rectangle m p1 p2 v) i j
  = (λ old, if in_rect p1 p2 i j then v else old) <$> at_ m i j.
Proof.
  unfold cv2_rectangle.
  apply (at_imap2 (λ i j old, if in_rect p1 p2 i j then v else old)).
Qed.

(** [cv2.rectangle] takes its corners in any order. *)
Lemma in_rect_normalised x1 y1 x2 y2 i j :
  in_rect (x1 `min` x2, y1 `min` y2) (x1 `max` x2, y1 `max` y2) i j
  = in_rect (x1, y1) (x2, y2) i j.
Proof.
  unfold in_rect. simpl.
  replace ((x1 `min` x2) `min` (x1 `max` x2)) with (x1 `min` x2) by lia.
  replace ((x1 `min` x2) `max` (x1 `max` x2)) with (x1 `max` x2) by lia.
  replace ((y1 `min` y2) `min` (y1 `max` y2)) with (y1 `min` y2) by lia.
  replace ((y1 `min` y2) `max` (y1 `max` y2)) with (y1 `max` y2) by lia.
  done.
Qed.

Lemma in_rect_swap p1 p2 i j : in_rect p1 p2 i j = in_rect p2 p1 i j.
Proof.
  unfold in_rect. by rewrite (Z.min_comm p1.1), (Z.max_comm p1.1),
    (Z.min_comm p1.2), (Z.max_comm p1.2).
Qed.

Lemma in_rect_spec p1 p2 i j :
  in_rect p1 p2 i j = true ↔
  p1.1 `min` p2.1 ≤ Z.of_nat j ≤ p1.1 `max` p2.1
  ∧ p1.2 `min` p2.2 ≤ Z.of_nat i ≤ p1.2 `max` p2.2.
Proof.
  unfold in_rect. rewrite !andb_true_iff, !Z.leb_le. tauto.
Qed.

(** Two arrays of one shape with the same entries are the same array. *)
Lemma same_entries {A} h w (a b : list (list A)) :
  has_shape h w a → has_shape h w b →
  (∀ i j, at_ a i j = at_ b i j) → a = b.
Proof.
  intros [Ha Hwa] [Hb Hwb] Hat. apply list_eq. intros i.
  destruct (a !! i) as [ra|] eqn:Hra, (b !! i) as [rb|] eqn:Hrb.
  - f_equal. apply list_eq. intros j.
    specialize (Hat i j). unfold at_ in Hat. by rewrite Hra, Hrb in Hat.
  - apply lookup_lt_Some in Hra. apply lookup_ge_None in Hrb. lia.
  - apply lookup_lt_Some in Hrb. apply lookup_ge_None in Hra. lia.
  - done.
Qed.

End Pixels.

(** ** What the fill effects write *)

Section Fills.
Context `{cv : OpenCV}.

Lemma np_where0_pixel m y r i j c :
  np_where0 m y = Ok r → at_ m i j = Some c →
  at_ r i j = if c =? 255 then Some black_px else at_ y i j.
Proof.
  intros H Hm. unfold at_ in *.
  destruct (m !! i) as [mr|] eqn:Hi; simpl in Hm; try discriminate.
  destruct (np_where0_lookup _ _ _ H) as [_ Hrow].
  destruct (Hrow _ _ Hi) as (yr & rr & Hy & Hr & Hw).
  rewrite Hy, Hr. simpl.
  destruct (where_row0_lookup _ _ _ Hw) as [_ Hcol].
  destruct (Hcol _ _ Hm) as (b & Hb & Hrj).
  rewrite Hb, Hrj. unfold choose. by destruct (c =? 255).
Qed.

Lemma np_where_pixel m x y r i j c :
  np_where m x y = Ok r → at_ m i j = Some c →
  at_ r i j = if c =? 255 then at_ x i j else at_ y i j.
Proof.
  intros H Hm. unfold at_ in *.
  destruct (m !! i) as [mr|] eqn:Hi; simpl in Hm; try discriminate.
  destruct (np_where_lookup _ _ _ _ H) as [_ Hrow].
  destruct (Hrow _ _ Hi) as (xr & yr & rr & Hx & Hy & Hr & Hw).
  rewrite Hx, Hy, Hr. simpl.
  destruct (where_row_lookup _ _ _ _ Hw) as [_ Hcol].
  destruct (Hcol _ _ Hm) as (a & b & Ha & Hb & Hrj).
  rewrite Ha, Hb, Hrj. unfold choose. by destruct (c =? 255).
Qed.

Lemma at_filled_like frame color i j :
  at_ (filled_like frame color) i j
  = (λ _, (to_uint8 color.1.1, to_uint8 color.1.2, to_uint8 color.2))
      <$> at_ frame i j.
Proof.
  destruct color as [[c0 c1] c2]. unfold filled_like, at_. simpl.
  rewrite list_lookup_fmap. destruct (frame !! i) as [row|]; simpl; [|done].
  by rewrite list_lookup_fmap.
Qed.

(** X1. In every frame the [black] effect returns, a pixel is [(0, 0, 0)]
    where the mask is 255 and the input pixel elsewhere; in every frame the
    [solid] effect returns, it is the color, each channel reduced modulo
    256, where the mask is 255 and the input pixel elsewhere. *)
Theorem fill_effects_pixelwise frame mask s color r i j c :
  at_ mask i j = Some c →
  (apply_mask_effect frame mask "black" s color = Ok r →
   at_ r i j = if c =? 255 then Some (0, 0, 0) else at_ frame i j)
  ∧ (apply_mask_effect frame mask "solid" s color = Ok r →
     at_ r i j = if c =? 255
                 then Some (color.1.1 `mod` 256, color.1.2 `mod` 256,
                            color.2 `mod` 256)
                 else at_ frame i j).
Proof.
  intros Hm. unfold apply_mask_effect. simpl. split; intros H.
  - by rewrite (np_where0_pixel _ _ _ _ _ _ H Hm).
  - rewrite (np_where_pixel _ _ _ _ _ _ _ H Hm).
    destruct (c =? 255); [|done].
    rewrite at_filled_like.
    destruct (np_where_lookup _ _ _ _ H) as [_ Hrow].
    unfold at_ in Hm |- *.
    destruct (mask !! i) as [mr|] eqn:Hi; simpl in Hm; try discriminate.
    destruct (Hrow _ _ Hi) as (xr & yr & rr & _ & Hy & _ & Hw).
    rewrite Hy. simpl.
    destruct (where_row_lookup _ _ _ _ Hw) as [_ Hcol].
    destruct (Hcol _ _ Hm) as (a & b & _ & Hb & _).
    by rewrite Hb.
Qed.

End Fills.

(** ** The face stage under rotation *)

Section RotatedFaces.
Context `{cv : OpenCV} `{ft : FaceTracker}.

(** The session and the telemetry one export iteration leaves behind. *)
Lemma export_frame_state cfg width height idx count s t frame :
  (export_frame cfg width height idx count s t frame).1
  = if auto_detect_faces cfg && rtmpose_initialized cfg
    then
      let s' := refresh_faces cfg count s frame in
      (s', if bool_decide (tracked_faces s' = []) then t
           else store_tracking idx (tracked_faces s') t)
    else (s, t).
Proof.
  unfold export_frame.
  destruct (auto_detect_faces cfg && rtmpose_initialized cfg); [|done].
  cbv zeta. by destruct (bool_decide _).
Qed.

Lemma face_effect_pixels frame mask mask_type strength color faced :
  apply_mask_effect frame mask mask_type strength color = Ok faced →
  (∀ i j c, at_ mask i j = Some c → c ≠ 255 →
            at_ faced i j = at_ frame i j)
  ∧ (mask_type = "black" →
     ∀ i j, at_ mask i j = Some 255 → at_ faced i j = Some (0, 0, 0)).
Proof.
  intros H. split.
  - intros i j c Hm Hc. by eapply apply_mask_effect_unselected.
  - intros -> i j Hm. unfold apply_mask_effect in H. simpl in H.
    by rewrite (np_where0_pixel _ _ _ _ _ _ H Hm).
Qed.

(** C9. With rotation enabled at a nonzero angle and auto face detection
    active, in the preview as in the export:
    - the tracks (and the telemetry of the export) are those of the same
      call with the rotation switch off, and when detection is due they are
      what the detector reports on the raw frame;
    - whenever the call returns a frame and there are tracks, the face mask
      is drawn from these tracks on a canvas of the raw frame's shape, it is
      the mask the call with the rotation switch off applies to the raw
      frame, and here it is applied to the rotated frame: off the mask the
      frame that leaves the face stage is the rotated frame, and on the
      mask it is black under the [black] effect; the later stages work on
      that frame;
    - the call does return a frame on a well-formed session. *)
Theorem face_mask_in_unrotated_space cfg s t frame width height idx count :
  rotation_enabled cfg = true → rotation_angle cfg ≠ 0 →
  auto_detect_faces cfg = true → rtmpose_initialized cfg = true →
  let rotated := warp_rotate frame (rotation_angle cfg) in
  let plain := rotation_off cfg in
  let preview := (process_frame cfg s frame).1 in
  let export := (export_frame cfg width height idx count s t frame).1.1 in
  preview = (process_frame plain s frame).1
  ∧ (export_frame cfg width height idx count s t frame).1
    = (export_frame plain width height idx count s t frame).1
  ∧ (detection_due cfg (frame_index cfg) s = true →
     tracked_faces preview
     = (pose_and_track (det s) (frame_index cfg) frame).1)
  ∧ (detection_due cfg count s = true →
     tracked_faces export
     = (pose_and_track (det s) (frame_index cfg) frame).1)
  ∧ (∀ out,
       tracked_faces preview ≠ [] →
       (process_frame cfg s frame).2 = Ok out →
       ∃ mask faced,
         create_face_mask cfg (tracked_faces preview) frame = Ok mask
         ∧ apply_mask_effect rotated mask (mask_type cfg) (blur_strength cfg)
             (mask_color cfg) = Ok faced
         ∧ (∀ i j c, at_ mask i j = Some c → c ≠ 255 →
                     at_ faced i j = at_ rotated i j)
         ∧ (mask_type cfg = "black" →
            ∀ i j, at_ mask i j = Some 255 → at_ faced i j = Some (0, 0, 0))
         ∧ (do result <- apply_shapes (Img.height frame) (Img.width frame)
                           (frame_index cfg) (shapes cfg) faced;
            preview_crop cfg frame result) = Ok out
         ∧ (process_frame plain s frame).2
           = (do faced <- apply_mask_effect frame mask (mask_type cfg)
                            (blur_strength cfg) (mask_color cfg);
              do result <- apply_shapes (Img.height frame) (Img.width frame)
                             (frame_index cfg) (shapes cfg) faced;
              preview_crop cfg frame result))
  ∧ (∀ out,
       tracked_faces export ≠ [] →
       (export_frame cfg width height idx count s t frame).2 = Ok out →
       ∃ mask faced,
         create_face_mask cfg (tracked_faces export) frame = Ok mask
         ∧ apply_mask_effect rotated mask (mask_type cfg) (blur_strength cfg)
             (mask_color cfg) = Ok faced
         ∧ (∀ i j c, at_ mask i j = Some c → c ≠ 255 →
                     at_ faced i j = at_ rotated i j)
         ∧ (mask_type cfg = "black" →
            ∀ i j, at_ mask i j = Some 255 → at_ faced i j = Some (0, 0, 0))
         ∧ (do result <- apply_shapes height width idx (shapes cfg) faced;
            export_crop cfg width height idx result) = Ok out
         ∧ (export_frame plain width height idx count s t frame).2
           = (do faced <- apply_mask_effect frame mask (mask_type cfg)
                            (blur_strength cfg) (mask_color cfg);
              do result <- apply_shapes height width idx (shapes cfg) faced;
              export_crop cfg width height idx result))
  ∧ (∀ h w : nat,
       (0 < h)%nat → has_shape h w frame →
       config_ready (Z.of_nat h) (Z.of_nat w) cfg = true →
       detector_ready cfg →
       detection_due cfg (frame_index cfg) s = true
       ∨ forallb (face_ready (mask_shape cfg)) (tracked_faces s) = true →
       ∃ out, (process_frame cfg s frame).2 = Ok out)
  ∧ (∀ h w : nat,
       width = Z.of_nat w → height = Z.of_nat h → has_shape h w frame →
       config_ready (Z.of_nat h) (Z.of_nat w) cfg = true →
       detector_ready cfg →
       detection_due cfg count s = true
       ∨ forallb (face_ready (mask_shape cfg)) (tracked_faces s) = true →
       ∃ out, (export_frame cfg width height idx count s t frame).2 = Ok out).
Proof.
  intros Hrot Hangle Hauto Hinit rotated plain preview export.
  assert ((rotation_angle cfg =? 0) = false) as Hz by by apply Z.eqb_neq.
  assert (preview = refresh_faces cfg (frame_index cfg) s frame) as Hpreview.
  { unfold preview. by rewrite process_frame_session, Hauto, Hinit. }
  assert (export = refresh_faces cfg count s frame) as Hexport.
  { unfold export. by rewrite export_frame_state, Hauto, Hinit. }
  assert (∀ counter, detection_due cfg counter s = true →
    tracked_faces (refresh_faces cfg counter s frame)
    = (pose_and_track (det s) (frame_index cfg) frame).1) as Hdetect.
  { intros counter Hdue. unfold refresh_faces, detect_faces.
    rewrite Hdue, Hinit. simpl. by destruct (pose_and_track _ _ _). }
  split_and!.
  - unfold preview, plain. rewrite !process_frame_session. reflexivity.
  - unfold plain. rewrite !export_frame_state. reflexivity.
  - rewrite Hpreview. apply Hdetect.
  - rewrite Hexport. apply Hdetect.
  - intros out Hfaces Hout. rewrite Hpreview in Hfaces |- *.
    unfold plain, process_frame in Hout |- *.
    rewrite Hrot, Hauto, Hinit, Hz in Hout. simpl in Hout |- *.
    rewrite Hauto, Hinit. simpl.
    unfold rotate_frame in Hout. rewrite Hz in Hout. fold rotated in Hout.
    rewrite bool_decide_eq_false_2 in Hout |- * by done.
    simpl in Hout |- *. inv_ok.
    match goal with
    | Hm : create_face_mask cfg _ frame = Ok ?m,
      He : apply_mask_effect rotated ?m _ _ _ = Ok ?f |- _ =>
        exists m, f;
        destruct (face_effect_pixels _ _ _ _ _ _ He) as [Hoff Hon]
    end.
    split_and!; try done.
    { match goal with
      | Hs : apply_shapes _ _ _ _ _ = Ok _ |- _ => by rewrite Hs
      end. }
    match goal with
    | Hm : create_face_mask cfg ?tr frame = Ok _
      |- context [create_face_mask (rotation_off cfg) ?tr' frame] =>
        change (create_face_mask (rotation_off cfg) tr' frame)
          with (create_face_mask cfg tr frame);
        by rewrite Hm
    end.
  - intros out Hfaces Hout. rewrite Hexport in Hfaces |- *.
    unfold plain, export_frame in Hout |- *.
    rewrite Hrot, Hauto, Hinit, Hz in Hout. simpl in Hout |- *.
    rewrite Hauto, Hinit. simpl.
    unfold rotate_frame in Hout. rewrite Hz in Hout. fold rotated in Hout.
    rewrite bool_decide_eq_false_2 in Hout |- * by done.
    simpl in Hout |- *. inv_ok.
    match goal with
    | Hm : create_face_mask cfg _ frame = Ok ?m,
      He : apply_mask_effect rotated ?m _ _ _ = Ok ?f |- _ =>
        exists m, f;
        destruct (face_effect_pixels _ _ _ _ _ _ He) as [Hoff Hon]
    end.
    split_and!; try done.
    { match goal with
      | Hs : apply_shapes _ _ _ _ _ = Ok _ |- _ => by rewrite Hs
      end. }
    match goal with
    | Hm : create_face_mask cfg ?tr frame = Ok _
      |- context [create_face_mask (rotation_off cfg) ?tr' frame] =>
        change (create_face_mask (rotation_off cfg) tr' frame)
          with (create_face_mask cfg tr frame);
        by rewrite Hm
    end.
  - intros h w Hpos Hf Hready Hdet Hkept.
    by apply (process_frame_total h w).
  - intros h w -> -> Hf Hready Hdet Hkept.
    by apply (export_frame_total h w).
Qed.

End RotatedFaces.

(** C9 at a rotation of 90 degrees, which the stand-in kernel renders as a
    horizontal flip, on the frame whose columns differ.  The detector is
    handed the raw frame, whose top-left pixel names column 0, and not the
    rotated frame, whose top-left pixel names column 1: the mask is 255 at
    row 0, column 0.  The rotated frame is blacked there, and the pixel the
    detector found, now at row 0, column 1, goes through. *)
Lemma face_mask_in_unrotated_space_witness :
  let cfg := Demo.oval_state 3 [] true false "traditional" 90 true false 0 0 in
  let rotated := warp_rotate (OpenCV := Demo.cv) Demo.striped 90 in
  let preview :=
    process_frame (cv := Demo.cv) (ft := Demo.spotter) cfg Demo.watching
      Demo.striped in
  rotated = [[(1, 30, 40); (0, 10, 20)]; [(1, 70, 80); (0, 50, 60)]]
  ∧ tracked_faces preview.1 = [mkFace 1 (0, 0, 0, 0) (Some 1%Q) 3]
  ∧ det preview.1 = [0]
  ∧ preview.2 = Ok [[(0, 0, 0); (0, 10, 20)]; [(1, 70, 80); (0, 50, 60)]]
  ∧ ∃ mask faced,
      create_face_mask (cv := Demo.cv) cfg (tracked_faces preview.1)
        Demo.striped = Ok mask
      ∧ mask = [[255; 0]; [0; 0]]
      ∧ apply_mask_effect (cv := Demo.cv) rotated mask "black" 21 (0, 0, 0)
        = Ok faced
      ∧ at_ faced 0 0 = Some (0, 0, 0)
      ∧ at_ faced 0 1 = at_ rotated 0 1
      ∧ at_ faced 1 0 = at_ rotated 1 0
      ∧ at_ faced 1 1 = at_ rotated 1 1.
Proof.
  destruct (face_mask_in_unrotated_space (cv := Demo.cv) (ft := Demo.spotter)
              (Demo.oval_state 3 [] true false "traditional" 90 true false 0 0)
              Demo.watching Demo.no_telemetry Demo.striped 2 2 3 0)
    as (_ & _ & _ & _ & Hpreview & _ & Hreturns & _);
    try (reflexivity || discriminate).
  destruct (Hreturns 2 2)%nat as (out & Hout); [lia| |reflexivity| |by left|].
  { split; [reflexivity|]. repeat constructor. }
  { intros _ d idx frame. reflexivity. }
  destruct (Hpreview out) as (mask & faced & Hmask & Hfaced & Hoff & Hon & _);
    [discriminate|exact Hout|].
  split_and!; try (vm_compute; reflexivity).
  assert (mask = [[255; 0]; [0; 0]]) as Hm.
  { vm_compute in Hmask. by injection Hmask as <-. }
  exists mask, faced. split_and!; try done.
  - apply Hon; [reflexivity|]. by rewrite Hm.
  - apply (Hoff 0%nat 1%nat 0); [by rewrite Hm|lia].
  - apply (Hoff 1%nat 0%nat 0); [by rewrite Hm|lia].
  - apply (Hoff 1%nat 1%nat 0); [by rewrite Hm|lia].
Defined.

(** ** Manual shapes *)

Section ShapeStage.
Context `{cv : OpenCV}.

Lemma at_zeros h w i j :
  at_ (zeros h w) i j
  = if bool_decide (i < Z.to_nat h ∧ j < Z.to_nat w)%nat then Some 0 else None.
Proof. apply at_replicate2. Qed.

(** X2. The mask of a rectangle shape on a canvas selects exactly the
    pixels of the canvas inside the inclusive rectangle spanned by the
    shape's first two points, and is 0 elsewhere; listing the two corners
    in the other order gives the same mask. *)
Theorem rectangle_mask_exact h w mt st col ff p q rest :
  ∃ m, shape_mask h w (mkShape "rectangle" (p :: q :: rest) mt st col ff) = Ok m
       ∧ shape_mask h w (mkShape "rectangle" (q :: p :: rest) mt st col ff) = Ok m
       ∧ ∀ i j,
           at_ m i j
           = if bool_decide (i < Z.to_nat h ∧ j < Z.to_nat w)%nat
             then Some (if bool_decide
                             (p.1 `min` q.1 ≤ Z.of_nat j ≤ p.1 `max` q.1
                              ∧ p.2 `min` q.2 ≤ Z.of_nat i ≤ p.2 `max` q.2)
                        then 255 else 0)
             else None.
Proof.
  destruct p as [x1 y1], q as [x2 y2]. unfold shape_mask. simpl.
  eexists. split; [reflexivity|]. split.
  - f_equal. unfold cv2_rectangle. apply imap_ext. intros i row _.
    apply imap_ext. intros j old _. simpl.
    by rewrite !in_rect_normalised, in_rect_swap.
  - intros i j. rewrite at_cv2_rectangle, at_zeros, in_rect_normalised.
    destruct (bool_decide (i < Z.to_nat h ∧ j < Z.to_nat w)%nat); simpl; [|done].
    f_equal. pose proof (in_rect_spec (x1, y1) (x2, y2) i j) as Hs.
    simpl in Hs.
    destruct (in_rect (x1, y1) (x2, y2) i j).
    + rewrite bool_decide_eq_true_2; [done|]. by apply Hs.
    + rewrite bool_decide_eq_false_2; [done|].
      intros Hin. by apply Hs in Hin.
Qed.

(** X3. A shape whose frame range excludes the frame index contributes
    nothing: the shape stage gives what it gives with the shape removed
    from the list. *)
Theorem inactive_shape_has_no_effect h w idx l1 s l2 lo hi rest result :
  frame_fields s = lo :: hi :: rest →
  idx < lo ∨ hi < idx →
  apply_shapes h w idx (l1 ++ s :: l2) result
  = apply_shapes h w idx (l1 ++ l2) result.
Proof.
  intros Hff Hout.
  assert (shape_skipped idx s = true) as Hskip.
  { unfold shape_skipped, shape_len. rewrite Hff. simpl length.
    replace (7 <=? 5 + Z.of_nat (S (S (length rest)))) with true
      by (symmetry; apply Z.leb_le; lia).
    apply orb_true_iff. rewrite !Z.ltb_lt. done. }
  revert result. induction l1 as [|s1 l1 IH]; intros result; simpl.
  - by rewrite Hskip.
  - destruct (shape_skipped idx s1); [apply IH|].
    apply rbind_ext. intros m. apply rbind_ext. intros r. apply IH.
Qed.

(** X4. Shapes are composited in list order: the shape stage of a
    concatenated list is the stage of the first part followed by the stage
    of the second part on its result, and raises what the first part
    raises. *)
Theorem shapes_composite_in_order h w idx l1 l2 result :
  apply_shapes h w idx (l1 ++ l2) result
  = rbind (apply_shapes h w idx l1 result) (apply_shapes h w idx l2).
Proof.
  revert result. induction l1 as [|s l1 IH]; intros result; simpl; [done|].
  destruct (shape_skipped idx s); [apply IH|].
  destruct (shape_mask h w s) as [m|e]; simpl; [|done].
  destruct (apply_mask_effect result m _ _ _) as [r|e]; simpl; [|done].
  apply IH.
Qed.

End ShapeStage.

(** ** The union of the face boxes *)

Section FaceMask.
Context `{cv : OpenCV}.

Lemma at_draw_face_rectangle mask f :
  ∃ m, draw_face "rectangle" mask f = Ok m
       ∧ ∀ i j, at_ m i j
                = (λ old, if in_face_box f i j then 255 else old)
                    <$> at_ mask i j.
Proof.
  unfold draw_face, in_face_box. destruct (bbox f) as [[[x y] w] h]. simpl.
  eexists. split; [done|]. intros i j. apply at_cv2_rectangle.
Qed.

Lemma at_draw_faces_rectangle tracked : ∀ mask,
  ∃ m, draw_faces "rectangle" mask tracked = Ok m
       ∧ ∀ i j, at_ m i j
                = (λ old, if existsb (λ f, in_face_box f i j) tracked
                          then 255 else old)
                    <$> at_ mask i j.
Proof.
  induction tracked as [|f tracked IH]; intros mask; cbn [draw_faces].
  { exists mask. split; [done|]. intros i j. by destruct (at_ mask i j). }
  destruct (at_draw_face_rectangle mask f) as (m1 & -> & H1).
  destruct (IH m1) as (m & Hm & Hat). cbn [rbind].
  exists m. split; [done|]. intros i j. rewrite Hat, H1. cbn [existsb].
  destruct (at_ mask i j); simpl; [|done].
  destruct (in_face_box f i j); simpl; [|done].
  by destruct (existsb _ tracked).
Qed.

(** X5. With the mask shape [rectangle], [create_face_mask] returns a mask,
    and that mask is 255 exactly on the pixels of the frame that lie in the
    box of some track, and 0 on the others: the union of the boxes, whatever
    the order of the tracks. *)
Theorem rectangle_face_mask_is_union cfg tracked frame i j :
  mask_shape cfg = "rectangle" →
  ∃ mask,
    create_face_mask cfg tracked frame = Ok mask
    ∧ at_ mask i j
      = if bool_decide (i < length frame ∧ j < Z.to_nat (width frame))%nat
        then Some (if existsb (λ f, in_face_box f i j) tracked then 255 else 0)
        else None.
Proof.
  intros Hshape. unfold create_face_mask. rewrite Hshape.
  destruct (at_draw_faces_rectangle tracked
              (zeros (height frame) (width frame))) as (m & -> & Hat).
  exists m. split; [done|].
  rewrite Hat, at_zeros.
  unfold height. rewrite Nat2Z.id.
  by destruct (bool_decide _).
Qed.

End FaceMask.

(** ** The crop stage of the export run *)

Section CropStage.
Context `{cv : OpenCV}.

Lemma slice_bound_inside n i : 0 ≤ i ≤ n → slice_bound n i = i.
Proof.
  intros Hi. unfold slice_bound.
  destruct (Z.ltb_spec i 0); lia.
Qed.

Lemma length_slice {A} (l : list A) lo hi :
  0 ≤ lo ≤ hi → hi ≤ Z.of_nat (length l) →
  length (slice l lo hi) = Z.to_nat (hi - lo).
Proof.
  intros Hlo Hhi. unfold slice.
  rewrite !slice_bound_inside by lia.
  rewrite length_take, length_drop. lia.
Qed.

Lemma lookup_slice {A} (l : list A) lo hi (k : nat) :
  0 ≤ lo ≤ hi → hi ≤ Z.of_nat (length l) →
  (k < Z.to_nat (hi - lo))%nat →
  slice l lo hi !! k = l !! (Z.to_nat lo + k)%nat.
Proof.
  intros Hlo Hhi Hk. unfold slice.
  rewrite !slice_bound_inside by lia.
  by rewrite lookup_take_lt, lookup_drop by done.
Qed.

Lemma slice2_shape {A} (h w : nat) (a : list (list A)) y hh x ww :
  has_shape h w a →
  0 ≤ y → 0 ≤ hh → y + hh ≤ Z.of_nat h →
  0 ≤ x → 0 ≤ ww → x + ww ≤ Z.of_nat w →
  has_shape (Z.to_nat hh) (Z.to_nat ww) (slice2 a y hh x ww).
Proof.
  intros [Hh Hw] ? ? ? ? ? ?. unfold slice2. split.
  - rewrite length_map, length_slice by lia. f_equal. lia.
  - apply Forall_fmap, Forall_forall. intros r Hr. simpl.
    assert (r ∈ a) as Hin.
    { unfold slice in Hr. eapply subseteq_drop, subseteq_take, Hr. }
    rewrite Forall_forall in Hw. specialize (Hw r Hin).
    rewrite length_slice by lia. f_equal. lia.
Qed.

Lemma at_slice2 {A} (h w : nat) (a : list (list A)) y hh x ww (i j : nat) :
  has_shape h w a →
  0 ≤ y → 0 ≤ hh → y + hh ≤ Z.of_nat h →
  0 ≤ x → 0 ≤ ww → x + ww ≤ Z.of_nat w →
  (i < Z.to_nat hh)%nat → (j < Z.to_nat ww)%nat →
  at_ (slice2 a y hh x ww) i j = at_ a (Z.to_nat y + i) (Z.to_nat x + j).
Proof.
  intros [Hh Hw] ? ? ? ? ? ? Hi Hj. unfold at_, slice2.
  rewrite list_lookup_fmap, lookup_slice by (rewrite ?Hh; lia).
  destruct (a !! (Z.to_nat y + i)%nat) as [r|] eqn:Hr; simpl; [|done].
  rewrite Forall_forall in Hw.
  specialize (Hw r (list_elem_of_lookup_2 _ _ _ Hr)).
  apply lookup_slice; lia.
Qed.

Lemma has_shape_unique {A} (h w h' w' : nat) (a : list (list A)) :
  has_shape h w a → has_shape h' w' a → (0 < h)%nat → h = h' ∧ w = w'.
Proof.
  intros [Hh Hw] [Hh' Hw'] Hpos. split; [congruence|].
  destruct a as [|r a]; simpl in *; [lia|].
  apply Forall_cons in Hw as [Hw _]. apply Forall_cons in Hw' as [Hw' _].
  congruence.
Qed.

(** X6. When a traditional crop is in effect on a frame of the export run
    (region set, frame in the crop's range), the frame handed to the writer
    is the sub-rectangle of the composited frame that starts at the clamped
    origin and extends over the crop size cut at the frame's border.  The
    writer was opened for the crop size itself; the frame has that size
    exactly when the region from the clamped origin fits in the frame. *)
Theorem traditional_crop_cuts_region (h w : nat) cfg idx frame cap :
  has_shape h w frame → (0 < h)%nat → (0 < w)%nat →
  crop_ready cfg = true → crop_type cfg = "traditional" →
  crop_all_frames cfg = true
  ∨ crop_start_frame cfg ≤ idx ≤ crop_end_frame cfg →
  let x := clamped_origin (Z.of_nat w) (crop_x cfg) in
  let y := clamped_origin (Z.of_nat h) (crop_y cfg) in
  let cw := crop_width cfg `min` (Z.of_nat w - x) in
  let ch := crop_height cfg `min` (Z.of_nat h - y) in
  ∃ r, export_crop cfg (Z.of_nat w) (Z.of_nat h) idx frame = Ok r
       ∧ has_shape (Z.to_nat ch) (Z.to_nat cw) r
       ∧ (∀ i j : nat, (i < Z.to_nat ch)%nat → (j < Z.to_nat cw)%nat →
            at_ r i j = at_ frame (Z.to_nat y + i) (Z.to_nat x + j))
       ∧ output_size cfg cap = (crop_width cfg, crop_height cfg)
       ∧ (has_shape (Z.to_nat (output_size cfg cap).2)
            (Z.to_nat (output_size cfg cap).1) r
          ↔ x + crop_width cfg ≤ Z.of_nat w
            ∧ y + crop_height cfg ≤ Z.of_nat h).
Proof.
  intros Hshape Hh Hw Hready Htype Hrange x y cw ch.
  assert (0 < crop_width cfg ∧ 0 < crop_height cfg) as [Hcw Hch].
  { unfold crop_ready in Hready.
    apply andb_true_iff in Hready as [Hready ?].
    apply andb_true_iff in Hready as [_ ?]. lia. }
  assert (0 ≤ x ≤ Z.of_nat w - 1 ∧ 0 ≤ y ≤ Z.of_nat h - 1) as [Hx Hy]
    by (unfold x, y, clamped_origin; lia).
  assert (export_crop cfg (Z.of_nat w) (Z.of_nat h) idx frame
          = Ok (slice2 frame y ch x cw)) as Hrun.
  { unfold export_crop. rewrite Hready, Htype. simpl String.eqb. cbv iota.
    replace (if negb (crop_all_frames cfg)
             then (crop_start_frame cfg <=? idx) && (idx <=? crop_end_frame cfg)
             else true) with true; [done|].
    destruct Hrange as [-> | ?]; [done|].
    destruct (crop_all_frames cfg); simpl; [done|].
    symmetry. apply andb_true_iff. rewrite !Z.leb_le. lia. }
  assert (has_shape (Z.to_nat ch) (Z.to_nat cw) (slice2 frame y ch x cw))
    as Hcut by (apply (slice2_shape h w); [done|unfold ch, cw; lia..]).
  assert (output_size cfg cap = (crop_width cfg, crop_height cfg)) as Hout.
  { unfold output_size. by rewrite Hready, Htype. }
  exists (slice2 frame y ch x cw). split_and!; [done|done| |done|].
  - intros i j Hi Hj. apply (at_slice2 h w); [done|unfold ch, cw in *; lia..].
  - rewrite Hout. simpl. split.
    + intros Hsize.
      destruct (has_shape_unique _ _ _ _ _ Hcut Hsize) as [Hhh Hww];
        unfold ch, cw in *; lia.
    + intros [Hfx Hfy].
      replace (crop_height cfg) with ch by (unfold ch; lia).
      by replace (crop_width cfg) with cw by (unfold cw; lia).
Qed.

Lemma at_full h w i j :
  at_ (full h w) i j
  = if bool_decide (i < Z.to_nat h ∧ j < Z.to_nat w)%nat then Some 255 else None.
Proof. apply at_replicate2. Qed.

Lemma at_assign_slice2_full (H W : nat) y hh x ww (i j : nat) :
  (i < H)%nat → (j < W)%nat →
  at_ (assign_slice2 (full (Z.of_nat H) (Z.of_nat W)) y hh x ww 0) i j
  = Some (if in_slice (Z.of_nat H) y (y + hh) i
             && in_slice (Z.of_nat W) x (x + ww) j
          then 0 else 255).
Proof.
  intros Hi Hj. unfold assign_slice2, at_.
  assert (height (full (Z.of_nat H) (Z.of_nat W)) = Z.of_nat H) as ->.
  { unfold height, full. rewrite length_replicate. lia. }
  rewrite list_lookup_imap. unfold full.
  rewrite lookup_replicate_2 by lia. simpl.
  rewrite list_lookup_imap, lookup_replicate_2 by lia. simpl.
  rewrite length_replicate. by rewrite Nat2Z.id.
Qed.

(** X7. When a crop of any other type than [traditional] is in effect on a
    frame of the export run, the frame keeps the pixels of the composited
    frame inside the kept region (the crop rectangle from the clamped
    origin), whatever the effect applied outside; with the effect [black]
    every pixel outside the region is [(0, 0, 0)]. *)
Theorem mask_crop_keeps_region (h w : nat) cfg idx frame r (i j : nat) :
  crop_ready cfg = true → crop_type cfg ≠ "traditional" →
  crop_all_frames cfg = true
  ∨ crop_start_frame cfg ≤ idx ≤ crop_end_frame cfg →
  export_crop cfg (Z.of_nat w) (Z.of_nat h) idx frame = Ok r →
  (i < h)%nat → (j < w)%nat →
  let x := clamped_origin (Z.of_nat w) (crop_x cfg) in
  let y := clamped_origin (Z.of_nat h) (crop_y cfg) in
  let inside :=
    bool_decide (y ≤ Z.of_nat i < y + crop_height cfg
                 ∧ x ≤ Z.of_nat j < x + crop_width cfg) in
  (inside = true → at_ r i j = at_ frame i j)
  ∧ (inside = false → crop_mask_type cfg = "black" →
     at_ r i j = Some (0, 0, 0)).
Proof.
  intros Hready Htype Hrange Hrun Hi Hj x y inside.
  assert (0 < crop_width cfg ∧ 0 < crop_height cfg) as [Hcw Hch].
  { unfold crop_ready in Hready.
    apply andb_true_iff in Hready as [Hready ?].
    apply andb_true_iff in Hready as [_ ?]. lia. }
  assert (0 ≤ x ≤ Z.of_nat w - 1 ∧ 0 ≤ y ≤ Z.of_nat h - 1) as [Hx Hy]
    by (unfold x, y, clamped_origin; lia).
  unfold export_crop in Hrun. rewrite Hready in Hrun.
  replace (if negb (crop_all_frames cfg)
           then (crop_start_frame cfg <=? idx) && (idx <=? crop_end_frame cfg)
           else true) with true in Hrun.
  2:{ destruct Hrange as [-> | ?]; [done|].
      destruct (crop_all_frames cfg); simpl; [done|].
      symmetry. apply andb_true_iff. rewrite !Z.leb_le. lia. }
  replace (String.eqb (crop_type cfg) "traditional") with false in Hrun
    by (symmetry; by apply String.eqb_neq).
  cbv zeta iota beta in Hrun. fold (clamped_origin (Z.of_nat w) (crop_x cfg)) in Hrun.
  fold (clamped_origin (Z.of_nat h) (crop_y cfg)) in Hrun.
  fold x y in Hrun.
  pose proof (at_assign_slice2_full h w y
                (crop_height cfg `min` (Z.of_nat h - y)) x
                (crop_width cfg `min` (Z.of_nat w - x)) i j Hi Hj) as Hmask.
  assert (in_slice (Z.of_nat h) y
            (y + crop_height cfg `min` (Z.of_nat h - y)) i
          && in_slice (Z.of_nat w) x
               (x + crop_width cfg `min` (Z.of_nat w - x)) j
          = inside) as Hin.
  { unfold in_slice, inside.
    rewrite !slice_bound_inside by lia.
    destruct (bool_decide_reflect
                (y ≤ Z.of_nat i < y + crop_height cfg
                 ∧ x ≤ Z.of_nat j < x + crop_width cfg)) as [Hyes|Hno].
    - apply andb_true_iff.
      rewrite !andb_true_iff, !Z.leb_le, !Z.ltb_lt. lia.
    - apply not_true_is_false. intros Hyes. apply Hno.
      rewrite !andb_true_iff, !Z.leb_le, !Z.ltb_lt in Hyes. lia. }
  rewrite Hin in Hmask. split.
  - intros Hyes. rewrite Hyes in Hmask.
    by eapply apply_mask_effect_unselected; [exact Hrun|exact Hmask|].
  - intros Hno Hblack. rewrite Hno in Hmask. rewrite Hblack in Hrun.
    unfold apply_mask_effect in Hrun. simpl in Hrun.
    by rewrite (np_where0_pixel _ _ _ _ _ _ Hrun Hmask).
Qed.

End CropStage.

(** ** What every export run keeps *)

Section Accounting.
Context `{cv : OpenCV} `{ft : FaceTracker} `{enc : Encoder} `{cnv : Canvas}.

(** However the loop is left, it has completed some number [n] of
    iterations: both counters have advanced by [n], and every iteration
    either handed one more frame to the writer or counted one more error. *)
Lemma export_loop_accounts cfg cap end_frame (fuel : nat) : ∀ r r' exit,
  export_loop fuel cfg cap end_frame r = (r', exit) →
  ∃ n : Z,
    0 ≤ n ≤ 0 `max` (end_frame + 1 - current_frame_idx r)
    ∧ current_frame_idx r' = current_frame_idx r + n
    ∧ frame_count r' = frame_count r + n
    ∧ Z.of_nat (length (written r')) + errors r'
      = Z.of_nat (length (written r)) + errors r + n
    ∧ errors r ≤ errors r'
    ∧ (exit = Finished →
       n = 0 `max` (end_frame + 1 - current_frame_idx r)).
Proof.
  induction fuel as [|fuel IH]; intros r r' exit H; simpl in H.
  { injection H as <- <-. exists 0. split_and!; (done || lia). }
  destruct (Z.leb_spec (current_frame_idx r) end_frame) as [Hle|Hgt].
  2:{ injection H as <- <-. exists 0. split_and!; lia. }
  destruct (cap_read cap (current_frame_idx r)) as [f|].
  2:{ injection H as <- <-. exists 0. split_and!; (done || lia). }
  destruct (export_frame _ _ _ _ _ _ _ f) as [[s' t'] [rf|e]].
  2:{ injection H as <- <-. exists 0. simpl. split_and!; (done || lia). }
  destruct (write_raises rf); apply IH in H as (n & Hn & Hi & Hc & Hw & He & Hf);
    cbn [current_frame_idx frame_count errors written] in *;
    exists (n + 1); rewrite ?length_app in *; simpl in *;
    (split_and!; [lia..|]); intros Hfin; specialize (Hf Hfin); lia.
Qed.

Lemma process_video_final cfg cap s p :
  final (process_video cfg cap s) = Some p →
  ∃ input out_dir,
    input_video cfg = Some input ∧ output_path cfg = Some out_dir
    ∧ isOpened (get_video_writer (output_file input out_dir)
                  (output_size cfg cap).1 (output_size cfg cap).2).2 = true
    ∧ p = started_loop cfg cap s input.
Proof.
  intros H.
  destruct (input_video cfg) as [input|] eqn:Hi;
    [|by unfold process_video in H; rewrite Hi in H].
  destruct (output_path cfg) as [out_dir|] eqn:Ho;
    [|by unfold process_video in H; rewrite Hi, Ho in H].
  exists input, out_dir.
  destruct (isOpened (get_video_writer (output_file input out_dir)
                        (output_size cfg cap).1 (output_size cfg cap).2).2)
    eqn:Hopen.
  - destruct (process_video_opened cfg cap s input out_dir Hi Ho Hopen)
      as (Hfinal & _).
    rewrite Hfinal in H. by injection H as <-.
  - unfold process_video in H. rewrite Hi, Ho in H.
    destruct (output_size cfg cap) as [ow oh]. simpl in Hopen.
    destruct (get_video_writer _ ow oh) as [tried out]. simpl in Hopen.
    by rewrite Hopen in H.
Qed.

(** X8. Whenever an export run got as far as its loop, and however the
    loop was left (range exhausted, failed read or exception), the counters
    agree: [frame_count] is [current_frame_idx] minus the first frame of the
    range, it equals the number of frames handed to the writer plus the
    number of write errors, and it never exceeds the length of the range;
    it is the whole range when the loop ran to its end.  The bound on the
    iterations of the model is never what stops the loop. *)
Theorem run_counters_agree cfg cap s r exit :
  final (process_video cfg cap s) = Some (r, exit) →
  frame_count r = current_frame_idx r - (frame_range cfg).1
  ∧ Z.of_nat (length (written r)) + errors r = frame_count r
  ∧ 0 ≤ errors r
  ∧ 0 ≤ frame_count r
    ≤ 0 `max` ((frame_range cfg).2 - (frame_range cfg).1 + 1)
  ∧ (exit = Finished →
     frame_count r
     = 0 `max` ((frame_range cfg).2 - (frame_range cfg).1 + 1))
  ∧ exit ≠ Unfinished.
Proof.
  intros H.
  apply process_video_final in H as (input & out_dir & _ & _ & _ & Hrun).
  pose proof (started_loop_terminates cfg cap s input) as Hterm.
  rewrite <- Hrun in Hterm. simpl in Hterm.
  unfold started_loop in Hrun.
  destruct (frame_range cfg) as [a b]. simpl.
  symmetry in Hrun.
  apply export_loop_accounts in Hrun as (n & Hn & Hi & Hc & Hw & He & Hf).
  cbn [current_frame_idx frame_count errors written length] in *.
  split_and!; [lia..| |done].
  intros Hfin. specialize (Hf Hfin). lia.
Qed.

(** X9. Whenever the writer of an export run was opened, the writer is
    released and the call ends with the redraw of frame 0.  The statuses
    set are, in order: those of the [try] block, the completion message,
    and what the redraw sets.  The error status is set exactly when an
    exception left the loop; it is then the only status before the
    completion message, and no face data file is written.  The status left
    at the end is [Failed to read frame] when frame 0 cannot be read, the
    frame counts when the redraw completes, and the completion message only
    when the redraw raises. *)
Theorem completion_follows_exception cfg cap s r exit :
  final (process_video cfg cap s) = Some (r, exit) →
  released (process_video cfg cap s) = true
  ∧ redraw (process_video cfg cap s) = Some (final_redraw cfg cap r)
  ∧ ∃ out saved,
      statuses (process_video cfg cap s)
      = saved ++ [completion r out] ++ shown_statuses (final_redraw cfg cap r)
      ∧ (∀ e, ErrorDuringProcessing e ∈ statuses (process_video cfg cap s)
              ↔ exit = Raised e)
      ∧ (∀ e, exit = Raised e →
           saved = [ErrorDuringProcessing e]
           ∧ json_file (process_video cfg cap s) = None)
      ∧ last (statuses (process_video cfg cap s))
        = match cap_read cap 0 with
          | None => Some FailedToReadFrame
          | Some _ =>
              match shown_raised (final_redraw cfg cap r) with
              | Some _ => Some (completion r out)
              | None =>
                  Some (FrameStatus 1 (total_frames cfg)
                          (active_shapes (with_frame_index cfg 0))
                          (Z.of_nat
                             (length (tracked_faces
                                        (shown_session
                                           (final_redraw cfg cap r))))))
              end
          end.
Proof.
  intros H.
  destruct (process_video_final _ _ _ _ H)
    as (input & out_dir & Hi & Ho & Hopen & Hrun).
  destruct (process_video_opened cfg cap s input out_dir Hi Ho Hopen)
    as (_ & Hrel & Hredraw & saved & Hst & Hsaved).
  rewrite <- Hrun in Hst, Hsaved, Hredraw. cbn [fst snd] in Hst, Hsaved, Hredraw.
  split_and!; [done..|]. exists (output_file input out_dir), saved.
  assert (∀ e, exit = Raised e →
            saved = [ErrorDuringProcessing e]
            ∧ json_file (process_video cfg cap s) = None) as Hraised.
  { intros e ->.
    destruct (process_video_raised cfg cap s input out_dir e Hi Ho Hopen)
      as [Hst' Hjson]; [by rewrite <- Hrun|].
    rewrite <- Hrun in Hst'. cbn [fst snd] in Hst'.
    split; [|done]. rewrite Hst in Hst'. by apply app_inv_tail in Hst'. }
  pose proof (show_current_frame_statuses (with_frame_index cfg 0) cap
                (session r)) as Hshown.
  fold (final_redraw cfg cap r) in Hshown.
  change (frame_index (with_frame_index cfg 0)) with 0 in Hshown.
  split_and!; [done| |done|].
  - intros e. split.
    + rewrite Hst. intros Hin.
      apply elem_of_app in Hin as [Hin|Hin].
      * destruct Hsaved as [-> | [[p ->] | (e' & -> & Hexit)]].
        -- by apply elem_of_nil in Hin.
        -- apply list_elem_of_singleton in Hin. discriminate.
        -- apply list_elem_of_singleton in Hin. by injection Hin as ->.
      * apply elem_of_app in Hin as [Hin|Hin].
        -- apply list_elem_of_singleton in Hin. unfold completion in Hin.
           by destruct (0 <? errors r).
        -- destruct (cap_read cap 0).
           ++ destruct Hshown as [[_ Hs] | [_ Hs]]; rewrite Hs in Hin.
              ** apply list_elem_of_singleton in Hin. discriminate.
              ** by apply elem_of_nil in Hin.
           ++ rewrite Hshown in Hin.
              apply list_elem_of_singleton in Hin. discriminate.
    + intros Hexit. destruct (Hraised e Hexit) as [Hs _].
      rewrite Hst, Hs. apply list_elem_of_here.
  - rewrite Hst. destruct (cap_read cap 0) as [f0|].
    + destruct Hshown as [[-> ->] | [[e ->] ->]].
      * by rewrite app_assoc, last_snoc.
      * by rewrite app_nil_r, last_snoc.
    + by rewrite Hshown, app_assoc, last_snoc.
Qed.

End Accounting.

(** ** Face telemetry of one frame *)

Section TelemetryFrame.

Lemma record_face_entries idx tracked : ∀ frame_faces faces,
  (foldl (record_face idx) (frame_faces, faces) tracked).1
  = frame_faces ++ map face_data tracked.
Proof.
  induction tracked as [|f tracked IH]; intros frame_faces faces;
    cbn [foldl map].
  { by rewrite app_nil_r. }
  assert (record_face idx (frame_faces, faces) f
          = (frame_faces ++ [face_data f],
             (record_face idx (frame_faces, faces) f).2)) as ->.
  { unfold record_face, face_data. destruct (bbox f) as [[[x y] w] h].
    by destruct (faces !! str (face_id f)). }
  by rewrite IH, <- app_assoc.
Qed.

Lemma record_face_other idx acc f k :
  k ≠ face_id f →
  (record_face idx acc f).2 !! str k = acc.2 !! str k.
Proof.
  intros Hk. destruct acc as [frame_faces faces]. unfold record_face.
  destruct (bbox f) as [[[x y] w] h].
  assert (str (face_id f) ≠ str k) as Hne.
  { intros Heq. apply Hk. symmetry. by apply (inj pretty). }
  destruct (faces !! str (face_id f)); simpl; by rewrite lookup_insert_ne.
Qed.

Lemma record_face_stamps idx acc f :
  ∃ r, (record_face idx acc f).2 !! str (face_id f) = Some r
       ∧ last (fr_frames r) = Some idx.
Proof.
  destruct acc as [frame_faces faces].
  destruct (faces !! str (face_id f)) as [r|] eqn:Hr.
  - eexists. split; [by apply record_face_seen_again|].
    simpl. apply last_snoc.
  - eexists. split; [by apply record_face_first_seen|]. done.
Qed.

Lemma record_face_keeps_stamp idx acc f k r :
  acc.2 !! str k = Some r → last (fr_frames r) = Some idx →
  ∃ r', (record_face idx acc f).2 !! str k = Some r'
        ∧ last (fr_frames r') = Some idx.
Proof.
  intros Hr Hlast. destruct (decide (k = face_id f)) as [->|Hne].
  - apply record_face_stamps.
  - exists r. by rewrite record_face_other.
Qed.

Lemma foldl_record_face_keeps_stamp idx tracked : ∀ acc k r,
  acc.2 !! str k = Some r → last (fr_frames r) = Some idx →
  ∃ r', (foldl (record_face idx) acc tracked).2 !! str k = Some r'
        ∧ last (fr_frames r') = Some idx.
Proof.
  induction tracked as [|f tracked IH]; intros acc k r Hr Hlast; cbn [foldl].
  { eauto. }
  destruct (record_face_keeps_stamp idx acc f k r Hr Hlast) as (r' & Hr' & Hl').
  eauto.
Qed.

Lemma foldl_record_face_stamps idx tracked : ∀ acc f,
  f ∈ tracked →
  ∃ r, (foldl (record_face idx) acc tracked).2 !! str (face_id f) = Some r
       ∧ last (fr_frames r) = Some idx.
Proof.
  induction tracked as [|g tracked IH]; intros acc f Hin.
  { by apply elem_of_nil in Hin. }
  apply elem_of_cons in Hin as [->|Hin]; cbn [foldl]; [|by apply IH].
  destruct (record_face_stamps idx acc g) as (r & Hr & Hlast).
  eapply foldl_record_face_keeps_stamp; eauto.
Qed.

Lemma foldl_record_face_other idx tracked : ∀ acc k,
  (∀ f, f ∈ tracked → face_id f ≠ k) →
  (foldl (record_face idx) acc tracked).2 !! str k = acc.2 !! str k.
Proof.
  induction tracked as [|g tracked IH]; intros acc k Hk; cbn [foldl]; [done|].
  rewrite IH by (intros f Hf; apply Hk, elem_of_cons; by right).
  apply record_face_other. intros ->.
  by apply (Hk g); [apply list_elem_of_here|].
Qed.

(** X10. Storing the tracking data of a frame sets the frame's entry to the
    tracked faces in order, each with its current box and confidence, and
    leaves the entries of all other frames as they were; every tracked face
    then has a record whose frame list ends with this frame, and the
    records of all other face ids are untouched. *)
Theorem telemetry_of_one_frame idx tracked t :
  tel_frames (store_tracking idx tracked t) !! str idx
  = Some (map face_data tracked)
  ∧ (∀ k, k ≠ idx →
       tel_frames (store_tracking idx tracked t) !! str k
       = tel_frames t !! str k)
  ∧ (∀ f, f ∈ tracked →
       ∃ r, tel_faces (store_tracking idx tracked t) !! str (face_id f)
            = Some r
            ∧ last (fr_frames r) = Some idx)
  ∧ (∀ k, (∀ f, f ∈ tracked → face_id f ≠ k) →
       tel_faces (store_tracking idx tracked t) !! str k
       = tel_faces t !! str k)
  ∧ video_file (store_tracking idx tracked t) = video_file t.
Proof.
  unfold store_tracking.
  pose proof (record_face_entries idx tracked [] (tel_faces t)) as Hentries.
  pose proof (foldl_record_face_stamps idx tracked ([], tel_faces t)) as Hst.
  pose proof (foldl_record_face_other idx tracked ([], tel_faces t)) as Hot.
  destruct (foldl (record_face idx) ([], tel_faces t) tracked)
    as [frame_faces faces].
  simpl in *. subst frame_faces. split_and!; [|..|done|done|done].
  - by rewrite lookup_insert_eq.
  - intros k Hk. rewrite lookup_insert_ne; [done|].
    intros Heq. apply Hk. symmetry. by apply (inj pretty).
Qed.

End TelemetryFrame.

(** ** Codec fallback for every extension *)

Section Fallback.
Context `{enc : Encoder}.

Lemma try_fallbacks_spec path w h pref : ∀ codecs tried out,
  let cands := filter (λ c, c ≠ pref) codecs in
  let res := try_fallbacks path w h pref codecs tried out in
  ∃ k : nat,
    res.1 = tried ++ take k cands
    ∧ (k ≤ length cands)%nat
    ∧ (∀ c, c ∈ take (pred k) cands → opens path c w h = false)
    ∧ (k = 0%nat → res.2 = out)
    ∧ (∀ c, cands !! pred k = Some c → (0 < k)%nat →
         res.2 = VideoWriter path c w h)
    ∧ (isOpened res.2 = false → isOpened out = false → k = length cands).
Proof.
  induction codecs as [|c rest IH]; intros tried out; simpl.
  { exists 0%nat. simpl.
    split_and!;
      first [ done | by rewrite app_nil_r
            | by intros c Hc; apply elem_of_nil in Hc | intros; lia ]. }
  destruct (String.eqb_spec c pref) as [->|Hne].
  { rewrite filter_cons_False by (intros Hc; by apply Hc). apply IH. }
  rewrite filter_cons_True by done.
  destruct (opens path c w h) eqn:Hopen.
  - exists 1%nat. simpl. rewrite take_0. split_and!; try done.
    + lia.
    + intros c' Hc'. by apply elem_of_nil in Hc'.
    + by intros c' [= <-] _.
    + intros Hclosed. congruence.
  - destruct (IH (tried ++ [c]) (VideoWriter path c w h))
      as (k & Hres & Hk & Hfail & Hzero & Hlast & Hall).
    exists (S k). simpl. split_and!.
    + rewrite Hres. by rewrite <- app_assoc.
    + lia.
    + intros c' Hc'. destruct k as [|k]; simpl in *.
      { by apply elem_of_nil in Hc'. }
      apply elem_of_cons in Hc' as [->|Hc']; [exact Hopen|by apply Hfail].
    + done.
    + intros c' Hc' _. destruct k as [|k]; simpl in *.
      { injection Hc' as <-. by apply Hzero. }
      apply Hlast; [done|lia].
    + intros Hclosed _. f_equal. by apply Hall.
Qed.

(** X11. For an output path of any extension, [get_video_writer] tries the
    codec mapped to the extension and then the fallback codecs other than
    that one, in their listed order, and stops at the first writer that
    opens: the codecs tried are an initial part of that candidate list, all
    but the last of them failed to open, the writer returned is the one for
    the last codec tried, and if it is not opened every candidate was
    tried. *)
Theorem fallback_stops_at_first_open path w h :
  let preferred := codec_map (Path.lower (Path.splitext path).2) in
  let candidates := preferred :: filter (λ c, c ≠ preferred) fallback_codecs in
  let tried := (get_video_writer path w h).1 in
  let out := (get_video_writer path w h).2 in
  ∃ k : nat,
    tried = take (S k) candidates
    ∧ candidates !! k = Some (fourcc out)
    ∧ out = VideoWriter path (fourcc out) w h
    ∧ (∀ c, c ∈ take k candidates → opens path c w h = false)
    ∧ (isOpened out = false → tried = candidates).
Proof.
  intros preferred candidates tried out.
  unfold tried, out, get_video_writer. fold preferred.
  destruct (isOpened (VideoWriter path preferred w h)) eqn:Hopen; simpl negb;
    cbv iota.
  { exists 0%nat. simpl. split_and!; try done.
    - intros c Hc. by apply elem_of_nil in Hc.
    - unfold VideoWriter in Hopen. simpl in Hopen. congruence. }
  destruct (try_fallbacks_spec path w h preferred fallback_codecs [preferred]
              (VideoWriter path preferred w h))
    as (k & Hres & Hk & Hfail & Hzero & Hlast & Hall).
  destruct (try_fallbacks path w h preferred fallback_codecs [preferred]
              (VideoWriter path preferred w h)) as [tr o].
  cbn [fst snd] in *. subst tr. exists k.
  assert (candidates !! k = Some (fourcc o)
          ∧ o = VideoWriter path (fourcc o) w h) as [Hcand Hwriter].
  { destruct k as [|k]; cbn [pred] in *.
    - by rewrite Hzero.
    - destruct (filter (λ c, c ≠ preferred) fallback_codecs !! k)
        as [c|] eqn:Hc.
      + rewrite (Hlast c) by (done || lia). done.
      + apply lookup_ge_None in Hc. lia. }
  split_and!; [done|done|done| |].
  - intros c Hc. destruct k as [|k]; cbn [pred] in *.
    { by apply elem_of_nil in Hc. }
    apply elem_of_cons in Hc as [->|Hc]; [exact Hopen|by apply Hfail].
  - intros Hclosed. rewrite (Hall Hclosed Hopen).
    unfold candidates. cbn [take]. by rewrite firstn_all.
Qed.

End Fallback.

(** * The handlers of the authoring state *)

(** ** Rotation and blur strength *)

Section Settings.
Context `{cv : OpenCV}.

Lemma set_rotation_relative cfg a :
  a = 90 ∨ a = -90 →
  rotation_angle (set_rotation cfg a) = (rotation_angle cfg + a) `mod` 360.
Proof. intros [-> | ->]; reflexivity. Qed.

Lemma set_rotation_absolute cfg a :
  a ≠ 90 → a ≠ -90 → rotation_angle (set_rotation cfg a) = a.
Proof.
  intros H1 H2. unfold set_rotation.
  rewrite bool_decide_eq_false_2; [done|].
  rewrite !elem_of_cons, elem_of_nil. lia.
Qed.

(** X12. The quarter-turn buttons keep the angle in [0, 360) and cancel
    each other: a left turn after a right turn, and four right turns, give
    the angle it started from modulo 360.  After any call of [set_rotation]
    rotation is enabled exactly when the angle is not 0, and the reset
    button (angle 0) switches it off. *)
Theorem quarter_turns_cancel cfg :
  0 ≤ rotation_angle (set_rotation cfg 90) < 360
  ∧ 0 ≤ rotation_angle (set_rotation cfg (-90)) < 360
  ∧ rotation_angle (set_rotation (set_rotation cfg 90) (-90))
    = rotation_angle cfg `mod` 360
  ∧ rotation_angle
      (set_rotation (set_rotation (set_rotation (set_rotation cfg 90) 90) 90) 90)
    = rotation_angle cfg `mod` 360
  ∧ (∀ a, rotation_enabled (set_rotation cfg a)
          = negb (rotation_angle (set_rotation cfg a) =? 0))
  ∧ rotation_enabled (set_rotation cfg 0) = false.
Proof.
  rewrite !set_rotation_relative by auto.
  assert (∀ a b, (a `mod` 360 + b) `mod` 360 = (a + b) `mod` 360) as Hmod
    by (intros; apply Zplus_mod_idemp_l).
  split_and!; try (apply Z.mod_pos_bound; lia).
  - rewrite Hmod. f_equal. lia.
  - repeat (rewrite <- ?Z.add_assoc; rewrite Hmod).
    rewrite <- (Z_mod_plus_full (rotation_angle cfg) 1 360).
    f_equal. lia.
  - done.
  - done.
Qed.

(** X13. The "Apply" button reads the angle from the variable the entry
    edits, so [set_rotation] sees the typed number both as the current and
    as the new angle: typing 90 or -90 sets the angle to 180, any other
    number sets the angle to that number. *)
Theorem apply_button_doubles_quarter_turn cfg typed :
  rotation_angle (apply_rotation cfg typed)
  = if bool_decide (typed = 90 ∨ typed = -90) then 180 else typed.
Proof.
  unfold apply_rotation. case_bool_decide as Hq.
  - rewrite set_rotation_relative by done.
    by destruct Hq as [-> | ->].
  - rewrite set_rotation_absolute; [done|lia..].
Qed.

(** X14. [update_blur_strength] stores an odd strength, the slider value
    or the next integer, and stores it back into the slider variable; a
    second call changes nothing; and the blur effect hands the stored
    strength to [cv2.GaussianBlur] as the kernel size, without adjusting
    it. *)
Theorem stored_blur_strength_is_odd cfg value :
  let cfg' := (update_blur_strength cfg value).1 in
  let stored := blur_strength cfg' in
  (update_blur_strength cfg value).2 = stored
  ∧ Z.odd stored = true
  ∧ value ≤ stored ≤ value + 1
  ∧ (if stored `mod` 2 =? 0 then stored + 1 else stored) = stored
  ∧ update_blur_strength cfg' stored = (cfg', stored)
  ∧ (∀ frame mask color,
       apply_mask_effect frame mask "blur" stored color
       = do blurred <- cv2_GaussianBlur frame stored;
         np_where mask blurred frame).
Proof.
  unfold update_blur_strength. cbn [fst snd blur_strength with_blur_strength].
  set (stored := if value `mod` 2 =? 0 then value + 1 else value).
  assert (stored `mod` 2 = 1) as Hodd.
  { unfold stored. destruct (Z.eqb_spec (value `mod` 2) 0) as [H0|H0].
    - rewrite Z.add_mod, H0 by lia. done.
    - pose proof (Z.mod_pos_bound value 2). lia. }
  assert ((stored `mod` 2 =? 0) = false) as Hkeep by (rewrite Hodd; done).
  split_and!.
  - done.
  - rewrite Zodd_mod, Hodd. done.
  - unfold stored. destruct (value `mod` 2 =? 0); lia.
  - unfold stored. destruct (value `mod` 2 =? 0); lia.
  - by rewrite Hkeep.
  - by rewrite Hkeep.
  - intros frame mask color. unfold apply_mask_effect. simpl.
    by rewrite Hkeep.
Qed.

End Settings.

(** ** Trimming *)

Section Trim.

Lemma on_trim_drag_frames cfg d pos :
  total_frames (on_trim_drag cfg d pos) = total_frames cfg
  ∧ trim_enabled (on_trim_drag cfg d pos) = trim_enabled cfg.
Proof.
  unfold on_trim_drag.
  destruct (negb (trim_enabled cfg) || negb (dragging_start d || dragging_end d));
    [done|].
  destruct (dragging_start d); [done|]. by destruct (dragging_end d).
Qed.

Lemma on_trim_drag_ordered cfg d pos :
  trim_ordered cfg → trim_ordered (on_trim_drag cfg d pos).
Proof.
  intros (H0 & H1 & H2). unfold on_trim_drag.
  destruct (negb (trim_enabled cfg) || negb (dragging_start d || dragging_end d));
    [done|].
  destruct (dragging_start d).
  { unfold trim_ordered. simpl. lia. }
  destruct (dragging_end d); [|done].
  unfold trim_ordered. simpl. lia.
Qed.

Lemma drags_ordered drags : ∀ cfg,
  trim_ordered cfg →
  let cfg' := foldl (λ c d, on_trim_drag c d.1 d.2) cfg drags in
  trim_ordered cfg' ∧ total_frames cfg' = total_frames cfg
  ∧ trim_enabled cfg' = trim_enabled cfg.
Proof.
  induction drags as [|d drags IH]; intros cfg Hcfg; simpl; [done|].
  destruct (IH (on_trim_drag cfg d.1 d.2)) as (Ho & Ht & He).
  { by apply on_trim_drag_ordered. }
  destruct (on_trim_drag_frames cfg d.1 d.2) as [Ht' He'].
  split_and!; [done|congruence..].
Qed.

(** X15. On a video of at least two frames, switching trimming on and
    then dragging the handles in any way keeps the trim range ordered and
    inside the video: [0 <= start < end <= total_frames - 1].  The export
    run then processes that range, which never has fewer than two
    frames. *)
Theorem trim_range_stays_ordered cfg (drags : list (TrimHandles * Z)) :
  2 ≤ total_frames cfg → trim_enabled cfg = true →
  let cfg' :=
    foldl (λ c d, on_trim_drag c d.1 d.2) (toggle_trim cfg true) drags in
  trim_ordered cfg'
  ∧ frame_range cfg' = (trim_start_frame cfg', trim_end_frame cfg')
  ∧ 2 ≤ (frame_range cfg').2 - (frame_range cfg').1 + 1 ≤ total_frames cfg.
Proof.
  intros Htotal Hon cfg'.
  assert (trim_ordered (toggle_trim cfg true)) as Hstart.
  { unfold toggle_trim, trim_ordered. rewrite Hon. simpl. lia. }
  destruct (drags_ordered drags _ Hstart) as (Hord & Ht & He).
  fold cfg' in Hord, Ht, He.
  assert (trim_enabled cfg' = true) as Hen.
  { rewrite He. unfold toggle_trim. by rewrite Hon. }
  assert (total_frames cfg' = total_frames cfg) as Htot.
  { rewrite Ht. unfold toggle_trim. by rewrite Hon. }
  assert (frame_range cfg' = (trim_start_frame cfg', trim_end_frame cfg'))
    as Hrange by (unfold frame_range; by rewrite Hen).
  split_and!; [done|done|rewrite Hrange; simpl..];
    destruct Hord as (? & ? & ?); lia.
Qed.

End Trim.

(** ** Frame navigation *)

Section Navigating.

Lemma navigate_in_video cfg nav :
  1 ≤ total_frames cfg → 0 ≤ frame_index cfg ≤ total_frames cfg - 1 →
  0 ≤ frame_index (navigate cfg nav) ≤ total_frames cfg - 1
  ∧ total_frames (navigate cfg nav) = total_frames cfg.
Proof.
  intros Ht Hi.
  destruct nav as [| |offset|frame_num]; simpl;
    unfold next_frame, prev_frame, jump_frames, on_slider_change; simpl.
  - destruct (Z.ltb_spec (frame_index cfg) (total_frames cfg - 1)); simpl; lia.
  - destruct (Z.ltb_spec 0 (frame_index cfg)); simpl; lia.
  - destruct (negb (_ =? frame_index cfg)); simpl; lia.
  - destruct (negb (frame_num =? frame_index cfg)); simpl; lia.
Qed.

(** X16. On an opened video with at least one frame, no sequence of
    next, previous, jump and slider moves takes the current frame out of the
    video: [0 <= frame_index <= total_frames - 1] keeps holding.  A step
    forward followed by a step back returns to the same frame, except on
    the last frame, where the step forward does nothing. *)
Theorem navigation_stays_in_video cfg (navs : list Navigation) :
  1 ≤ total_frames cfg → 0 ≤ frame_index cfg ≤ total_frames cfg - 1 →
  0 ≤ frame_index (foldl navigate cfg navs) ≤ total_frames cfg - 1
  ∧ frame_index (prev_frame (next_frame cfg true) true)
    = if frame_index cfg <? total_frames cfg - 1
      then frame_index cfg else 0 `max` (frame_index cfg - 1).
Proof.
  intros Ht Hi. split.
  - revert cfg Ht Hi. induction navs as [|nav navs IH]; intros cfg Ht Hi;
      simpl; [done|].
    destruct (navigate_in_video cfg nav Ht Hi) as [Hi' Ht'].
    rewrite <- Ht'. apply IH; rewrite Ht'; done.
  - unfold prev_frame, next_frame. simpl.
    destruct (Z.ltb_spec (frame_index cfg) (total_frames cfg - 1)); simpl.
    + replace (0 <? frame_index cfg + 1) with true
        by (symmetry; apply Z.ltb_lt; lia). simpl. lia.
    + destruct (Z.ltb_spec 0 (frame_index cfg)); simpl; lia.
Qed.

End Navigating.

(** ** Frame ranges of shapes *)

Section ShapeRanges.
Context `{cv : OpenCV}.

Lemma with_shapes_same cfg : with_shapes cfg (shapes cfg) = cfg.
Proof. by destruct cfg. Qed.

(** X17. Setting the frame range of the selected shape stores the typed
    numbers clamped into the video, the end not before the start: on a
    video with at least one frame, [0 <= start <= end <= total_frames - 1]
    whatever was typed.  Only the selected shape changes, and only in its
    range; the compositor then applies it on the frames [start .. end] and
    on no other. *)
Theorem typed_frame_range_is_clamped cfg idx rest s a b :
  shapes cfg !! idx = Some s → 1 ≤ total_frames cfg →
  let start := 0 `max` (a `min` (total_frames cfg - 1)) in
  let end_ := start `max` (b `min` (total_frames cfg - 1)) in
  ∃ cfg' s',
    set_shape_frame_range cfg (idx :: rest) (Some a) (Some b)
    = (cfg', Some (ShapeRangeSet (Z.of_nat idx + 1) start end_))
    ∧ shapes cfg' = <[idx := s']> (shapes cfg)
    ∧ (shape_type s', points s', shape_mask_type s', strength s', color s')
      = (shape_type s, points s, shape_mask_type s, strength s, color s)
    ∧ 0 ≤ start ≤ end_ ∧ end_ ≤ total_frames cfg - 1
    ∧ (∀ k, shape_skipped k s' = negb ((start <=? k) && (k <=? end_))).
Proof.
  intros Hs Htotal start end_.
  unfold set_shape_frame_range. rewrite Hs. fold start. fold end_.
  eexists _, _. split; [reflexivity|]. simpl.
  split_and!; [done|done|lia|lia|lia|].
  intros k. unfold shape_skipped, shape_len. simpl.
  assert (∃ tail,
            <[1%nat:=end_]>
              (<[0%nat:=start]>
                 (if 5 + Z.of_nat (length (frame_fields s)) <? 7
                  then frame_fields s ++ [0; total_frames cfg - 1]
                  else frame_fields s))
            = start :: end_ :: tail) as [tail ->].
  { destruct (Z.ltb_spec (5 + Z.of_nat (length (frame_fields s))) 7);
      destruct (frame_fields s) as [|x [|y l]]; simpl in *;
      eauto; lia. }
  simpl length.
  replace (7 <=? 5 + Z.of_nat (S (S (length tail)))) with true
    by (symmetry; apply Z.leb_le; lia).
  rewrite negb_andb.
  by destruct (Z.ltb_spec k start), (Z.leb_spec start k),
              (Z.ltb_spec end_ k), (Z.leb_spec k end_); simpl; try lia.
Qed.

(** X18. Selecting a shape whose range lies in the video and setting the
    range again with the numbers the selection wrote into the entries
    changes nothing; and nothing changes either when no shape is selected,
    when the selection is past the end of the list, or when one of the
    entries does not hold an integer. *)
Theorem reselected_range_is_kept cfg idx rest s lo hi tail :
  shapes cfg !! idx = Some s → frame_fields s = lo :: hi :: tail →
  0 ≤ lo ≤ hi → hi ≤ total_frames cfg - 1 →
  on_shape_selected cfg (idx :: rest) = Some (lo, hi)
  ∧ (set_shape_frame_range cfg (idx :: rest) (Some lo) (Some hi)).1 = cfg
  ∧ (∀ a b, set_shape_frame_range cfg [] a b = (cfg, Some NoShapeSelected))
  ∧ (∀ k a b, (length (shapes cfg) ≤ k)%nat →
       set_shape_frame_range cfg (k :: rest) a b = (cfg, None))
  ∧ (∀ b, set_shape_frame_range cfg (idx :: rest) None b
          = (cfg, Some InvalidFrameNumbers))
  ∧ (∀ a, set_shape_frame_range cfg (idx :: rest) a None
          = (cfg, Some InvalidFrameNumbers)).
Proof.
  intros Hs Hff Hlo Hhi.
  assert ((7 <=? shape_len s) = true) as Hlen.
  { unfold shape_len. rewrite Hff. simpl length. apply Z.leb_le. lia. }
  split_and!.
  - unfold on_shape_selected. by rewrite Hs, Hlen, Hff.
  - unfold set_shape_frame_range. rewrite Hs. cbn [fst].
    replace (shape_len s <? 7) with false
      by (symmetry; apply Z.ltb_ge; by apply Z.leb_le).
    rewrite Hff. simpl.
    replace (0 `max` (lo `min` (total_frames cfg - 1))) with lo by lia.
    replace (lo `max` (hi `min` (total_frames cfg - 1))) with hi by lia.
    rewrite <- Hff.
    replace (mkShape (shape_type s) (points s) (shape_mask_type s)
               (strength s) (color s) (frame_fields s)) with s
      by (by destruct s).
    by rewrite list_insert_id, with_shapes_same.
  - done.
  - intros k a b Hk. unfold set_shape_frame_range.
    by rewrite (lookup_ge_None_2 _ _ Hk).
  - intros b. unfold set_shape_frame_range. by rewrite Hs.
  - intros a. unfold set_shape_frame_range. rewrite Hs. by destruct a.
Qed.

Lemma shape_counted_not_skipped idx s :
  shape_counted idx s = negb (shape_skipped idx s).
Proof.
  unfold shape_counted, shape_skipped, shape_len.
  destruct (Z.ltb_spec (5 + Z.of_nat (length (frame_fields s))) 7),
           (Z.leb_spec 7 (5 + Z.of_nat (length (frame_fields s))));
    try lia; simpl; try done.
  destruct (frame_fields s) as [|lo [|hi l]]; simpl in *; lia.
Qed.

Lemma apply_shapes_all_skipped h w idx l result :
  forallb (shape_skipped idx) l = true →
  apply_shapes h w idx l result = Ok result.
Proof.
  induction l as [|s l IH]; simpl; [done|].
  intros Hall. apply andb_true_iff in Hall as [-> Hall]. by apply IH.
Qed.

(** X19. The number of active shapes shown in the status line of the
    preview is the number of shapes the compositor does not skip on the
    current frame; when it is 0 the shape stage leaves the frame as it
    is. *)
Theorem active_count_matches_compositor cfg :
  active_shapes cfg
  = Z.of_nat (length (List.filter
                        (λ s, negb (shape_skipped (frame_index cfg) s))
                        (shapes cfg)))
  ∧ (active_shapes cfg = 0 →
     ∀ h w result,
       apply_shapes h w (frame_index cfg) (shapes cfg) result = Ok result).
Proof.
  unfold active_shapes.
  assert (List.filter (shape_counted (frame_index cfg)) (shapes cfg)
          = List.filter (λ s, negb (shape_skipped (frame_index cfg) s))
              (shapes cfg)) as ->.
  { apply List.filter_ext. intros s. apply shape_counted_not_skipped. }
  split; [done|]. intros Hzero h w result.
  apply apply_shapes_all_skipped.
  induction (shapes cfg) as [|s l IH]; simpl in *; [done|].
  destruct (shape_skipped (frame_index cfg) s); simpl in *; [by apply IH|lia].
Qed.

End ShapeRanges.

(** ** Drawing gestures *)

Section Gestures.
Context `{cv : OpenCV}.

Lemma clamp_in_image img_h img_w px py :
  1 ≤ img_h → 1 ≤ img_w →
  in_image img_h img_w
    (0 `max` (px `min` (img_w - 1)), 0 `max` (py `min` (img_h - 1))).
Proof. unfold in_image. simpl. lia. Qed.

Lemma new_shape_well_drawn img_h img_w cfg g kind pts :
  Forall (in_image img_h img_w) pts →
  (kind = "rectangle" → (2 ≤ length pts)%nat) →
  (kind = "polygon" ∨ kind = "freehand" → (3 ≤ length pts)%nat) →
  well_drawn img_h img_w (new_shape cfg g kind pts).
Proof. by intros ? ? ?. Qed.

Lemma authoring_ok_append img_h img_w cfg g g' s :
  authoring_ok img_h img_w cfg g →
  well_drawn img_h img_w s →
  current_shape g' = [] → drawing g' = false →
  drawing_crop g' = drawing_crop g →
  authoring_ok img_h img_w (with_shapes cfg (shapes cfg ++ [s])) g'.
Proof.
  intros (Hpts & Hdraw & Hshapes & Hcrop & Hpend) Hs Hnil Hoff Hsame.
  unfold authoring_ok. rewrite Hnil, Hoff, Hsame. simpl.
  split_and!; [done|done| |done|done].
  apply Forall_app. split; [done|]. by apply Forall_singleton.
Qed.

Lemma authoring_ok_gesture img_h img_w cfg g g' :
  authoring_ok img_h img_w cfg g →
  Forall (in_image img_h img_w) (current_shape g') →
  (drawing g' = true → current_shape g' ≠ []) →
  drawing_crop g' = drawing_crop g →
  authoring_ok img_h img_w cfg g'.
Proof.
  intros (Hpts & Hdraw & Hshapes & Hcrop & Hpend) Hpts' Hdraw' Hsame.
  unfold authoring_ok. by rewrite Hsame.
Qed.

(** One event keeps the state well formed, raises nothing and removes no
    shape. *)
Lemma handle_keeps img_h img_w cfg g ev :
  1 ≤ img_h → 1 ≤ img_w → authoring_ok img_h img_w cfg g →
  ∃ cfg' g',
    handle img_h img_w (cfg, g) ev = (cfg', g', Ok tt)
    ∧ authoring_ok img_h img_w cfg' g'
    ∧ shapes cfg `prefix_of` shapes cfg'.
Proof.
  intros Hh Hw Hok.
  pose proof Hok as (Hpts & Hdraw & Hshapes & Hcrop & Hpend).
  destruct ev as [px py|px py|px py| |mode|m| |]; cbn [handle].
  - (* on_mouse_down *)
    unfold on_mouse_down.
    destruct ((px <? 0) || (img_w <=? px) || (py <? 0) || (img_h <=? py))
      eqn:Hout.
    { by eexists _, _. }
    assert (in_image img_h img_w (px, py)) as Hin.
    { unfold in_image. simpl. lia. }
    destruct (drawing_crop g) eqn:Hdc.
    { eexists _, _. split; [reflexivity|]. split; [|done].
      destruct (Hpend eq_refl) as [Hw0 Hh0].
      unfold authoring_ok, crop_region_inside in *. simpl.
      destruct Hin as [? ?]. simpl in *.
      split_and!; try done; try lia. }
    destruct (String.eqb (current_shape_type g) "rectangle").
    { eexists _, _. split; [reflexivity|]. split; [|done].
      apply (authoring_ok_gesture _ _ _ g); simpl; [done| |done|done].
      by apply Forall_singleton. }
    destruct (String.eqb (current_shape_type g) "polygon").
    { destruct (drawing g) eqn:Hd; simpl negb; cbv iota.
      - assert ((2 <=? Z.of_nat (length (current_shape g ++ [(px, py)])))
                = true) as ->.
        { apply Z.leb_le. rewrite length_app. simpl.
          destruct (current_shape g); [by destruct Hdraw|simpl; lia]. }
        eexists _, _. split; [reflexivity|]. split; [|done].
        apply (authoring_ok_gesture _ _ _ g); simpl; [done| | |done].
        + apply Forall_app. split; [done|]. by apply Forall_singleton.
        + intros _. by destruct (current_shape g).
      - eexists _, _. split; [reflexivity|]. split; [|done].
        apply (authoring_ok_gesture _ _ _ g); simpl; [done| |done|done].
        by apply Forall_singleton. }
    destruct (String.eqb (current_shape_type g) "freehand").
    { eexists _, _. split; [reflexivity|]. split; [|done].
      apply (authoring_ok_gesture _ _ _ g); simpl; [done| |done|done].
      by apply Forall_singleton. }
    by eexists _, _.
  - (* on_mouse_move *)
    unfold on_mouse_move.
    destruct (negb (drawing g) && negb (drawing_crop g)) eqn:Hidle.
    { by eexists _, _. }
    destruct (drawing_crop g) eqn:Hdc.
    { by eexists _, _. }
    assert (drawing g = true) as Hd by (by destruct (drawing g)).
    destruct (String.eqb (current_shape_type g) "rectangle").
    { destruct (current_shape g) eqn:Hcur; [by destruct Hdraw|].
      by eexists _, _. }
    destruct (String.eqb (current_shape_type g) "freehand").
    { assert ((2 <=? Z.of_nat
                        (length (current_shape g
                                 ++ [(0 `max` (px `min` (img_w - 1)),
                                      0 `max` (py `min` (img_h - 1)))])))
              = true) as ->.
      { apply Z.leb_le. rewrite length_app. simpl.
        destruct (current_shape g); [by destruct Hdraw|simpl; lia]. }
      eexists _, _. split; [reflexivity|]. split; [|done].
      apply (authoring_ok_gesture _ _ _ g); simpl; [done| | |done].
      + apply Forall_app. split; [done|].
        by apply Forall_singleton, clamp_in_image.
      + intros _. by destruct (current_shape g). }
    by eexists _, _.
  - (* on_mouse_up *)
    unfold on_mouse_up.
    destruct (negb (drawing g) && negb (drawing_crop g)) eqn:Hidle.
    { by eexists _, _. }
    pose proof (clamp_in_image img_h img_w px py Hh Hw) as [Hx Hy].
    simpl in Hx, Hy.
    destruct (drawing_crop g) eqn:Hdc.
    { eexists _, _. split; [reflexivity|]. split; [|done].
      destruct (Hpend eq_refl) as [Hw0 Hh0].
      destruct Hcrop as [(? & ? & ?) (? & ? & ?)].
      unfold authoring_ok, crop_region_inside. simpl.
      split_and!; try done;
        try (destruct (Z.ltb_spec (0 `max` (px `min` (img_w - 1))) (crop_x cfg));
             lia);
        try (destruct (Z.ltb_spec (0 `max` (py `min` (img_h - 1))) (crop_y cfg));
             lia). }
    assert (drawing g = true) as Hd by (by destruct (drawing g)).
    destruct (String.eqb (current_shape_type g) "rectangle").
    { eexists _, _. split; [reflexivity|]. split; [|by apply prefix_app_r].
      apply (authoring_ok_append _ _ _ g); simpl; [done| |done|done|done].
      apply new_shape_well_drawn.
      - apply Forall_app. split; [done|]. by apply Forall_singleton.
      - intros _. rewrite length_app. simpl.
        destruct (current_shape g); [by destruct Hdraw|simpl; lia].
      - by intros [|]. }
    destruct (String.eqb (current_shape_type g) "freehand").
    { destruct (Z.ltb_spec 2 (Z.of_nat (length (current_shape g)))).
      - eexists _, _. split; [reflexivity|]. split; [|by apply prefix_app_r].
        apply (authoring_ok_append _ _ _ g); simpl; [done| |done|done|done].
        apply new_shape_well_drawn; [done|done|]. intros _. lia.
      - eexists _, _. split; [reflexivity|]. split; [|done].
        by apply (authoring_ok_gesture _ _ _ g). }
    by eexists _, _.
  - (* on_double_click *)
    unfold on_double_click.
    destruct (String.eqb (current_shape_type g) "polygon" && drawing g).
    2:{ by eexists _, _. }
    destruct (Z.leb_spec 3 (Z.of_nat (length (current_shape g)))).
    + eexists _, _. split; [reflexivity|]. split; [|by apply prefix_app_r].
      apply (authoring_ok_append _ _ _ g); simpl; [done| |done|done|done].
      apply new_shape_well_drawn; [done|done|]. intros _. lia.
    + eexists _, _. split; [reflexivity|]. split; [|done].
      by apply (authoring_ok_gesture _ _ _ g).
  - (* set_drawing_mode *)
    eexists _, _. split; [reflexivity|]. split; [|done].
    by apply (authoring_ok_gesture _ _ _ g).
  - (* the mask type combo box *)
    eexists _, _. split; [reflexivity|]. split; [|done].
    by apply (authoring_ok_gesture _ _ _ g).
  - (* start_crop_drawing *)
    eexists _, _. split; [reflexivity|]. split; [|done].
    unfold authoring_ok, crop_region_inside. simpl.
    split_and!; try done; lia.
  - (* reset_crop *)
    eexists _, _. split; [reflexivity|]. split; [|done].
    unfold authoring_ok, crop_region_inside. simpl.
    split_and!; try done; lia.
Qed.

Lemma handle_all_keeps img_h img_w evs : ∀ cfg g,
  1 ≤ img_h → 1 ≤ img_w → authoring_ok img_h img_w cfg g →
  ∃ cfg' g',
    handle_all img_h img_w (cfg, g) evs = (cfg', g', [])
    ∧ authoring_ok img_h img_w cfg' g'
    ∧ shapes cfg `prefix_of` shapes cfg'.
Proof.
  induction evs as [|ev evs IH]; intros cfg g Hh Hw Hok; cbn [handle_all].
  { by eexists _, _. }
  destruct (handle_keeps img_h img_w cfg g ev Hh Hw Hok)
    as (cfg1 & g1 & -> & Hok1 & Hpre1).
  destruct (IH cfg1 g1 Hh Hw Hok1) as (cfg2 & g2 & -> & Hok2 & Hpre2).
  eexists _, _. split; [reflexivity|]. split; [done|].
  by etrans.
Qed.

(** X20. From a well-formed drawing state, on a loaded frame, no sequence
    of canvas and button events makes a handler raise [IndexError]: every
    read of [current_shape[0]] and [current_shape[-2]] finds its point. *)
Theorem gestures_never_raise img_h img_w cfg g evs :
  1 ≤ img_h → 1 ≤ img_w → authoring_ok img_h img_w cfg g →
  (handle_all img_h img_w (cfg, g) evs).2 = [].
Proof.
  intros Hh Hw Hok.
  by destruct (handle_all_keeps img_h img_w evs cfg g Hh Hw Hok)
    as (cfg' & g' & -> & _).
Qed.

Lemma well_drawn_mask img_h img_w h w s :
  well_drawn img_h img_w s → ∃ m, shape_mask h w s = Ok m.
Proof.
  intros (_ & Hrect & Hpoly). unfold shape_mask.
  destruct (String.eqb_spec (shape_type s) "rectangle") as [Heq|_].
  - specialize (Hrect Heq).
    destruct (points s) as [|[x1 y1] [|[x2 y2] l]]; simpl in *; try lia.
    by eexists.
  - destruct (String.eqb_spec (shape_type s) "polygon") as [Heq|_];
      [|destruct (String.eqb_spec (shape_type s) "freehand") as [Heq|_]];
      cbn [orb]; [| |by eexists].
    all: assert (3 ≤ length (points s))%nat as Hlen by auto.
    all: destruct (points s) as [|p l]; simpl in Hlen; [lia|by eexists].
Qed.

(** X21. From a well-formed drawing state, whatever events follow, the
    shapes drawn so far stay in the list, in order, and every shape of the
    list is well drawn: its points lie in the image, a rectangle has its two
    corners, a polygon or freehand outline at least three points.  The
    compositor therefore computes a mask for each of them on any canvas,
    without raising. *)
Theorem drawn_shapes_are_well_drawn img_h img_w cfg g evs :
  1 ≤ img_h → 1 ≤ img_w → authoring_ok img_h img_w cfg g →
  let cfg' := (handle_all img_h img_w (cfg, g) evs).1.1 in
  shapes cfg `prefix_of` shapes cfg'
  ∧ Forall (well_drawn img_h img_w) (shapes cfg')
  ∧ ∀ s h w, s ∈ shapes cfg' → ∃ m, shape_mask h w s = Ok m.
Proof.
  intros Hh Hw Hok.
  destruct (handle_all_keeps img_h img_w evs cfg g Hh Hw Hok)
    as (cfg' & g' & -> & Hok' & Hpre).
  destruct Hok' as (_ & _ & Hshapes & _). simpl.
  split_and!; [done|done|].
  intros s h w Hs. rewrite Forall_forall in Hshapes.
  eapply well_drawn_mask; eauto.
Qed.

(** X22. From a well-formed drawing state, whatever events follow, the
    crop region lies inside the image, short of its last row and column.
    The export run's clamping of the region to the frame then changes
    nothing: the clamped origin is the origin and the clamped size the
    size. *)
Theorem drawn_crop_region_is_inside img_h img_w cfg g evs :
  1 ≤ img_h → 1 ≤ img_w → authoring_ok img_h img_w cfg g →
  let cfg' := (handle_all img_h img_w (cfg, g) evs).1.1 in
  crop_region_inside img_h img_w cfg'
  ∧ clamped_origin img_w (crop_x cfg') = crop_x cfg'
  ∧ clamped_origin img_h (crop_y cfg') = crop_y cfg'
  ∧ crop_width cfg' `min` (img_w - crop_x cfg') = crop_width cfg'
  ∧ crop_height cfg' `min` (img_h - crop_y cfg') = crop_height cfg'.
Proof.
  intros Hh Hw Hok.
  destruct (handle_all_keeps img_h img_w evs cfg g Hh Hw Hok)
    as (cfg' & g' & -> & Hok' & _).
  destruct Hok' as (_ & _ & _ & Hcrop & _). simpl.
  split; [done|].
  destruct Hcrop as [(? & ? & ?) (? & ? & ?)].
  unfold clamped_origin. lia.
Qed.

End Gestures.

(** ** Detected faces as shapes *)

Section FaceShapes.
Context `{cv : OpenCV} `{ft : FaceTracker} `{cnv : Canvas}.

Lemma cv2_rectangle_normalised m x1 y1 x2 y2 v :
  cv2_rectangle m (x1 `min` x2, y1 `min` y2) (x1 `max` x2, y1 `max` y2) v
  = cv2_rectangle m (x1, y1) (x2, y2) v.
Proof.
  unfold cv2_rectangle. apply imap_ext. intros i row _.
  apply imap_ext. intros j old _. simpl. by rewrite in_rect_normalised.
Qed.

Lemma add_face_shape_settings g cfg f :
  mask_shape (add_face_shape g cfg f) = mask_shape cfg
  ∧ frame_index (add_face_shape g cfg f) = frame_index cfg
  ∧ total_frames (add_face_shape g cfg f) = total_frames cfg.
Proof.
  unfold add_face_shape. destruct (bbox f) as [[[x y] w] h].
  destruct (String.eqb (mask_shape cfg) "rectangle"); [done|].
  destruct (String.eqb (mask_shape cfg) "oval"); [done|].
  by destruct (String.eqb (mask_shape cfg) "precise").
Qed.

Lemma add_face_shape_mask g cfg f :
  mask_shape cfg = "rectangle" ∨ mask_shape cfg = "oval"
  ∨ mask_shape cfg = "precise" →
  ∃ s, shapes (add_face_shape g cfg f) = shapes cfg ++ [s]
       ∧ frame_fields s = [frame_index cfg; total_frames cfg - 1]
       ∧ (∀ h w, ∃ m, shape_mask h w s = Ok m)
       ∧ (mask_shape cfg ≠ "oval" →
          ∀ h w, shape_mask h w s
                 = draw_face (mask_shape cfg) (zeros h w) f).
Proof.
  intros Hshape. unfold add_face_shape, draw_face.
  destruct (bbox f) as [[[x y] w] h].
  destruct Hshape as [-> | [-> | ->]]; simpl; eexists;
    (split; [reflexivity|]); (split; [reflexivity|]).
  - split; [intros h' w'; by eexists|].
    intros _ h' w'. unfold shape_mask. simpl.
    by rewrite cv2_rectangle_normalised.
  - split; [|done]. intros h' w'. unfold shape_mask. simpl. by eexists.
  - split; [|by intros _ h' w'].
    intros h' w'. unfold shape_mask. simpl.
    destruct (face_outline_points x y w h) as (p & ps & ->). by eexists.
Qed.

Lemma add_face_shapes_masks g faces : ∀ cfg,
  mask_shape cfg = "rectangle" ∨ mask_shape cfg = "oval"
  ∨ mask_shape cfg = "precise" →
  ∃ added,
    shapes (foldl (add_face_shape g) cfg faces) = shapes cfg ++ added
    ∧ Forall2
        (λ f s,
           frame_fields s = [frame_index cfg; total_frames cfg - 1]
           ∧ (∀ h w, ∃ m, shape_mask h w s = Ok m)
           ∧ (mask_shape cfg ≠ "oval" →
              ∀ h w, shape_mask h w s
                     = draw_face (mask_shape cfg) (zeros h w) f))
        faces added.
Proof.
  induction faces as [|f faces IH]; intros cfg Hshape; cbn [foldl].
  { exists []. by rewrite app_nil_r. }
  destruct (add_face_shape_mask g cfg f Hshape)
    as (s & Hs & Hrange & Hok & Hmask).
  destruct (add_face_shape_settings g cfg f) as (Hm & Hi & Ht).
  destruct (IH (add_face_shape g cfg f)) as (added & Hadded & Hall).
  { by rewrite Hm. }
  exists (s :: added). split.
  - rewrite Hadded, Hs. by rewrite <- app_assoc.
  - constructor; [done|]. by rewrite Hm, Hi, Ht in Hall.
Qed.

(** The handler changes the list of shapes and nothing else. *)
Lemma add_face_shape_only_shapes g cfg f :
  ∃ l, add_face_shape g cfg f = with_shapes cfg l.
Proof.
  unfold add_face_shape. destruct (bbox f) as [[[x y] w] h].
  destruct (String.eqb (mask_shape cfg) "rectangle"); [by eexists|].
  destruct (String.eqb (mask_shape cfg) "oval"); [by eexists|].
  destruct (String.eqb (mask_shape cfg) "precise"); [by eexists|].
  exists (shapes cfg). by destruct cfg.
Qed.

Lemma add_face_shapes_only_shapes g faces : ∀ cfg,
  ∃ l, foldl (add_face_shape g) cfg faces = with_shapes cfg l.
Proof.
  induction faces as [|f faces IH]; intros cfg; cbn [foldl].
  { exists (shapes cfg). by destruct cfg. }
  destruct (add_face_shape_only_shapes g cfg f) as [l ->].
  destruct (IH (with_shapes cfg l)) as [l' ->]. by exists l'.
Qed.

(** X23. With one of the three mask shapes, "detect faces in the current
    frame" appends one shape per detected face, in order, each ranging from
    the current frame to the last frame of the video and each one the
    compositor can compute a mask for.  With the mask shape [rectangle] or
    [precise] that mask is the one the automatic face stage draws for the
    face alone.  The handler advances the detector and then redraws the
    preview with the new shapes; the count of faces is reported when the
    redraw has returned without raising.  With face detection switched off,
    or when the frame cannot be read, the tracks are those before the call;
    with face detection switched on the redraw refreshes them as any
    preview does, from the detector state the handler left. *)
Theorem detected_faces_become_shapes cfg g s cap frame :
  mask_shape cfg = "rectangle" ∨ mask_shape cfg = "oval"
  ∨ mask_shape cfg = "precise" →
  let detected := detect_faces cfg (det s) frame in
  let faces := detected.1 in
  let handled := mkSession (tracked_faces s) detected.2 in
  let res := detect_faces_current_frame cfg g s cap (Some frame) in
  (∃ added,
     shapes res.1.1 = shapes cfg ++ added
     ∧ Forall2
         (λ f s,
            frame_fields s = [frame_index cfg; total_frames cfg - 1]
            ∧ (∀ h w, ∃ m, shape_mask h w s = Ok m)
            ∧ (mask_shape cfg ≠ "oval" →
               ∀ h w, shape_mask h w s
                      = draw_face (mask_shape cfg) (zeros h w) f))
         faces added)
  ∧ res.1.2 = show_current_frame res.1.1 cap handled
  ∧ res.2 = match shown_raised res.1.2 with
            | Some _ => None
            | None => Some (Z.of_nat (length faces))
            end
  ∧ shown_session res.1.2
    = match cap_read cap (frame_index cfg) with
      | None => handled
      | Some shown_frame =>
          if auto_detect_faces cfg && rtmpose_initialized cfg
          then refresh_faces cfg (frame_index cfg) handled shown_frame
          else handled
      end
  ∧ (cap_read cap (frame_index cfg) = None →
     res.2 = Some (Z.of_nat (length faces))
     ∧ shown_statuses res.1.2 = [FailedToReadFrame]).
Proof.
  intros Hshape detected faces handled res.
  unfold res, handled, faces, detected, detect_faces_current_frame.
  destruct (detect_faces cfg (det s) frame) as [fs d']. cbn [fst snd].
  split_and!; [by apply add_face_shapes_masks|done|done| |].
  - rewrite show_current_frame_session.
    destruct (add_face_shapes_only_shapes g fs cfg) as [l ->].
    change (frame_index (with_shapes cfg l)) with (frame_index cfg).
    destruct (cap_read cap (frame_index cfg)) as [f0|]; [|done].
    by rewrite process_frame_session.
  - intros Hnone.
    destruct (add_face_shapes_only_shapes g fs cfg) as [l ->].
    unfold show_current_frame.
    change (frame_index (with_shapes cfg l)) with (frame_index cfg).
    by rewrite Hnone.
Qed.

End FaceShapes.

(** ** The face data file *)

Section FaceFile.
Context `{cv : OpenCV} `{ft : FaceTracker} `{enc : Encoder} `{cnv : Canvas}.

Lemma foldl_snapshot_lookup tracked : ∀ (m : gmap string FaceSnapshot) k,
  foldl (λ faces f, <[str (face_id f) := snapshot f]> faces) m tracked
    !! str k
  = match last (filter (λ f, face_id f = k) tracked) with
    | Some f => Some (snapshot f)
    | None => m !! str k
    end.
Proof.
  induction tracked as [|f tracked IH]; intros m k; cbn [foldl]; [done|].
  rewrite IH, filter_cons.
  destruct (decide (face_id f = k)) as [Hk|Hk].
  - rewrite last_cons.
    destruct (last (filter (λ f, face_id f = k) tracked)); [done|].
    by rewrite Hk, lookup_insert_eq.
  - destruct (last (filter (λ f, face_id f = k) tracked)); [done|].
    rewrite lookup_insert_ne; [done|].
    intros Heq. apply Hk. by apply (inj pretty).
Qed.

(** X24. [export_face_data] exports nothing exactly when there is no
    track or no input video.  Otherwise the file names the input video, and
    the entry of a face id is the snapshot (box, confidence and frame of the
    same appearance) of the last track with that id; an id with no track has
    no entry. *)
Theorem exported_face_is_last_track cfg tracked :
  (export_face_data cfg tracked = None
   ↔ tracked = [] ∨ input_video cfg = None)
  ∧ ∀ path video faces,
      export_face_data cfg tracked = Some (path, (video, faces)) →
      input_video cfg = Some video
      ∧ ∀ k, faces !! str k
             = snapshot <$> last (filter (λ f, face_id f = k) tracked).
Proof.
  unfold export_face_data. split.
  - destruct tracked as [|f tracked]; [by split; [left|]|].
    destruct (input_video cfg); (split; [|intros [|]]); try done; by right.
  - intros path video faces H.
    destruct tracked as [|f tracked]; [done|].
    destruct (input_video cfg) as [input|]; [|done].
    injection H as _ <- <-. split; [done|]. intros k.
    pose proof (foldl_snapshot_lookup (f :: tracked) ∅ k) as Hl.
    cbn [foldl] in Hl. rewrite Hl.
    destruct (last _); [done|apply lookup_empty].
Qed.

Lemma process_video_json_path cfg cap s p t :
  json_file (process_video cfg cap s) = Some (p, t) →
  ∃ input out_dir,
    input_video cfg = Some input ∧ output_path cfg = Some out_dir
    ∧ p = Path.join out_dir
            ((Path.splitext (Path.basename input)).1 +:+ "_faces.json").
Proof.
  unfold process_video. intros H.
  destruct (input_video cfg) as [input|]; [|done].
  destruct (output_path cfg) as [out_dir|]; [|done].
  exists input, out_dir. split_and!; [done|done|].
  destruct (output_size cfg cap) as [ow oh].
  destruct (get_video_writer _ ow oh) as [tried out].
  destruct (isOpened out); simpl negb in H; cbv iota in H; [|done].
  destruct (frame_range cfg) as [a b].
  match type of H with
  | context [export_loop ?n cfg cap b ?r0] =>
      destruct (export_loop n cfg cap b r0) as [r exit]
  end.
  destruct exit; simpl in H;
    try (destruct (_ && negb (bool_decide (tel_faces (telemetry r) = ∅)));
         simpl in H);
    try done; by injection H as <- _.
Qed.

(** X25. The face data file of an export run and the file written by
    [export_face_data] are the same file: when a run saves its telemetry and
    an output directory is set, [export_face_data] writes to the path the
    run wrote to. *)
Theorem face_data_files_coincide cfg cap s tracked p t path data :
  json_file (process_video cfg cap s) = Some (p, t) →
  export_face_data cfg tracked = Some (path, data) →
  output_path cfg ≠ Some "" →
  path = p.
Proof.
  intros Hrun Hexp Hdir.
  apply process_video_json_path in Hrun
    as (input & out_dir & Hi & Ho & ->).
  unfold export_face_data in Hexp. rewrite Hi, Ho in Hexp.
  destruct tracked as [|f tracked]; [done|].
  destruct (String.eqb_spec out_dir "") as [->|_]; [by rewrite Ho in Hdir|].
  by injection Hexp as <- _.
Qed.

End FaceFile.

(** ** Opening a video *)

Section Opening.
Context `{cv : OpenCV} `{ft : FaceTracker} `{enc : Encoder} `{cnv : Canvas}.

(** No stage of the compositor is switched on. *)
Lemma export_frame_plain cfg width height idx count s t frame :
  auto_detect_faces cfg && rtmpose_initialized cfg = false →
  shapes cfg = [] → crop_ready cfg = false →
  rotation_enabled cfg = false →
  export_frame cfg width height idx count s t frame = (s, t, Ok frame).
Proof.
  intros Hauto Hshapes Hcrop Hrot. unfold export_frame, export_crop.
  by rewrite Hauto, Hshapes, Hcrop, Hrot.
Qed.

Lemma process_frame_plain cfg s frame :
  auto_detect_faces cfg && rtmpose_initialized cfg = false →
  shapes cfg = [] → crop_ready cfg = false →
  rotation_enabled cfg = false →
  process_frame cfg s frame = (s, Ok frame).
Proof.
  intros Hauto Hshapes Hcrop Hrot. unfold process_frame, preview_crop.
  by rewrite Hauto, Hshapes, Hcrop, Hrot.
Qed.

Lemma export_loop_verbatim cfg cap end_frame (fuel : nat) : ∀ r r' exit,
  (∀ idx count s t frame,
     export_frame cfg (cap_width cap) (cap_height cap) idx count s t frame
     = (s, t, Ok frame)) →
  export_loop fuel cfg cap end_frame r = (r', exit) →
  ∀ f, f ∈ written r' →
    f ∈ written r
    ∨ ∃ i, current_frame_idx r ≤ i ≤ end_frame ∧ cap_read cap i = Some f.
Proof.
  induction fuel as [|fuel IH]; intros r r' exit Hplain H f Hf;
    cbn [export_loop] in H.
  { injection H as <- <-. by left. }
  destruct (Z.leb_spec (current_frame_idx r) end_frame) as [Hle|Hgt].
  2:{ injection H as <- <-. by left. }
  destruct (cap_read cap (current_frame_idx r)) as [frame|] eqn:Hread.
  2:{ injection H as <- <-. by left. }
  rewrite Hplain in H.
  destruct (write_raises frame);
    destruct (IH _ _ _ Hplain H f Hf) as [Hold|(i & Hi & Hfi)];
    cbn [written current_frame_idx] in *.
  - by left.
  - right. exists i. split; [lia|done].
  - apply elem_of_app in Hold as [Hold|Hnew]; [by left|].
    apply list_elem_of_singleton in Hnew as ->.
    right. exists (current_frame_idx r). split; [lia|done].
  - right. exists i. split; [lia|done].
Qed.

(** X26. After a video of [n] frames has been opened, the export range is
    the whole video, [0 .. n - 1], whether or not "entire video" is ticked
    and whatever the state was before; the list of shapes is empty, the
    preview stands at frame 0 and the output has the size of the capture.
    The call ends with a redraw of frame 0, from no tracks and reset
    trackers: the tracks after the call are what the detector reports on
    frame 0 when face detection is on and the frame can be read, and none
    otherwise.  With face detection off the preview shows every frame as it
    is and an export run hands to the writer only frames read from the
    capture, unchanged. *)
Theorem opened_video_is_exported_verbatim cfg s path cap n :
  path ≠ "" →
  let opened := open_video cfg s path (Some (cap, n)) in
  let cfg' := opened.1 in
  let reset := mkSession [] (reset_trackers cfg (det s)) in
  frame_range cfg' = (0, n - 1)
  ∧ frame_index cfg' = 0
  ∧ shapes cfg' = []
  ∧ output_size cfg' cap = (cap_width cap, cap_height cap)
  ∧ opened.2 = show_current_frame cfg' cap reset
  ∧ tracked_faces (shown_session opened.2)
    = match cap_read cap 0 with
      | Some frame =>
          if auto_detect_faces cfg && rtmpose_initialized cfg
          then (pose_and_track (det reset) 0 frame).1
          else []
      | None => []
      end
  ∧ (auto_detect_faces cfg && rtmpose_initialized cfg = false →
     (∀ s0 frame, process_frame cfg' s0 frame = (s0, Ok frame))
     ∧ (∀ s0 r exit,
          final (process_video cfg' cap s0) = Some (r, exit) →
          ∀ f, f ∈ written r →
            ∃ i, 0 ≤ i ≤ n - 1 ∧ cap_read cap i = Some f)).
Proof.
  intros Hpath opened cfg' reset.
  unfold cfg', opened, reset, open_video.
  replace (String.eqb path "") with false
    by (symmetry; by apply String.eqb_neq).
  cbn [fst snd].
  set (c := mkConfig _ _ _ _ _ _ _ _ _ _ _ _ _ _ _ _ _ _ _ _ _ _ _ _ _ _ _ _ _ _ _).
  assert (frame_range c = (0, n - 1)) as Hrange.
  { unfold frame_range. simpl. by destruct (blur_entire_video cfg). }
  split_and!; [done|done|done|done|done| |].
  - rewrite show_current_frame_session.
    change (frame_index c) with 0.
    destruct (cap_read cap 0) as [frame|]; [|done].
    rewrite process_frame_session.
    change (auto_detect_faces c) with (auto_detect_faces cfg).
    change (rtmpose_initialized c) with (rtmpose_initialized cfg).
    destruct (auto_detect_faces cfg && rtmpose_initialized cfg) eqn:Hauto;
      [|done].
    apply andb_prop in Hauto as [_ Hinit].
    unfold refresh_faces. change (frame_index c) with 0.
    rewrite detection_due_first. unfold detect_faces.
    change (rtmpose_initialized c) with (rtmpose_initialized cfg).
    rewrite Hinit. simpl. by destruct (pose_and_track _ _ _).
  - intros Hauto.
    assert (auto_detect_faces c && rtmpose_initialized c = false) as Hoff
      by done.
    split.
    + intros s0 frame. by apply process_frame_plain.
    + intros s0 r exit Hfinal f Hf.
      apply process_video_final in Hfinal
        as (input & out_dir & _ & _ & _ & Hrun).
      unfold started_loop in Hrun. rewrite Hrange in Hrun. symmetry in Hrun.
      eapply export_loop_verbatim in Hrun;
        [|by intros; apply export_frame_plain|exact Hf].
      destruct Hrun as [Hnone|Hsome]; [by apply elem_of_nil in Hnone|done].
Qed.

End Opening.

(** ** What no handler assigns *)

Section Untouched.
Context `{cv : OpenCV} `{ft : FaceTracker} `{cnv : Canvas}.

Lemma handle_same_face_settings img_h img_w cfg g ev :
  same_face_settings cfg (handle img_h img_w (cfg, g) ev).1.1.
Proof.
  destruct ev; cbn [handle];
    unfold on_mouse_down, on_mouse_move, on_mouse_up, on_double_click,
      start_crop_drawing, reset_crop;
    repeat case_match; by simpl.
Qed.

Lemma handle_all_same_face_settings img_h img_w evs : ∀ cfg g,
  same_face_settings cfg (handle_all img_h img_w (cfg, g) evs).1.1.
Proof.
  induction evs as [|ev evs IH]; intros cfg g; cbn [handle_all]; [done|].
  pose proof (handle_same_face_settings img_h img_w cfg g ev) as [Hs Ht].
  destruct (handle img_h img_w (cfg, g) ev) as [[cfg1 g1] o].
  pose proof (IH cfg1 g1) as [Hs' Ht'].
  destruct (handle_all img_h img_w (cfg1, g1) evs) as [[cfg2 g2] raised].
  simpl in *. split; congruence.
Qed.

Lemma add_face_shapes_same_face_settings g faces : ∀ cfg,
  same_face_settings cfg (foldl (add_face_shape g) cfg faces).
Proof.
  induction faces as [|f faces IH]; intros cfg; cbn [foldl]; [done|].
  destruct (IH (add_face_shape g cfg f)) as [Hs Ht].
  assert (same_face_settings cfg (add_face_shape g cfg f)) as [Hs' Ht'].
  { unfold add_face_shape. destruct (bbox f) as [[[x y] w] h].
    repeat case_match; by simpl. }
  split; congruence.
Qed.

(** X27. No handler of the authoring state assigns [mask_shape] or
    [mask_type]: whatever is drawn, navigated, rotated, trimmed, ranged,
    detected or opened, the automatic face stage keeps the mask shape and
    the effect it started with. *)
Theorem face_settings_are_never_assigned cfg :
  (∀ img_h img_w g evs,
     same_face_settings cfg (handle_all img_h img_w (cfg, g) evs).1.1)
  ∧ (∀ navs, same_face_settings cfg (foldl navigate cfg navs))
  ∧ (∀ a, same_face_settings cfg (set_rotation cfg a)
          ∧ same_face_settings cfg (apply_rotation cfg a)
          ∧ same_face_settings cfg (update_blur_strength cfg a).1)
  ∧ (∀ opened d pos,
       same_face_settings cfg (toggle_trim cfg opened)
       ∧ same_face_settings cfg (on_trim_drag cfg d pos))
  ∧ (∀ checked,
       same_face_settings cfg (toggle_face_detection cfg checked).1
       ∧ same_face_settings cfg (toggle_crop cfg))
  ∧ (∀ selection a b,
       same_face_settings cfg (set_shape_frame_range cfg selection a b).1
       ∧ same_face_settings cfg (delete_selected_shape cfg selection)
       ∧ same_face_settings cfg (clear_shapes cfg))
  ∧ (∀ g s cap current_frame,
       same_face_settings cfg
         (detect_faces_current_frame cfg g s cap current_frame).1.1)
  ∧ (∀ s video_path capture,
       same_face_settings cfg (open_video cfg s video_path capture).1).
Proof.
  split_and!.
  - intros. apply handle_all_same_face_settings.
  - intros navs. revert cfg. induction navs as [|nav navs IH]; intros cfg;
      cbn [foldl]; [done|].
    destruct (IH (navigate cfg nav)) as [Hs Ht].
    assert (same_face_settings cfg (navigate cfg nav)) as [Hs' Ht'].
    { destruct nav; simpl;
        unfold next_frame, prev_frame, jump_frames, on_slider_change;
        repeat case_match; by simpl. }
    split; congruence.
  - intros a. unfold apply_rotation, set_rotation, update_blur_strength.
    by split_and!.
  - intros opened d pos. unfold toggle_trim, on_trim_drag.
    split; repeat case_match; by simpl.
  - intros checked. unfold toggle_face_detection, toggle_crop.
    split; repeat case_match; by simpl.
  - intros selection a b.
    unfold set_shape_frame_range, delete_selected_shape, clear_shapes.
    split_and!; repeat case_match; by simpl.
  - intros g s cap current_frame. unfold detect_faces_current_frame.
    destruct current_frame as [frame|]; [|done].
    destruct (detect_faces cfg (det s) frame) as [faces d']. simpl.
    apply add_face_shapes_same_face_settings.
  - intros s video_path capture. unfold open_video.
    repeat case_match; by simpl.
Qed.

(** X28. The two check boxes are guarded.  After [toggle_face_detection]
    detection is on exactly when the box was ticked and RTMPose is
    available, and the box shows it; the compositor's test
    [auto_detect_faces and rtmpose_initialized] then is the switch itself.
    After [toggle_crop] cropping is on exactly when the box was ticked and a
    region with positive width and height is set. *)
Theorem switches_are_guarded cfg checked :
  let cfg1 := (toggle_face_detection cfg checked).1 in
  let cfg2 := toggle_crop cfg in
  auto_detect_faces cfg1 = checked && rtmpose_initialized cfg
  ∧ (toggle_face_detection cfg checked).2 = auto_detect_faces cfg1
  ∧ auto_detect_faces cfg1 && rtmpose_initialized cfg1 = auto_detect_faces cfg1
  ∧ crop_enabled cfg2 = crop_ready cfg
  ∧ crop_ready cfg2 = crop_enabled cfg2.
Proof.
  unfold toggle_face_detection, toggle_crop, crop_ready. simpl.
  split_and!.
  - destruct checked, (rtmpose_initialized cfg); done.
  - destruct checked, (rtmpose_initialized cfg); done.
  - destruct checked, (rtmpose_initialized cfg) eqn:Hr; simpl; by rewrite ?Hr.
  - destruct (crop_enabled cfg) eqn:He; [|done].
    destruct (Z.leb_spec (crop_width cfg) 0), (Z.leb_spec (crop_height cfg) 0);
      simpl; rewrite ?He; simpl; lia.
  - destruct (crop_enabled cfg) eqn:He; [|by rewrite He].
    destruct (Z.leb_spec (crop_width cfg) 0), (Z.leb_spec (crop_height cfg) 0);
      simpl; rewrite ?He; simpl; lia.
Qed.

End Untouched.

(** * Witnesses of the further properties *)

Section FurtherWitnesses.
Import Demo.

(** The fill effects at a 2 by 2 frame and a diagonal mask. *)
Lemma fill_effects_pixelwise_witness :
  ∃ r, apply_mask_effect (cv := Demo.cv) (frame_no 7) [[255; 0]; [0; 255]]
         "solid" 21 (300, 2, 3) = Ok r
       ∧ at_ r 0 0 = Some (44, 2, 3)
       ∧ at_ r 0 1 = Some (7, 30, 40).
Proof.
  eexists. split; [vm_compute; reflexivity|]. split.
  - by apply (fill_effects_pixelwise (cv := Demo.cv) (frame_no 7)
                [[255; 0]; [0; 255]] 21 (300, 2, 3) _ 0 0 255 eq_refl).
  - by apply (fill_effects_pixelwise (cv := Demo.cv) (frame_no 7)
                [[255; 0]; [0; 255]] 21 (300, 2, 3) _ 0 1 0 eq_refl).
Defined.

(** A rectangle ranging over frames 7 to 9, on frame 5. *)
Lemma inactive_shape_has_no_effect_witness :
  apply_shapes (cv := Demo.cv) 2 2 5
    ([] ++ mkShape "rectangle" [(0, 0); (1, 1)] "black" 21 (0, 0, 0) [7; 9]
        :: [])
    (frame_no 5)
  = apply_shapes (cv := Demo.cv) 2 2 5 ([] ++ []) (frame_no 5).
Proof.
  apply (inactive_shape_has_no_effect (cv := Demo.cv) 2 2 5 []
           (mkShape "rectangle" [(0, 0); (1, 1)] "black" 21 (0, 0, 0) [7; 9])
           [] 7 9 []); [reflexivity|left; lia].
Defined.

(** Two tracks on a 2 by 2 frame: the pixel at row 1, column 1 lies in the
    box of the first one. *)
Lemma rectangle_face_mask_is_union_witness :
  ∃ mask,
    create_face_mask (cv := Demo.cv)
      (state 0 [] true false "mask" 0 true false 0 0)
      [mkFace 4 (1, 1, 1, 1) (Some 1%Q) 0; mkFace 5 (0, 0, 0, 0) None 0]
      (frame_no 0) = Ok mask
    ∧ at_ mask 1 1 = Some 255.
Proof.
  destruct (rectangle_face_mask_is_union (cv := Demo.cv)
              (state 0 [] true false "mask" 0 true false 0 0)
              [mkFace 4 (1, 1, 1, 1) (Some 1%Q) 0; mkFace 5 (0, 0, 0, 0) None 0]
              (frame_no 0) 1 1 eq_refl) as (mask & Hmask & Hat).
  exists mask. split; [exact Hmask|]. rewrite Hat. reflexivity.
Defined.

(** A traditional crop to the top-left pixel of a 2 by 2 frame. *)
Lemma traditional_crop_cuts_region_witness :
  let cfg := state 0 [] false true "traditional" 0 true false 0 0 in
  ∃ r, export_crop (cv := Demo.cv) cfg 2 2 0 (frame_no 0) = Ok r
       ∧ has_shape 1 1 r
       ∧ at_ r 0 0 = at_ (frame_no 0) 0 0
       ∧ output_size cfg video = (1, 1).
Proof.
  intros cfg.
  pose proof (traditional_crop_cuts_region (cv := Demo.cv) 2 2 cfg 0
                (frame_no 0) video (frame_no_shape 0)) as H.
  destruct H as (r & Hr & Hshape & Hpix & Hout & _);
    [lia|lia|reflexivity|reflexivity|by left|].
  exists r. split_and!; [exact Hr|exact Hshape| |exact Hout].
  apply (Hpix 0 0)%nat; vm_compute; lia.
Defined.

(** A mask crop keeping the top-left pixel of a 2 by 2 frame, black
    outside. *)
Lemma mask_crop_keeps_region_witness :
  let cfg := state 0 [] false true "mask" 0 true false 0 0 in
  ∃ r, export_crop (cv := Demo.cv) cfg 2 2 0 (frame_no 0) = Ok r
       ∧ at_ r 0 0 = at_ (frame_no 0) 0 0
       ∧ at_ r 1 1 = Some (0, 0, 0).
Proof.
  intros cfg. eexists. split; [vm_compute; reflexivity|]. split.
  - apply (mask_crop_keeps_region (cv := Demo.cv) 2 2 cfg 0 (frame_no 0) _
             0 0); try reflexivity; try lia; try (by left); done.
  - apply (mask_crop_keeps_region (cv := Demo.cv) 2 2 cfg 0 (frame_no 0) _
             1 1); try reflexivity; try lia; try (by left); done.
Defined.

(** An export of frames 10 to 12. *)
Lemma run_counters_agree_witness :
  let cfg := state 0 [] false false "traditional" 0 true true 10 12 in
  let run := started_loop (cv := Demo.cv) (ft := tracker) (enc := enc_any)
               cfg video fresh "in/clip.mp4" in
  frame_count run.1 = current_frame_idx run.1 - 10
  ∧ Z.of_nat (length (written run.1)) + errors run.1 = frame_count run.1
  ∧ 0 ≤ errors run.1.
Proof.
  intros cfg run.
  destruct (run_counters_agree (cv := Demo.cv) (ft := tracker)
              (enc := enc_any) (cnv := canvas) cfg video fresh run.1 run.2)
    as (Hidx & Hsum & Herr & _).
  - vm_compute. reflexivity.
  - split_and!; [exact Hidx|exact Hsum|exact Herr].
Defined.

(** An export whose only shape is a rectangle with a single point: the
    compositor raises on the first frame, and so does the redraw that ends
    the call, which therefore sets no status. *)
Lemma completion_follows_exception_witness :
  let cfg :=
    state 0 [mkShape "rectangle" [(0, 0)] "black" 21 (0, 0, 0) [0; 99]]
      false false "traditional" 0 true false 0 0 in
  let rep := process_video (cv := Demo.cv) (ft := tracker) (enc := enc_any)
               (cnv := canvas) cfg video fresh in
  let run := started_loop (cv := Demo.cv) (ft := tracker) (enc := enc_any)
               cfg video fresh "in/clip.mp4" in
  let shown := final_redraw (cv := Demo.cv) (cnv := canvas) cfg video run.1 in
  run.2 = Raised IndexError
  ∧ released rep = true
  ∧ redraw rep = Some shown
  ∧ shown_raised shown = Some IndexError
  ∧ ∃ out,
      statuses rep
      = [ErrorDuringProcessing IndexError] ++ [completion run.1 out]
          ++ shown_statuses shown
      ∧ json_file rep = None.
Proof.
  intros cfg rep run shown.
  destruct (completion_follows_exception (cv := Demo.cv) (ft := tracker)
              (enc := enc_any) (cnv := canvas) cfg video fresh run.1 run.2)
    as (Hrel & Hredraw & out & saved & Hst & _ & Hraised & _).
  - vm_compute. reflexivity.
  - destruct (Hraised IndexError) as [Hsaved Hjson]; [reflexivity|].
    split; [reflexivity|]. split; [exact Hrel|]. split; [exact Hredraw|].
    split; [reflexivity|].
    exists out. split; [|exact Hjson]. by rewrite <- Hsaved.
Defined.

(** Trimming a 100-frame video: the start handle dragged past the end, then
    the end handle dragged before the start. *)
Lemma trim_range_stays_ordered_witness :
  let cfg := state 0 [] false false "traditional" 0 true true 0 0 in
  let cfg' :=
    foldl (λ c d, on_trim_drag c d.1 d.2) (toggle_trim cfg true)
      [(mkTrimHandles true false, 150); (mkTrimHandles false true, -5)] in
  trim_ordered cfg' ∧ frame_range cfg' = (98, 99).
Proof.
  intros cfg cfg'.
  destruct (trim_range_stays_ordered cfg
              [(mkTrimHandles true false, 150); (mkTrimHandles false true, -5)])
    as (Hord & Hrange & _); [simpl; lia|reflexivity|].
  split; [exact Hord|exact Hrange].
Defined.

(** Navigating from frame 98 of a 100-frame video. *)
Lemma navigation_stays_in_video_witness :
  let cfg := state 98 [] false false "traditional" 0 true false 0 0 in
  0 ≤ frame_index (foldl navigate cfg [GoNext; GoNext; Jump 10; GoPrev; Slide (-4)])
    ≤ 99.
Proof.
  intros cfg.
  apply (navigation_stays_in_video cfg
           [GoNext; GoNext; Jump 10; GoPrev; Slide (-4)]); simpl; lia.
Defined.

(** Typing -5 and 1000 as the range of the only shape of a 100-frame
    video. *)
Lemma typed_frame_range_is_clamped_witness :
  let s := mkShape "rectangle" [(0, 0); (1, 1)] "black" 21 (0, 0, 0) [3; 99] in
  let cfg := state 0 [s] false false "traditional" 0 true false 0 0 in
  ∃ cfg' s',
    set_shape_frame_range cfg [0%nat] (Some (-5)) (Some 1000)
    = (cfg', Some (ShapeRangeSet 1 0 99))
    ∧ shapes cfg' = [s']
    ∧ shape_skipped 50 s' = false.
Proof.
  intros s cfg.
  destruct (typed_frame_range_is_clamped cfg 0 [] s (-5) 1000)
    as (cfg' & s' & Hset & Hshapes & _ & _ & _ & Hskip);
    [reflexivity|simpl; lia|].
  exists cfg', s'. split_and!; [exact Hset|exact Hshapes|].
  by rewrite Hskip.
Defined.

(** Selecting the only shape of a 100-frame video, ranged 3 to 99, and
    setting the range shown. *)
Lemma reselected_range_is_kept_witness :
  let s := mkShape "rectangle" [(0, 0); (1, 1)] "black" 21 (0, 0, 0) [3; 99] in
  let cfg := state 0 [s] false false "traditional" 0 true false 0 0 in
  on_shape_selected cfg [0%nat] = Some (3, 99)
  ∧ (set_shape_frame_range cfg [0%nat] (Some 3) (Some 99)).1 = cfg.
Proof.
  intros s cfg.
  destruct (reselected_range_is_kept cfg 0 [] s 3 99 [])
    as (Hsel & Hset & _); [reflexivity|reflexivity|lia|simpl; lia|].
  split; [exact Hsel|exact Hset].
Defined.

(** A rectangle, a triangle and a crop region drawn on a 2 by 2 frame. *)
Lemma gestures_never_raise_witness :
  (handle_all 2 2
     (state 0 [] false false "traditional" 0 true false 0 0,
      mkGesture false false [] "rectangle" "blur")
     [MouseDown 0 0; MouseMove 1 1; MouseUp 5 5; SetDrawingMode "polygon";
      MouseDown 0 0; MouseDown 1 0; MouseDown 1 1; DoubleClick;
      SetDrawingMode "freehand"; MouseDown 0 0; MouseMove 1 0; MouseUp 1 1;
      StartCropDrawing; MouseDown 1 1; MouseMove 0 1; MouseUp 0 0]).2
  = [].
Proof.
  apply gestures_never_raise; [lia|lia|].
  unfold authoring_ok, crop_region_inside. simpl.
  split_and!; (done || lia || constructor).
Defined.

Lemma drawn_shapes_are_well_drawn_witness :
  let cfg' :=
    (handle_all 2 2
       (state 0 [] false false "traditional" 0 true false 0 0,
        mkGesture false false [] "rectangle" "blur")
       [MouseDown 0 0; MouseMove 1 1; MouseUp 5 5; SetDrawingMode "polygon";
        MouseDown 0 0; MouseDown 1 0; MouseDown 1 1; DoubleClick]).1.1 in
  length (shapes cfg') = 2%nat
  ∧ Forall (well_drawn 2 2) (shapes cfg').
Proof.
  intros cfg'.
  destruct (drawn_shapes_are_well_drawn (cv := Demo.cv) 2 2
              (state 0 [] false false "traditional" 0 true false 0 0)
              (mkGesture false false [] "rectangle" "blur")
              [MouseDown 0 0; MouseMove 1 1; MouseUp 5 5;
               SetDrawingMode "polygon";
               MouseDown 0 0; MouseDown 1 0; MouseDown 1 1; DoubleClick])
    as (_ & Hall & _); [lia|lia| |].
  - unfold authoring_ok, crop_region_inside. simpl.
    split_and!; (done || lia || constructor).
  - split; [reflexivity|exact Hall].
Defined.

Lemma drawn_crop_region_is_inside_witness :
  let cfg' :=
    (handle_all 3 3
       (state 0 [] false false "traditional" 0 true false 0 0,
        mkGesture false false [] "rectangle" "blur")
       [StartCropDrawing; MouseDown 2 2; MouseMove 0 1; MouseUp 0 (-4)]).1.1 in
  crop_region_inside 3 3 cfg'
  ∧ (crop_x cfg', crop_y cfg', crop_width cfg', crop_height cfg') = (0, 0, 2, 2).
Proof.
  intros cfg'.
  destruct (drawn_crop_region_is_inside 3 3
              (state 0 [] false false "traditional" 0 true false 0 0)
              (mkGesture false false [] "rectangle" "blur")
              [StartCropDrawing; MouseDown 2 2; MouseMove 0 1; MouseUp 0 (-4)])
    as (Hin & _); [lia|lia| |].
  - unfold authoring_ok, crop_region_inside. simpl.
    split_and!; (done || lia || constructor).
  - split; [exact Hin|reflexivity].
Defined.

(** Detecting the face of frame 3 while the preview stands at frame 0, with
    face detection switched on: one shape is added, and the redraw runs the
    detector once more, on frame 0, and assigns the tracks. *)
Lemma detected_faces_become_shapes_witness :
  let cfg := oval_state 0 [] true false "traditional" 0 true false 0 0 in
  let res := detect_faces_current_frame (cv := Demo.cv) (ft := tracker)
               (cnv := canvas) cfg
               (mkGesture false false [] "rectangle" "blur") fresh video
               (Some (frame_no 3)) in
  length (shapes res.1.1) = 1%nat
  ∧ res.2 = Some 1
  ∧ shown_session res.1.2
    = mkSession (ft := tracker)
        [mkFace 7 (0, 0, 1, 1) (Some (1 # 2)%Q) 0] [3; 0].
Proof.
  intros cfg res.
  destruct (detected_faces_become_shapes (cv := Demo.cv) (ft := tracker)
              (cnv := canvas) cfg
              (mkGesture false false [] "rectangle" "blur") fresh video
              (frame_no 3))
    as ((added & Hshapes & Hadded) & _ & Hcount & Hsession & _);
    [by right; left|].
  split_and!.
  - fold res in Hshapes. rewrite Hshapes. rewrite length_app.
    by rewrite <- (Forall2_length _ _ _ Hadded).
  - exact Hcount.
  - exact Hsession.
Defined.

(** An export of frames 0 to 2 with face detection on, then the face data
    of the track it leaves. *)
Lemma face_data_files_coincide_witness :
  let cfg := state 0 [] true false "traditional" 0 true true 0 2 in
  ∃ data,
    export_face_data cfg [mkFace 7 (2, 0, 1, 1) (Some (1 # 2)%Q) 2]
    = Some ("out/clip_faces.json", data).
Proof.
  intros cfg.
  assert (∃ path data,
            export_face_data cfg [mkFace 7 (2, 0, 1, 1) (Some (1 # 2)%Q) 2]
            = Some (path, data)) as (path & data & Hexp).
  { eexists _, _. vm_compute. reflexivity. }
  exists data. rewrite Hexp. do 2 f_equal.
  apply (face_data_files_coincide (cv := Demo.cv) (ft := tracker)
           (enc := enc_any) (cnv := canvas) cfg video fresh
           [mkFace 7 (2, 0, 1, 1) (Some (1 # 2)%Q) 2]
           "out/clip_faces.json"
           (telemetry (started_loop (cv := Demo.cv) (ft := tracker)
                         (enc := enc_any) cfg video fresh "in/clip.mp4").1)
           path data); [vm_compute; reflexivity|exact Hexp|done].
Defined.

(** Opening a 100-frame video over a session with a shape, a rotation, a
    trim range, a track and face detection switched on: the redraw of
    frame 0 detects anew. *)
Lemma opened_video_is_exported_verbatim_witness :
  let cfg :=
    oval_state 5
      [mkShape "rectangle" [(0, 0); (1, 1)] "black" 21 (0, 0, 0) [3; 99]]
      true true "mask" 90 false true 10 20 in
  let opened := open_video (cv := Demo.cv) (ft := tracker) (cnv := canvas)
                  cfg tracking "in/other.mp4" (Some (video, 100)) in
  frame_range opened.1 = (0, 99)
  ∧ frame_index opened.1 = 0
  ∧ shapes opened.1 = []
  ∧ output_size opened.1 video = (2, 2)
  ∧ tracked_faces (shown_session opened.2)
    = [mkFace 7 (0, 0, 1, 1) (Some (9 # 10)%Q) 0].
Proof.
  intros cfg opened.
  destruct (opened_video_is_exported_verbatim (cv := Demo.cv) (ft := tracker)
              (enc := enc_any) (cnv := canvas) cfg tracking "in/other.mp4"
              video 100)
    as (Hrange & Hidx & Hshapes & Hsize & _ & Htracks & _); [done|].
  split_and!; [exact Hrange|exact Hidx|exact Hshapes|exact Hsize|].
  exact Htracks.
Defined.

End FurtherWitnesses.
